(** * Fabrix image tools: dimension arithmetic, outline extraction, enhancement

    A shallow embedding of the Python sources under [src/]:
    - [utils/image_utils.py]      ([calculate_new_dimensions], [pixels_to_inches],
                                    [inches_to_pixels], [validate_image],
                                    [cleanup_old_files]),
    - [utils/outline_extractor.py] (the three outline extraction variants and
                                    [preview_outline]),
    - [utils/image_processor.py]   ([enhance_image], [upscale_only],
                                    [resize_image], [cleanup]),
    - [models/realesrgan_model.py] ([upscale_image], [upscale_with_custom_scale],
                                    [unload_model]),
    - [app.py]                     ([allowed_file], [calculate_dimensions]).

    Python [int] is [Z]; Python [float] is IEEE-754 binary64, taken from the
    executable specification [SpecFloat] of the standard library (precision 53,
    maximal exponent 1024), so that every rounding of the source is kept.
    Exceptions are an explicit error result carrying class and message. *)

From Stdlib Require Import ZArith Lia List String Ascii Bool.
From Stdlib Require Import Floats.SpecFloat.
Import ListNotations.

Local Open Scope string_scope.
Local Open Scope Z_scope.

(** ** Python exceptions as results *)

Module PyErr.

Inductive exn_class : Type :=
| ZeroDivisionError
| OverflowError
| ValueError
| RuntimeError.

Record exn : Type := Exn { exn_cls : exn_class; exn_msg : string }.

Inductive res (A : Type) : Type :=
| Ok (a : A)
| Raise (e : exn).

Arguments Ok {A} a.
Arguments Raise {A} e.

Definition bind {A B : Type} (c : res A) (k : A -> res B) : res B :=
  match c with
  | Ok a => k a
  | Raise e => Raise e
  end.

End PyErr.

Import PyErr.

Declare Scope py_scope.
Delimit Scope py_scope with py.
Notation "x <- c ;; k" := (bind c (fun x => k))
  (at level 61, c at next level, right associativity) : py_scope.
Local Open Scope py_scope.

(** ** Python floats: binary64 *)

Module Py64.

Definition prec : Z := 53.
Definition emax : Z := 1024.

Definition float : Type := spec_float.

(** An integer as an unrounded significand with exponent 0. *)
Definition of_Z_exact (z : Z) : float :=
  match z with
  | Z0 => S754_zero false
  | Zpos p => S754_finite false p 0
  | Zneg p => S754_finite true p 0
  end.

(** [float(z)] as done implicitly by [int * float] and [int / float]:
    round to nearest even, [OverflowError] when out of range. *)
Definition of_int (z : Z) : res float :=
  match binary_normalize prec emax z 0 false with
  | S754_infinity _ =>
      Raise (Exn OverflowError "int too large to convert to float")
  | f => Ok f
  end.

(** [a / b] on two Python ints: the correctly rounded quotient of the exact
    integers (one rounding), [ZeroDivisionError] on a zero divisor. *)
Definition int_truediv (a b : Z) : res float :=
  if b =? 0 then Raise (Exn ZeroDivisionError "division by zero")
  else
    match SFdiv prec emax (of_Z_exact a) (of_Z_exact b) with
    | S754_infinity _ =>
        Raise (Exn OverflowError "integer division result too large for a float")
    | f => Ok f
    end.

Definition is_zero (x : float) : bool :=
  match x with S754_zero _ => true | _ => false end.

(** [x / y] on two floats. *)
Definition float_div (x y : float) : res float :=
  if is_zero y then Raise (Exn ZeroDivisionError "float division by zero")
  else Ok (SFdiv prec emax x y).

Definition float_mul (x y : float) : float := SFmul prec emax x y.
Definition float_sub (x y : float) : float := SFsub prec emax x y.
Definition float_abs (x : float) : float := SFabs x.
Definition float_lt (x y : float) : bool := SFltb x y.
Definition float_gt (x y : float) : bool := SFltb y x.

(** [n / y] and [n * y] with an int on the left: the int is converted first. *)
Definition int_div_float (n : Z) (y : float) : res float :=
  x <- of_int n ;; float_div x y.

Definition int_mul_float (n : Z) (y : float) : res float :=
  x <- of_int n ;; Ok (float_mul x y).

(** [x * n] and [x - n] with an int on the right. *)
Definition float_mul_int (x : float) (n : Z) : res float :=
  y <- of_int n ;; Ok (float_mul x y).

Definition float_sub_int (x : float) (n : Z) : res float :=
  y <- of_int n ;; Ok (float_sub x y).

(** [int(x)]: truncation toward zero of the exact value. *)
Definition py_int (x : float) : res Z :=
  match x with
  | S754_zero _ => Ok 0
  | S754_finite s m e =>
      let a := match e with
               | Zneg k => Z.shiftr (Zpos m) (Zpos k)
               | _ => Z.shiftl (Zpos m) e
               end in
      Ok (if s then - a else a)
  | S754_infinity _ =>
      Raise (Exn OverflowError "cannot convert float infinity to integer")
  | S754_nan =>
      Raise (Exn ValueError "cannot convert float NaN to integer")
  end.

(** The literal [0.01]: the double nearest to 1/100. *)
Definition lit_0_01 : float := S754_finite false 5764607523034235 (-59).

(** Nearest integer to [a / b] for [0 < b], ties to even. *)
Definition round_half_even_div (a b : Z) : Z :=
  let q := a / b in
  match 2 * (a mod b) ?= b with
  | Lt => q
  | Gt => q + 1
  | Eq => if Z.even q then q else q + 1
  end.

(** [round(x, ndigits)] for a float and a small [0 <= ndigits]: the exact
    value of [x] is rounded to [ndigits] decimals, ties to even, and the
    decimal obtained is read back as the nearest double. Infinities and NaN
    round to themselves. *)
Definition py_round (x : float) (ndigits : Z) : float :=
  match x with
  | S754_finite s m e =>
      let scale := 10 ^ ndigits in
      let n := match e with
               | Zneg k => round_half_even_div (Zpos m * scale) (2 ^ Zpos k)
               | _ => Zpos m * scale * 2 ^ e
               end in
      match n with
      | Z0 => S754_zero s
      | _ => SFdiv prec emax (of_Z_exact (if s then - n else n))
                             (of_Z_exact scale)
      end
  | _ => x
  end.

(** Neither an infinity nor a NaN. *)
Definition is_finite (x : float) : bool :=
  match x with
  | S754_zero _ | S754_finite _ _ _ => true
  | _ => false
  end.

(** A normal number (full 53-bit significand) of magnitude
    [2^(lo-1) <= |x| < 2^hi]. *)
Definition normal_in (lo hi : Z) (x : float) : Prop :=
  match x with
  | S754_finite _ m e => Zpos (digits2_pos m) = prec /\ lo <= prec + e <= hi
  | _ => False
  end.

(** Position of the exact value [N / D] relative to the integer [m], as
    recorded by a rounding [location]: equal to [m], or strictly between [m]
    and [m + 1], below, at or above the midpoint. *)
Definition located (N D m : Z) (l : location) : Prop :=
  match l with
  | loc_Exact => N = m * D
  | loc_Inexact Lt => m * D < N /\ 2 * N < (2 * m + 1) * D
  | loc_Inexact Eq => 2 * N = (2 * m + 1) * D
  | loc_Inexact Gt => (2 * m + 1) * D < 2 * N /\ N < (m + 1) * D
  end.

End Py64.

Import Py64.

(** ** Python values, result dictionaries *)

Inductive pyval : Type :=
| PyInt (z : Z)
| PyFloat (x : float)
| PyStr (s : string)
| PyBool (b : bool).

(** A dict literal, in the order it is written. *)
Definition dict : Type := list (string * pyval).


(** [{'success': True, 'output_info': {...}}] or
    [{'success': False, 'error': ...}] *)
Inductive result : Type :=
| Success (output_info : dict)
| Failure (error : string).

(** ** [utils/image_utils.py] *)

Module ImageUtils.

Record dims : Type := Dims { width : Z; height : Z }.

(** Truth value of an optional int argument: [None] and [0] are false. *)
Definition truthy (o : option Z) : bool :=
  match o with
  | Some z => negb (z =? 0)
  | None => false
  end.

(** [o or d] *)
Definition py_or (o : option Z) (d : Z) : Z :=
  match o with
  | Some z => if z =? 0 then d else z
  | None => d
  end.

(** The int held by an argument already known to be truthy. *)
Definition the_int (o : option Z) : Z :=
  match o with Some z => z | None => 0 end.

Definition calculate_new_dimensions
    (original_width original_height : Z)
    (target_width target_height : option Z)
    (maintain_aspect : bool) : res dims :=
  if negb maintain_aspect then
    Ok {| width := py_or target_width original_width;
          height := py_or target_height original_height |}
  else
    aspect_ratio <- int_truediv original_width original_height ;;
    if truthy target_width && negb (truthy target_height) then
      let tw := the_int target_width in
      q <- int_div_float tw aspect_ratio ;;
      h <- py_int q ;;
      Ok {| width := tw; height := h |}
    else if truthy target_height && negb (truthy target_width) then
      let th := the_int target_height in
      p <- int_mul_float th aspect_ratio ;;
      w <- py_int p ;;
      Ok {| width := w; height := th |}
    else if truthy target_width && truthy target_height then
      let tw := the_int target_width in
      let th := the_int target_height in
      target_aspect <- int_truediv tw th ;;
      if float_lt (float_abs (float_sub aspect_ratio target_aspect)) lit_0_01
      then Ok {| width := tw; height := th |}
      else
        rw <- int_truediv tw original_width ;;
        rh <- int_truediv th original_height ;;
        if float_gt rw rh then
          p <- int_mul_float th aspect_ratio ;;
          w <- py_int p ;;
          Ok {| width := w; height := th |}
        else
          q <- int_div_float tw aspect_ratio ;;
          h <- py_int q ;;
          Ok {| width := tw; height := h |}
    else
      Ok {| width := original_width; height := original_height |}.

(** Sizes for which none of the float operations above leaves the range of
    binary64. *)
Definition in_range (z : Z) : Prop := 0 < z < 2 ^ 500.

(** Sizes for which the two roundings of the resolver stay below one pixel:
    the product of any two of them is exact in a double. *)
Definition pixel_size (z : Z) : Prop := 0 < z < 2 ^ 25.

(** [r] is the floor of [n / d], or one less when [d] divides [n]. *)
Definition quotient_or_below (n d r : Z) : Prop :=
  r = n / d \/ (n mod d = 0 /\ r = n / d - 1).

Definition pixels_to_inches (pixels ppi : Z) : res pyval :=
  if ppi >? 0 then
    q <- int_truediv pixels ppi ;;
    Ok (PyFloat (py_round q 2))
  else Ok (PyInt 0).

(** [int(inches * ppi)] for a float [inches], as the docstring has it. *)
Definition inches_to_pixels (inches : float) (ppi : Z) : res Z :=
  p <- float_mul_int inches ppi ;; py_int p.

End ImageUtils.

Import ImageUtils.

(** ** OpenCV, NumPy, PIL and the network: the interface the sources use *)

Module Cv2.

(** A single-channel 8-bit image: rows of samples in 0..255. *)
Definition gray : Type := list (list Z).

(** [img.shape[:2]], that is (height, width). *)
Definition shape (g : gray) : Z * Z :=
  (Z.of_nat (List.length g), Z.of_nat (List.length (hd [] g))).

(** [cv2.bitwise_not] on 8-bit samples. *)
Definition bitwise_not (src : gray) : gray :=
  map (map (fun p => Z.lxor p 255)) src.

(** [cv2.threshold(src, thresh, maxval, cv2.THRESH_BINARY)[1]] *)
Definition threshold (src : gray) (thresh maxval : Z) : gray :=
  map (map (fun p => if p >? thresh then maxval else 0)) src.

Inductive interpolation : Type :=
| INTER_LINEAR
| INTER_CUBIC
| INTER_AREA
| INTER_LANCZOS4.

Inductive imwrite_flag : Type :=
| IMWRITE_PNG_COMPRESSION
| IMWRITE_JPEG_QUALITY
| IMWRITE_WEBP_QUALITY.

(** Keyword options of PIL's [Image.save]. *)
Inductive save_option : Type :=
| optimize (b : bool)
| quality (q : Z)
| compression (c : string).

(** The library calls whose result the sources only pass on, as functions:
    they are taken to return (no [cv2.error] is modelled). [imread] gives
    [None] for a path that cannot be decoded; [median] is [np.median];
    [esrgan_enhance img s] is the first component of
    [self.model.enhance(img, outscale=s)]; [path_suffix_lower p] is
    [Path(p).suffix.lower()] and [strip_dot_upper e] is
    [e.replace('.', '').upper()]. *)
Class Ops : Type := {
  bgr : Type;
  kernel : Type;
  bgr_shape : bgr -> Z * Z;
  imread : string -> option bgr;
  cvtColor_BGR2GRAY : bgr -> gray;
  cvtColor_BGR2RGB : bgr -> bgr;
  GaussianBlur : gray -> Z * Z -> float -> gray;
  bilateralFilter : gray -> Z -> Z -> Z -> gray;
  threshold_otsu : gray -> gray;
  median : gray -> float;
  Canny : gray -> Z -> Z -> Z -> bool -> gray;
  getStructuringElement_ELLIPSE : Z * Z -> kernel;
  dilate : gray -> kernel -> Z -> gray;
  morphologyEx_CLOSE : gray -> kernel -> gray;
  resize : bgr -> Z * Z -> interpolation -> bgr;
  esrgan_enhance : bgr -> Z -> bgr;
  path_suffix_lower : string -> string;
  strip_dot_upper : string -> string
}.

(** What the documentation of OpenCV promises about sizes: each filter
    returns an image of the size of its source. *)
Class OpsSpec (ops : Ops) : Prop := {
  cvtColor_shape : forall img, shape (cvtColor_BGR2GRAY img) = bgr_shape img;
  GaussianBlur_shape : forall g k sg, shape (GaussianBlur g k sg) = shape g;
  Canny_shape : forall g t1 t2 ap l2, shape (Canny g t1 t2 ap l2) = shape g;
  dilate_shape : forall g k it, shape (dilate g k it) = shape g
}.




Inductive raster {ops : Ops} : Type :=
| Gray (g : gray)
| Color (c : bgr).

(** Calls that are observed: kernels built, network inference, resampling,
    and files written. *)
Inductive event {ops : Ops} : Type :=
| KernelBuilt (ksize : Z * Z)
| Inference (img : bgr) (outscale : Z)
| Resized (src : bgr) (dsize : Z * Z) (interp : interpolation)
| Imwrite (path : string) (img : raster) (params : list (imwrite_flag * Z))
| PilSave (path : string) (img : bgr) (format : string) (dpi : Z * Z)
          (options : list save_option).

End Cv2.

Import Cv2.

(** ** Computations that call the libraries and may raise *)

Module Eff.

Definition M (E A : Type) : Type := list E -> res A * list E.

Definition ret {E A : Type} (a : A) : M E A := fun tr => (Ok a, tr).

Definition bind {E A B : Type} (c : M E A) (k : A -> M E B) : M E B :=
  fun tr =>
    match c tr with
    | (Ok a, tr') => k a tr'
    | (Raise e, tr') => (Raise e, tr')
    end.

Definition emit {E : Type} (e : E) : M E unit :=
  fun tr => (Ok tt, (tr ++ [e])%list).

Definition lift {E A : Type} (r : res A) : M E A := fun tr => (r, tr).

Definition raise {E A : Type} (e : exn) : M E A := lift (Raise e).

(** [try: c except Exception as e: h e] *)
Definition try_except {E A : Type} (c : M E A) (h : exn -> M E A) : M E A :=
  fun tr =>
    match c tr with
    | (Ok a, tr') => (Ok a, tr')
    | (Raise e, tr') => h e tr'
    end.

Definition run {E A : Type} (c : M E A) : res A * list E := c [].

End Eff.

Declare Scope eff_scope.
Delimit Scope eff_scope with eff.
Notation "x <- c ;; k" := (Eff.bind c (fun x => k))
  (at level 61, c at next level, right associativity) : eff_scope.
Notation "' pat <- c ;; k" := (Eff.bind c (fun x => let 'pat := x in k))
  (at level 61, pat pattern, c at next level, right associativity) : eff_scope.
Notation "c ;;; k" := (Eff.bind c (fun _ => k))
  (at level 61, right associativity) : eff_scope.

(** The observed calls. *)
Section Calls.

Context {ops : Ops}.

Local Open Scope eff_scope.

Definition imwrite (path : string) (img : raster)
    (params : list (imwrite_flag * Z)) : Eff.M event unit :=
  Eff.emit (Imwrite path img params).

Definition getStructuringElement (ksize : Z * Z) : Eff.M event kernel :=
  Eff.emit (KernelBuilt ksize) ;;;
  Eff.ret (getStructuringElement_ELLIPSE ksize).

Definition cv2_resize (src : bgr) (dsize : Z * Z) (interp : interpolation)
    : Eff.M event bgr :=
  Eff.emit (Resized src dsize interp) ;;;
  Eff.ret (resize src dsize interp).

Definition model_enhance (img : bgr) (outscale : Z) : Eff.M event bgr :=
  Eff.emit (Inference img outscale) ;;;
  Eff.ret (esrgan_enhance img outscale).

Definition pil_save (path : string) (img : bgr) (format : string)
    (dpi : Z * Z) (options : list save_option) : Eff.M event unit :=
  Eff.emit (PilSave path img format dpi options).

End Calls.

(** [s in l] for strings. *)
Definition str_in (s : string) (l : list string) : bool :=
  existsb (String.eqb s) l.

(** Float literals of the sources. *)
Definition lit_1_4 : float := S754_finite false 6305039478318694 (-52).
Definition lit_0_33 : float := S754_finite false 5944751508129055 (-54).
Definition lit_0_66 : float := S754_finite false 5944751508129055 (-53).

(** ** [utils/outline_extractor.py] *)

Module OutlineExtractor.

(** The fields set by [__init__] from the configuration. *)
Record t : Type := {
  default_thickness : Z;
  canny_threshold1 : Z;
  canny_threshold2 : Z
}.

(** Steps 5 and 6 of [extract_outline], the same two lines in each variant:
    [outline = cv2.bitwise_not(edges)] and
    [_, outline = cv2.threshold(outline, 127, 255, cv2.THRESH_BINARY)]. *)
Definition invert_and_binarize (edges : gray) : gray :=
  let outline := bitwise_not edges in
  threshold outline 127 255.

Section WithOps.

Context {ops : Ops}.

Local Open Scope eff_scope.

Definition extract_outline (self : t) (input_path output_path : string)
    (thickness : option Z) : Eff.M event result :=
  Eff.try_except
    (let thickness :=
       match thickness with
       | None => default_thickness self
       | Some th => th
       end in
     let thickness := Z.max 1 (Z.min 5 thickness) in
     match imread input_path with
     | None =>
         Eff.ret (Failure ("Failed to read image from " ++ input_path))
     | Some img =>
         let gray := cvtColor_BGR2GRAY img in
         let blurred := GaussianBlur gray (5, 5) lit_1_4 in
         let edges :=
           Canny blurred (canny_threshold1 self) (canny_threshold2 self)
                 3 true in
         edges <- (if thickness >? 1 then
                     kernel <- getStructuringElement (thickness, thickness) ;;
                     Eff.ret (dilate edges kernel 1)
                   else Eff.ret edges) ;;
         let outline := invert_and_binarize edges in
         let output_ext := path_suffix_lower output_path in
         (if str_in output_ext [".png"] then
            imwrite output_path (Gray outline) [(IMWRITE_PNG_COMPRESSION, 9)]
          else if str_in output_ext [".jpg"; ".jpeg"] then
            imwrite output_path (Gray outline) [(IMWRITE_JPEG_QUALITY, 95)]
          else if String.eqb output_ext ".bmp" then
            imwrite output_path (Gray outline) []
          else if str_in output_ext [".tif"; ".tiff"] then
            imwrite output_path (Gray outline) []
          else if String.eqb output_ext ".webp" then
            imwrite output_path (Gray outline) [(IMWRITE_WEBP_QUALITY, 95)]
          else
            imwrite output_path (Gray outline) [(IMWRITE_PNG_COMPRESSION, 9)]) ;;;
         let '(height, width) := shape outline in
         Eff.ret (Success [("width", PyInt width);
                           ("height", PyInt height);
                           ("thickness", PyInt thickness);
                           ("file_path", PyStr output_path);
                           ("format", PyStr (strip_dot_upper output_ext))])
     end)
    (fun e => Eff.ret (Failure (exn_msg e))).

Definition extract_outline_advanced (self : t)
    (input_path output_path : string) (thickness : option Z)
    (auto_threshold : bool) : Eff.M event result :=
  Eff.try_except
    (let thickness :=
       match thickness with
       | None => default_thickness self
       | Some th => th
       end in
     let thickness := Z.max 1 (Z.min 5 thickness) in
     match imread input_path with
     | None =>
         Eff.ret (Failure ("Failed to read image from " ++ input_path))
     | Some img =>
         let gray := cvtColor_BGR2GRAY img in
         let filtered := bilateralFilter gray 9 75 75 in
         '(threshold1, threshold2) <-
            (if auto_threshold then
               let binary := threshold_otsu filtered in
               threshold1 <- Eff.lift (py_int (float_mul (median binary) lit_0_33)) ;;
               threshold2 <- Eff.lift (py_int (float_mul (median binary) lit_0_66)) ;;
               Eff.ret (threshold1, threshold2)
             else
               Eff.ret (canny_threshold1 self, canny_threshold2 self)) ;;
         let edges := Canny filtered threshold1 threshold2 3 true in
         kernel <- getStructuringElement (3, 3) ;;
         let closed := morphologyEx_CLOSE edges kernel in
         closed <- (if thickness >? 1 then
                      thick_kernel <- getStructuringElement (thickness, thickness) ;;
                      Eff.ret (dilate closed thick_kernel 1)
                    else Eff.ret closed) ;;
         let outline := invert_and_binarize closed in
         let output_ext := path_suffix_lower output_path in
         (if str_in output_ext [".png"] then
            imwrite output_path (Gray outline) [(IMWRITE_PNG_COMPRESSION, 9)]
          else
            imwrite output_path (Gray outline) []) ;;;
         let '(height, width) := shape outline in
         Eff.ret (Success [("width", PyInt width);
                           ("height", PyInt height);
                           ("thickness", PyInt thickness);
                           ("file_path", PyStr output_path);
                           ("format", PyStr (strip_dot_upper output_ext));
                           ("auto_threshold", PyBool auto_threshold)])
     end)
    (fun e => Eff.ret (Failure (exn_msg e))).

Definition extract_outline_with_detail (self : t)
    (input_path output_path : string) (thickness : option Z)
    (detail_level : string) : Eff.M event result :=
  Eff.try_except
    (let thickness :=
       match thickness with
       | None => default_thickness self
       | Some th => th
       end in
     let thickness := Z.max 1 (Z.min 5 thickness) in
     match imread input_path with
     | None =>
         Eff.ret (Failure ("Failed to read image from " ++ input_path))
     | Some img =>
         let gray := cvtColor_BGR2GRAY img in
         let '(blur_kernel, threshold1, threshold2) :=
           if String.eqb detail_level "low" then ((7, 7), 100, 200)
           else if String.eqb detail_level "high" then ((3, 3), 30, 100)
           else ((5, 5), canny_threshold1 self, canny_threshold2 self) in
         let blurred := GaussianBlur gray blur_kernel lit_1_4 in
         let edges := Canny blurred threshold1 threshold2 3 true in
         edges <- (if thickness >? 1 then
                     kernel <- getStructuringElement (thickness, thickness) ;;
                     Eff.ret (dilate edges kernel 1)
                   else Eff.ret edges) ;;
         let outline := invert_and_binarize edges in
         imwrite output_path (Gray outline) [] ;;;
         let '(height, width) := shape outline in
         Eff.ret (Success [("width", PyInt width);
                           ("height", PyInt height);
                           ("thickness", PyInt thickness);
                           ("detail_level", PyStr detail_level);
                           ("file_path", PyStr output_path)])
     end)
    (fun e => Eff.ret (Failure (exn_msg e))).

(** [preview_outline]: nothing is saved; [None] for an unreadable input.
    [cv2.Canny] is called with its defaults ([apertureSize=3],
    [L2gradient=False]). *)
Definition preview_outline (self : t) (input_path : string) : option gray :=
  match imread input_path with
  | None => None
  | Some img =>
      let gray := cvtColor_BGR2GRAY img in
      let blurred := GaussianBlur gray (5, 5) lit_1_4 in
      let edges :=
        Canny blurred (canny_threshold1 self) (canny_threshold2 self)
              3 false in
      let outline := bitwise_not edges in
      Some outline
  end.

End WithOps.

End OutlineExtractor.


(** ** [models/realesrgan_model.py] *)

Module RealESRGANModel.

(** [scale] is [config['ESRGAN_SCALE']]; [model] tells whether [self.model]
    holds the upsampler. *)
Record t : Type := {
  scale : Z;
  model : bool;
  model_loaded : bool
}.

Definition unload_model (self : t) : t :=
  if model self then
    {| scale := scale self; model := false; model_loaded := false |}
  else self.

Section WithOps.

Context {ops : Ops}.

Local Open Scope eff_scope.

Definition upscale_image (self : t) (image_path : string)
    (output_path : option string) : Eff.M event bgr :=
  if negb (model_loaded self) then
    Eff.raise (Exn RuntimeError "Model not loaded. Cannot perform upscaling.")
  else
    Eff.try_except
      (match imread image_path with
       | None =>
           Eff.raise (Exn ValueError
                          ("Failed to read image from " ++ image_path))
       | Some img =>
           output <- model_enhance img (scale self) ;;
           (match output_path with
            | None | Some EmptyString => Eff.ret tt
            | Some path => imwrite path (Color output) []
            end) ;;;
           Eff.ret output
       end)
      (fun e => Eff.raise e).


End WithOps.

End RealESRGANModel.

(** ** [utils/image_processor.py] *)

Module ImageProcessor.

(** [esrgan_model] is [None] when the model could not be constructed. *)
Record t : Type := { esrgan_model : option RealESRGANModel.t }.

Definition cleanup (self : t) : t :=
  match esrgan_model self with
  | Some m => {| esrgan_model := Some (RealESRGANModel.unload_model m) |}
  | None => self
  end.

Section WithOps.

Context {ops : Ops}.

Local Open Scope eff_scope.

(** Step 2 of [enhance_image]: resize to the target dimensions if they
    differ from those of the upscaled image. *)
Definition resize_to_target (upscaled_img : bgr)
    (target_width target_height : Z) : Eff.M event bgr :=
  let '(upscaled_height, upscaled_width) := bgr_shape upscaled_img in
  if negb (target_width =? upscaled_width)
     || negb (target_height =? upscaled_height) then
    let interpolation :=
      if (target_width >? upscaled_width)
         || (target_height >? upscaled_height)
      then INTER_CUBIC
      else INTER_AREA in
    cv2_resize upscaled_img (target_width, target_height) interpolation
  else Eff.ret upscaled_img.

(** The aspect-ratio block of [enhance_image]. *)
Definition maintain_aspect_ratio (original_width original_height : Z)
    (target_width target_height : Z) (maintain_aspect : bool)
    : res (Z * Z) :=
  (if maintain_aspect && negb (target_width =? 0)
      && negb (target_height =? 0) then
     aspect_ratio <- int_truediv original_width original_height ;;
     target_aspect <- int_truediv target_width target_height ;;
     if float_gt (float_abs (float_sub aspect_ratio target_aspect)) lit_0_01
     then
       rw <- int_truediv target_width original_width ;;
       rh <- int_truediv target_height original_height ;;
       if float_gt rw rh then
         p <- int_mul_float target_height aspect_ratio ;;
         w <- py_int p ;;
         Ok (w, target_height)
       else
         q <- int_div_float target_width aspect_ratio ;;
         h <- py_int q ;;
         Ok (target_width, h)
     else Ok (target_width, target_height)
   else Ok (target_width, target_height))%py.

Definition enhance_image (self : t) (input_path output_path : string)
    (target_width target_height : option Z)
    (ppi_horizontal ppi_vertical : Z) (maintain_aspect : bool)
    : Eff.M event result :=
  Eff.try_except
    (match esrgan_model self with
     | None => Eff.ret (Failure "ESRGAN model not initialized")
     | Some esrgan_model =>
     match imread input_path with
     | None =>
         Eff.ret (Failure ("Failed to read image from " ++ input_path))
     | Some original_img =>
         let '(original_height, original_width) := bgr_shape original_img in
         let target_width :=
           match target_width with
           | None => original_width
           | Some w => w
           end in
         let target_height :=
           match target_height with
           | None => original_height
           | Some h => h
           end in
         '(target_width, target_height) <-
            Eff.lift (maintain_aspect_ratio original_width original_height
                        target_width target_height maintain_aspect) ;;
         upscaled_img <-
            RealESRGANModel.upscale_image esrgan_model input_path None ;;
         final_img <- resize_to_target upscaled_img target_width target_height ;;
         let final_img_rgb := cvtColor_BGR2RGB final_img in
         let pil_image := final_img_rgb in
         let dpi_horizontal := ppi_horizontal in
         let dpi_vertical := ppi_vertical in
         let output_ext := path_suffix_lower output_path in
         (if str_in output_ext [".png"] then
            pil_save output_path pil_image "PNG"
                     (dpi_horizontal, dpi_vertical) [optimize true]
          else if str_in output_ext [".jpg"; ".jpeg"] then
            pil_save output_path pil_image "JPEG"
                     (dpi_horizontal, dpi_vertical) [quality 95; optimize true]
          else if String.eqb output_ext ".bmp" then
            pil_save output_path pil_image "BMP"
                     (dpi_horizontal, dpi_vertical) []
          else if str_in output_ext [".tif"; ".tiff"] then
            pil_save output_path pil_image "TIFF"
                     (dpi_horizontal, dpi_vertical) [compression "tiff_lzw"]
          else if String.eqb output_ext ".webp" then
            pil_save output_path pil_image "WEBP"
                     (dpi_horizontal, dpi_vertical) [quality 95]
          else
            pil_save output_path pil_image "PNG"
                     (dpi_horizontal, dpi_vertical) []) ;;;
         width_inches <- Eff.lift (int_truediv target_width ppi_horizontal) ;;
         height_inches <- Eff.lift (int_truediv target_height ppi_vertical) ;;
         Eff.ret (Success [("width", PyInt target_width);
                           ("height", PyInt target_height);
                           ("ppi_horizontal", PyInt ppi_horizontal);
                           ("ppi_vertical", PyInt ppi_vertical);
                           ("width_inches", PyFloat (py_round width_inches 2));
                           ("height_inches", PyFloat (py_round height_inches 2));
                           ("file_path", PyStr output_path);
                           ("format", PyStr (strip_dot_upper output_ext))])
     end
     end)
    (fun e => Eff.ret (Failure (exn_msg e))).

(** [upscale_only]; [scale_factor] is accepted and not used. *)
Definition upscale_only (self : t) (input_path output_path : string)
    (scale_factor : option Z) : Eff.M event result :=
  Eff.try_except
    (match esrgan_model self with
     | None => Eff.ret (Failure "ESRGAN model not initialized")
     | Some esrgan_model =>
         upscaled_img <-
            RealESRGANModel.upscale_image esrgan_model input_path None ;;
         imwrite output_path (Color upscaled_img) [] ;;;
         let '(height, width) := bgr_shape upscaled_img in
         Eff.ret (Success [("width", PyInt width);
                           ("height", PyInt height);
                           ("file_path", PyStr output_path)])
     end)
    (fun e => Eff.ret (Failure (exn_msg e))).


End WithOps.

End ImageProcessor.

(** ** [utils/image_utils.py]: the methods that touch the file system *)

Module ImageFiles.

(** [os.path], [pathlib] and PIL as the sources use them. A library
    exception is only ever turned into its message by the sources, so its
    class is whatever [exn] offers. [pil_verify p] is
    [with Image.open(p) as img: img.verify()]; [float_str x] is [x] as an
    f-string prints it. *)
Class Fs : Type := {
  path_exists : string -> bool;
  getsize : string -> res Z;
  pil_verify : string -> res unit;
  float_str : float -> string
}.

(** The two settings read from [config] by [ImageUtils]:
    [ALLOWED_EXTENSIONS] and [MAX_CONTENT_LENGTH] ([None] when the key is
    absent). *)
Record t : Type := {
  allowed_extensions : list string;
  max_content_length : option Z
}.

(** [s.replace('.', '')] *)
Fixpoint remove_dots (s : string) : string :=
  match s with
  | EmptyString => EmptyString
  | String c r =>
      if Ascii.eqb c "."%char then remove_dots r
      else String c (remove_dots r)
  end.

Section WithFs.

Context {ops : Ops} {fs : Fs}.

Definition validate_image (self : t) (image_path : string) : dict :=
  let body : res dict :=
    if negb (path_exists image_path) then
      Ok [("valid", PyBool false); ("error", PyStr "File does not exist")]
    else
      let ext := remove_dots (path_suffix_lower image_path) in
      if negb (str_in ext (allowed_extensions self)) then
        Ok [("valid", PyBool false);
            ("error", PyStr ("File type ." ++ ext ++ " not allowed"))]
      else
        match pil_verify image_path with
        | Raise e =>
            Ok [("valid", PyBool false);
                ("error", PyStr ("Invalid image file: " ++ exn_msg e))]
        | Ok _ =>
            file_size <- getsize image_path ;;
            let max_size :=
              match max_content_length self with
              | Some m => m
              | None => 50 * 1024 * 1024
              end in
            if file_size >? max_size then
              mb <- int_truediv max_size (1024 * 1024) ;;
              Ok [("valid", PyBool false);
                  ("error", PyStr ("File too large. Max size: "
                                     ++ float_str mb ++ "MB"))]
            else Ok [("valid", PyBool true)]
        end in
  match body with
  | Ok d => d
  | Raise e => [("valid", PyBool false); ("error", PyStr (exn_msg e))]
  end.

End WithFs.

(** An entry of a directory as [cleanup_old_files] looks at it:
    [file_path.is_file()], [file_path.stat().st_mtime] (the call may raise)
    and what [file_path.unlink()] would do. *)
Record dir_entry : Type := {
  entry_path : string;
  is_file : bool;
  st_mtime : res float;
  unlink : res unit
}.

(** The files removed, in order. *)
Inductive fs_event : Type :=
| Unlinked (path : string).

Local Open Scope eff_scope.

(** The body of [for file_path in directory.iterdir():]. An error of
    [unlink] is printed and the loop goes on; an error of [stat] leaves the
    loop. *)
Fixpoint cleanup_loop (cutoff_time : float) (entries : list dir_entry)
    (removed_count : Z) : Eff.M fs_event Z :=
  match entries with
  | [] => Eff.ret removed_count
  | file_path :: rest =>
      removed_count <-
        (if is_file file_path then
           mtime <- Eff.lift (st_mtime file_path) ;;
           if float_lt mtime cutoff_time then
             Eff.try_except
               (Eff.lift (unlink file_path) ;;;
                Eff.emit (Unlinked (entry_path file_path)) ;;;
                Eff.ret (removed_count + 1))
               (fun e => Eff.ret removed_count)
           else Eff.ret removed_count
         else Eff.ret removed_count) ;;
      cleanup_loop cutoff_time rest removed_count
  end.

(** [cleanup_old_files]: [now] is what [time.time()] returns and
    [directory] lists the entries of the directory, [None] when it does not
    exist. *)
Definition cleanup_old_files (now : float)
    (directory : option (list dir_entry)) (max_age_hours : Z)
    : Eff.M fs_event dict :=
  Eff.try_except
    (match directory with
     | None => Eff.ret [("removed", PyInt 0)]
     | Some entries =>
         cutoff_time <- Eff.lift (float_sub_int now (max_age_hours * 3600)) ;;
         removed_count <- cleanup_loop cutoff_time entries 0 ;;
         Eff.ret [("removed", PyInt removed_count)]
     end)
    (fun e => Eff.ret [("removed", PyInt 0); ("error", PyStr (exn_msg e))]).

End ImageFiles.

(** ** [app.py] *)

Module App.

(** [c.lower()] on an ASCII character. *)
Definition ascii_lower (c : ascii) : ascii :=
  let n := nat_of_ascii c in
  if (65 <=? n)%nat && (n <=? 90)%nat then ascii_of_nat (n + 32) else c.

(** [s.lower()] on an ASCII string. *)
Fixpoint lower (s : string) : string :=
  match s with
  | EmptyString => EmptyString
  | String c r => String (ascii_lower c) (lower r)
  end.

(** ['.' in s] *)
Fixpoint has_dot (s : string) : bool :=
  match s with
  | EmptyString => false
  | String c r => Ascii.eqb c "."%char || has_dot r
  end.

(** [s] cut at its last ['.'], when it has one. *)
Fixpoint cut_last_dot (s : string) : option (string * string) :=
  match s with
  | EmptyString => None
  | String c r =>
      match cut_last_dot r with
      | Some (a, b) => Some (String c a, b)
      | None => if Ascii.eqb c "."%char then Some (EmptyString, r) else None
      end
  end.

(** [s.rsplit('.', 1)] *)
Definition rsplit_dot_1 (s : string) : list string :=
  match cut_last_dot s with
  | Some (a, b) => [a; b]
  | None => [s]
  end.

(** [allowed_file], with [app.config['ALLOWED_EXTENSIONS']] as a
    parameter. The index [[1]] is guarded by the test for a dot. *)
Definition allowed_file (allowed_extensions : list string)
    (filename : string) : bool :=
  has_dot filename
  && match nth_error (rsplit_dot_1 filename) 1 with
     | Some ext => str_in (lower ext) allowed_extensions
     | None => false
     end.

(** [ALLOWED_EXTENSIONS] of [config.py]. *)
Definition ALLOWED_EXTENSIONS : list string :=
  ["png"; "jpg"; "jpeg"; "bmp"; "tiff"; "webp"].

(** The route [/api/calculate-dimensions] on integer JSON values: the body
    and the status of the response. *)
Definition calculate_dimensions (original_width original_height : Z)
    (changed_dimension : string) (new_value : Z) : dict * Z :=
  let body : res dict :=
    if String.eqb changed_dimension "width" then
      aspect_ratio <- int_truediv original_height original_width ;;
      p <- int_mul_float new_value aspect_ratio ;;
      calculated_height <- py_int p ;;
      Ok [("width", PyInt new_value); ("height", PyInt calculated_height)]
    else
      aspect_ratio <- int_truediv original_width original_height ;;
      p <- int_mul_float new_value aspect_ratio ;;
      calculated_width <- py_int p ;;
      Ok [("width", PyInt calculated_width); ("height", PyInt new_value)] in
  match body with
  | Ok d => (d, 200)
  | Raise e => ([("error", PyStr (exn_msg e))], 500)
  end.

End App.

(** ** Predicates used in the statements, and a stand-in for the libraries *)

(** Every structuring element built has both sides within [lo, hi]. *)
Definition kernel_within {ops : Ops} (lo hi : Z) (e : event) : Prop :=
  match e with
  | KernelBuilt (a, b) => lo <= a <= hi /\ lo <= b <= hi
  | _ => True
  end.

(** The processor has no model, or its model reports that it is not loaded. *)
Definition model_unavailable (self : ImageProcessor.t) : Prop :=
  match ImageProcessor.esrgan_model self with
  | None => True
  | Some m => RealESRGANModel.model_loaded m = false
  end.

(** An optional target size that is absent or within range. *)
Definition target_in_range (o : option Z) : Prop :=
  match o with
  | None => True
  | Some z => in_range z
  end.

(** A trivial implementation of the interface: colour images are stored as
    their grey plane, [files] says what each path decodes to, and every
    filter returns its source unchanged. It shows that the size contract
    [OpsSpec] can be met and lets the models run on concrete inputs. *)
Definition stub_ops (files : string -> option gray) : Ops :=
  {| bgr := gray;
     kernel := Z * Z;
     bgr_shape := shape;
     imread := files;
     cvtColor_BGR2GRAY := fun img => img;
     cvtColor_BGR2RGB := fun img => img;
     GaussianBlur := fun g _ _ => g;
     bilateralFilter := fun g _ _ _ => g;
     threshold_otsu := fun g => threshold g 127 255;
     median := fun _ => S754_zero false;
     Canny := fun g _ _ _ _ => g;
     getStructuringElement_ELLIPSE := fun k => k;
     dilate := fun g _ _ => g;
     morphologyEx_CLOSE := fun g _ => g;
     resize := fun img _ _ => img;
     esrgan_enhance := fun img _ => img;
     path_suffix_lower := fun p => p;
     strip_dot_upper := fun p => p |}.




(** The configured defaults of [config.py]. *)
Definition default_extractor : OutlineExtractor.t :=
  {| OutlineExtractor.default_thickness := 1;
     OutlineExtractor.canny_threshold1 := 50;
     OutlineExtractor.canny_threshold2 := 150 |}.

(** A processor whose model was constructed and loaded (scale 4). *)
Definition loaded_processor : ImageProcessor.t :=
  {| ImageProcessor.esrgan_model :=
       Some {| RealESRGANModel.scale := 4;
               RealESRGANModel.model := true;
               RealESRGANModel.model_loaded := true |} |}.


(** One readable 2x2 image at ["in.png"], nothing else. *)
Definition sample_image : gray := [[0; 255]; [255; 0]].

Definition one_file (path : string) : option gray :=
  if String.eqb path "in.png" then Some sample_image else None.

(** The size limit [validate_image] applies: [MAX_CONTENT_LENGTH], or 50 MB
    when the configuration has none. *)
Definition max_size (self : ImageFiles.t) : Z :=
  match ImageFiles.max_content_length self with
  | Some m => m
  | None => 50 * 1024 * 1024
  end.

(** The entries [cleanup_old_files] removes: regular files older than the
    cutoff whose [unlink] succeeds. *)
Definition deletable (cutoff_time : float) (f : ImageFiles.dir_entry) : bool :=
  ImageFiles.is_file f
  && match ImageFiles.st_mtime f with
     | Ok mtime => float_lt mtime cutoff_time
     | Raise _ => false
     end
  && match ImageFiles.unlink f with
     | Ok _ => true
     | Raise _ => false
     end.

(** [stat] does not raise on the entry, if it is a regular file. *)
Definition stat_ok (f : ImageFiles.dir_entry) : Prop :=
  ImageFiles.is_file f = true -> exists mtime, ImageFiles.st_mtime f = Ok mtime.




(** The images handed to the writers, with their paths. *)
Definition saved_images {ops : Ops} (tr : list event)
    : list (string * raster) :=
  flat_map (fun e => match e with
                     | Imwrite p img _ => [(p, img)]
                     | PilSave p img _ _ _ => [(p, Color img)]
                     | _ => []
                     end) tr.


(** A clock at 2^30 seconds, and a directory with a file from 2^29 seconds,
    a subdirectory, a file from now and an old file that cannot be
    removed. *)
Definition sample_now : float := S754_finite false 4503599627370496 (-22).

Definition sample_directory : list ImageFiles.dir_entry :=
  [ {| ImageFiles.entry_path := "old.png"; ImageFiles.is_file := true;
       ImageFiles.st_mtime := Ok (S754_finite false 4503599627370496 (-23));
       ImageFiles.unlink := Ok tt |};
    {| ImageFiles.entry_path := "sub"; ImageFiles.is_file := false;
       ImageFiles.st_mtime := Ok (S754_finite false 4503599627370496 (-23));
       ImageFiles.unlink := Raise (Exn RuntimeError "Is a directory") |};
    {| ImageFiles.entry_path := "new.png"; ImageFiles.is_file := true;
       ImageFiles.st_mtime := Ok sample_now;
       ImageFiles.unlink := Ok tt |};
    {| ImageFiles.entry_path := "locked.png"; ImageFiles.is_file := true;
       ImageFiles.st_mtime := Ok (S754_finite false 4503599627370496 (-23));
       ImageFiles.unlink := Raise (Exn RuntimeError "Permission denied") |} ].

(** ** Binary64 arithmetic: number of digits and binades *)

Section Digits.

Lemma digits2_pos_size (p : positive) : digits2_pos p = Pos.size p.
Proof. induction p; simpl; congruence. Qed.

Lemma Zdigits2_log2 (m : Z) : 0 < m -> Zdigits2 m = Z.log2 m + 1.
Proof.
  destruct m as [|p|p]; try lia. intros _. simpl.
  rewrite digits2_pos_size. destruct p; simpl; lia.
Qed.

Lemma Zdigits2_nonneg (m : Z) : 0 <= Zdigits2 m.
Proof. destruct m; simpl; lia. Qed.

Lemma Zdigits2_pos (m : Z) : 0 < m -> 0 < Zdigits2 m.
Proof. destruct m; simpl; lia. Qed.

Lemma Zdigits2_bounds (m : Z) :
  0 < m -> 2 ^ (Zdigits2 m - 1) <= m < 2 ^ Zdigits2 m.
Proof.
  intros Hm. rewrite (Zdigits2_log2 m Hm).
  replace (Z.log2 m + 1 - 1) with (Z.log2 m) by lia.
  apply (Z.log2_spec m Hm).
Qed.

Lemma Zdigits2_le_mono (a b : Z) : 0 < a -> a <= b -> Zdigits2 a <= Zdigits2 b.
Proof.
  intros Ha Hab. rewrite !Zdigits2_log2 by lia.
  pose proof (Z.log2_le_mono a b Hab). lia.
Qed.

Lemma Zdigits2_succ (m : Z) :
  0 <= m -> Zdigits2 m <= Zdigits2 (m + 1) <= Zdigits2 m + 1.
Proof.
  intros Hm. destruct (Z.eq_dec m 0) as [->|Hne]; [simpl; lia|].
  rewrite !Zdigits2_log2 by lia.
  pose proof (Z.log2_le_mono m (m + 1)).
  pose proof (Z.log2_succ_le m). unfold Z.succ in *. lia.
Qed.

Lemma Zdigits2_div_pow2 (m n : Z) :
  0 <= m -> 0 <= n -> Zdigits2 (m / 2 ^ n) = Z.max 0 (Zdigits2 m - n).
Proof.
  intros Hm Hn. destruct (Z.eq_dec m 0) as [->|Hne].
  { rewrite Z.div_0_l by (apply Z.pow_nonzero; lia). simpl. lia. }
  assert (Hpos : 0 < m) by lia.
  pose proof (Z.log2_nonneg m) as Hl.
  destruct (Z_le_gt_dec n (Z.log2 m)) as [Hle|Hgt].
  - assert (Hq : 0 < m / 2 ^ n).
    { apply Z.div_str_pos. split; [apply Z.pow_pos_nonneg; lia|].
      transitivity (2 ^ Z.log2 m); [apply Z.pow_le_mono_r; lia|].
      apply (Z.log2_spec m Hpos). }
    rewrite (Zdigits2_log2 _ Hq), (Zdigits2_log2 _ Hpos).
    rewrite <- Z.shiftr_div_pow2 by lia.
    rewrite Z.log2_shiftr by lia. lia.
  - rewrite Z.div_small.
    + rewrite (Zdigits2_log2 _ Hpos). simpl. lia.
    + split; [lia|].
      apply Z.lt_le_trans with (2 ^ (Z.succ (Z.log2 m))).
      * apply (Z.log2_spec m Hpos).
      * apply Z.pow_le_mono_r; lia.
Qed.

Lemma Zdigits2_mul_pow2 (m n : Z) :
  0 < m -> 0 <= n -> Zdigits2 (m * 2 ^ n) = Zdigits2 m + n.
Proof.
  intros Hm Hn.
  assert (0 < m * 2 ^ n) by (apply Z.mul_pos_pos; [lia|apply Z.pow_pos_nonneg; lia]).
  rewrite !Zdigits2_log2 by lia. rewrite Z.log2_mul_pow2 by lia. lia.
Qed.

Lemma Zdigits2_mul (a b : Z) :
  0 < a -> 0 < b ->
  Zdigits2 a + Zdigits2 b - 1 <= Zdigits2 (a * b) <= Zdigits2 a + Zdigits2 b.
Proof.
  intros Ha Hb. assert (0 < a * b) by lia.
  rewrite !Zdigits2_log2 by lia.
  pose proof (Z.log2_mul_below a b Ha Hb).
  pose proof (Z.log2_mul_above a b). lia.
Qed.

Lemma Zdigits2_div (a b : Z) :
  0 < a -> 0 < b ->
  Zdigits2 a - Zdigits2 b <= Zdigits2 (a / b)
    <= Z.max 0 (Zdigits2 a - Zdigits2 b + 1).
Proof.
  intros Ha Hb.
  pose proof (Zdigits2_bounds a Ha) as [Ha1 Ha2].
  pose proof (Zdigits2_bounds b Hb) as [Hb1 Hb2].
  pose proof (Zdigits2_pos a Ha) as Hda.
  pose proof (Zdigits2_pos b Hb) as Hdb.
  pose proof (Zdigits2_nonneg (a / b)) as Hdq.
  set (da := Zdigits2 a) in *. set (db := Zdigits2 b) in *.
  assert (Hq0 : 0 <= a / b) by (apply Z.div_pos; lia).
  split.
  - destruct (Z_le_gt_dec (da - db) 0) as [Hle|Hgt]; [lia|].
    assert (Hlow : 2 ^ (da - db - 1) <= a / b).
    { apply Z.div_le_lower_bound; [lia|].
      apply Z.le_trans with (2 ^ db * 2 ^ (da - db - 1)).
      - apply Z.mul_le_mono_nonneg_r; [apply Z.pow_nonneg; lia|lia].
      - rewrite <- Z.pow_add_r by lia.
        replace (db + (da - db - 1)) with (da - 1) by lia. exact Ha1. }
    assert (Hqpos : 0 < a / b).
    { apply Z.lt_le_trans with (2 ^ (da - db - 1)); [apply Z.pow_pos_nonneg; lia|exact Hlow]. }
    rewrite (Zdigits2_log2 _ Hqpos).
    pose proof (proj1 (Z.log2_le_pow2 (a / b) (da - db - 1) Hqpos) Hlow). lia.
  - destruct (Z_le_gt_dec (da - db + 1) 0) as [Hle|Hgt].
    + rewrite Z.div_small; [simpl; lia|]. split; [lia|].
      apply Z.lt_le_trans with (2 ^ da); [exact Ha2|].
      apply Z.le_trans with (2 ^ (db - 1)); [apply Z.pow_le_mono_r; lia|exact Hb1].
    + assert (Hup : a / b < 2 ^ (da - db + 1)).
      { apply Z.div_lt_upper_bound; [lia|].
        apply Z.lt_le_trans with (2 ^ da); [exact Ha2|].
        apply Z.le_trans with (2 ^ (db - 1) * 2 ^ (da - db + 1)).
        - rewrite <- Z.pow_add_r by lia.
          replace (db - 1 + (da - db + 1)) with da by lia. lia.
        - apply Z.mul_le_mono_nonneg_r; [apply Z.pow_nonneg; lia|exact Hb1]. }
      destruct (Z.eq_dec (a / b) 0) as [->|Hne]; [simpl; lia|].
      assert (Hqpos : 0 < a / b) by lia.
      rewrite (Zdigits2_log2 _ Hqpos).
      pose proof (proj1 (Z.log2_lt_pow2 (a / b) (da - db + 1) Hqpos) Hup). lia.
Qed.

End Digits.

(** ** Binary64 arithmetic: shifting and rounding *)

Section Rounding.

Lemma shr_1_m (mrs : shr_record) :
  0 <= shr_m mrs -> shr_m (shr_1 mrs) = shr_m mrs / 2.
Proof.
  destruct mrs as [m r s]. cbn [shr_m].
  destruct m as [|[p|p|]|p]; intros H; try lia; cbn [shr_1 shr_m];
    rewrite <- Z.div2_div; reflexivity.
Qed.

Lemma iter_pos_shr_m (p : positive) :
  forall mrs, 0 <= shr_m mrs ->
  shr_m (iter_pos shr_1 p mrs) = shr_m mrs / 2 ^ Zpos p.
Proof.
  induction p as [p IH|p IH|]; intros mrs H; cbn [iter_pos].
  - assert (H1 : 0 <= shr_m (shr_1 mrs)).
    { rewrite shr_1_m by exact H. apply Z.div_pos; lia. }
    assert (H2 : 0 <= shr_m (iter_pos shr_1 p (shr_1 mrs))).
    { rewrite IH by exact H1. apply Z.div_pos; [exact H1|apply Z.pow_pos_nonneg; lia]. }
    rewrite (IH _ H2), (IH _ H1), (shr_1_m _ H).
    assert (0 < 2 ^ Zpos p) by (apply Z.pow_pos_nonneg; lia).
    rewrite !Z.div_div by lia. f_equal.
    replace (Zpos p~1) with (1 + Zpos p + Zpos p) by lia.
    rewrite !Z.pow_add_r by lia. lia.
  - assert (H2 : 0 <= shr_m (iter_pos shr_1 p mrs)).
    { rewrite IH by exact H. apply Z.div_pos; [exact H|apply Z.pow_pos_nonneg; lia]. }
    rewrite (IH _ H2), (IH _ H).
    assert (0 < 2 ^ Zpos p) by (apply Z.pow_pos_nonneg; lia).
    rewrite !Z.div_div by lia. f_equal.
    replace (Zpos p~0) with (Zpos p + Zpos p) by lia.
    rewrite !Z.pow_add_r by lia. lia.
  - rewrite (shr_1_m _ H). reflexivity.
Qed.

Lemma shr_record_of_loc_m (m : Z) (l : location) :
  shr_m (shr_record_of_loc m l) = m.
Proof. destruct l as [|[| |]]; reflexivity. Qed.

Lemma shr_fexp_spec (m e : Z) (l : location) :
  0 <= m ->
  shr_m (fst (shr_fexp prec emax m e l))
    = m / 2 ^ Z.max 0 (fexp prec emax (Zdigits2 m + e) - e)
  /\ snd (shr_fexp prec emax m e l)
    = e + Z.max 0 (fexp prec emax (Zdigits2 m + e) - e).
Proof.
  intros Hm. unfold shr_fexp, shr.
  destruct (fexp prec emax (Zdigits2 m + e) - e) as [|p|p] eqn:En; cbn [fst snd].
  - rewrite shr_record_of_loc_m. cbn. rewrite Z.div_1_r. lia.
  - rewrite iter_pos_shr_m by (rewrite shr_record_of_loc_m; exact Hm).
    rewrite shr_record_of_loc_m.
    replace (Z.max 0 (Zpos p)) with (Zpos p) by lia. split; reflexivity.
  - rewrite shr_record_of_loc_m.
    replace (Z.max 0 (Zneg p)) with 0 by lia.
    cbn. rewrite Z.div_1_r. lia.
Qed.

Lemma round_nearest_even_bounds (m : Z) (l : location) :
  m <= round_nearest_even m l <= m + 1.
Proof.
  destruct l as [|[| |]]; cbn [round_nearest_even]; try lia.
  destruct (Z.even m); lia.
Qed.

(** The shape of a rounded result, in terms of digit counts only. *)
Lemma binary_round_aux_digits (s : bool) (mx ex : Z) (lx : location) :
  0 <= mx ->
  exists m2 m3 e3 : Z,
    let n1 := Z.max 0 (fexp prec emax (Zdigits2 mx + ex) - ex) in
    let n2 := Z.max 0 (fexp prec emax (Zdigits2 m2 + (ex + n1)) - (ex + n1)) in
    Z.max 0 (Zdigits2 mx - n1) <= Zdigits2 m2 <= Z.max 0 (Zdigits2 mx - n1) + 1
    /\ 0 <= m3
    /\ Zdigits2 m3 = Z.max 0 (Zdigits2 m2 - n2)
    /\ e3 = ex + n1 + n2
    /\ binary_round_aux prec emax s mx ex lx =
       match m3 with
       | Z0 => S754_zero s
       | Zpos m => if e3 <=? emax - prec then S754_finite s m e3
                   else S754_infinity s
       | Zneg _ => S754_nan
       end.
Proof.
  intros Hmx.
  unfold binary_round_aux.
  destruct (shr_fexp_spec mx ex lx Hmx) as [Hm1 He1].
  destruct (shr_fexp prec emax mx ex lx) as [mrs1 e1]. cbn [fst snd] in Hm1, He1.
  set (n1 := Z.max 0 (fexp prec emax (Zdigits2 mx + ex) - ex)) in *.
  assert (Hn1 : 0 <= n1) by (unfold n1; lia).
  assert (H1 : 0 <= shr_m mrs1).
  { rewrite Hm1. apply Z.div_pos; [exact Hmx|apply Z.pow_pos_nonneg; lia]. }
  pose proof (round_nearest_even_bounds (shr_m mrs1) (loc_of_shr_record mrs1)) as Hr.
  set (m2 := round_nearest_even (shr_m mrs1) (loc_of_shr_record mrs1)) in *.
  assert (Hm2 : 0 <= m2) by lia.
  destruct (shr_fexp_spec m2 e1 loc_Exact Hm2) as [Hm3 He3].
  destruct (shr_fexp prec emax m2 e1 loc_Exact) as [mrs3 e3]. cbn [fst snd] in Hm3, He3.
  exists m2, (shr_m mrs3), e3. cbn zeta. fold n1.
  rewrite <- He1.
  set (n2 := Z.max 0 (fexp prec emax (Zdigits2 m2 + e1) - e1)) in *.
  assert (Hn2 : 0 <= n2) by (unfold n2; lia).
  assert (Hd1 : Zdigits2 (shr_m mrs1) = Z.max 0 (Zdigits2 mx - n1)).
  { rewrite Hm1. apply Zdigits2_div_pow2; lia. }
  repeat split.
  - rewrite <- Hd1.
    destruct (Z.eq_dec m2 (shr_m mrs1)) as [->|Hne]; [lia|].
    replace m2 with (shr_m mrs1 + 1) by lia.
    apply Zdigits2_succ; exact H1.
  - rewrite <- Hd1.
    destruct (Z.eq_dec m2 (shr_m mrs1)) as [->|Hne]; [lia|].
    replace m2 with (shr_m mrs1 + 1) by lia.
    apply Zdigits2_succ; exact H1.
  - rewrite Hm3. apply Z.div_pos; [exact Hm2|apply Z.pow_pos_nonneg; lia].
  - rewrite Hm3. apply Zdigits2_div_pow2; lia.
  - lia.
Qed.

End Rounding.

(** ** Binary64 arithmetic: when results are normal or at least finite *)

Section Binades.

Ltac unfold_fexp := unfold fexp, emin, prec, emax in *.

Lemma binary_round_aux_normal (s : bool) (mx ex : Z) (lx : location) :
  0 < mx ->
  ex <= Zdigits2 mx + ex - 53 ->
  -1021 <= Zdigits2 mx + ex ->
  Zdigits2 mx + ex + 1 <= 1024 ->
  normal_in (Zdigits2 mx + ex) (Zdigits2 mx + ex + 1)
            (binary_round_aux prec emax s mx ex lx).
Proof.
  intros Hmx Hex Hlo Hhi.
  destruct (binary_round_aux_digits s mx ex lx) as (m2 & m3 & e3 & H); [lia|].
  cbn zeta in H. destruct H as (Hd2 & Hm3 & Hd3 & He3 & ->).
  unfold_fexp.
  destruct m3 as [|m|m]; cbn [Zdigits2] in Hd3; [lia| |lia].
  replace (e3 <=? 1024 - 53) with true by (symmetry; apply Z.leb_le; lia).
  cbn [normal_in]. unfold prec. lia.
Qed.

Lemma binary_round_aux_finite (s : bool) (mx ex : Z) (lx : location) :
  0 <= mx ->
  ex <= fexp prec emax (Zdigits2 mx + ex) ->
  Zdigits2 mx + ex + 1 <= 1024 ->
  is_finite (binary_round_aux prec emax s mx ex lx) = true.
Proof.
  intros Hmx Hex Hhi.
  destruct (binary_round_aux_digits s mx ex lx) as (m2 & m3 & e3 & H); [lia|].
  cbn zeta in H. destruct H as (Hd2 & Hm3 & Hd3 & He3 & ->).
  pose proof (Zdigits2_nonneg mx) as Hdx.
  unfold_fexp.
  destruct m3 as [|m|m]; cbn [Zdigits2] in Hd3; [reflexivity| |lia].
  replace (e3 <=? 1024 - 53) with true by (symmetry; apply Z.leb_le; lia).
  reflexivity.
Qed.

Lemma SFdiv_core_binary_spec (a ex b ey : Z) :
  0 < a -> 0 < b ->
  forall q e' l, SFdiv_core_binary prec emax a ex b ey = (q, e', l) ->
  0 <= q
  /\ e' = Z.min (fexp prec emax (Zdigits2 a + ex - (Zdigits2 b + ey))) (ex - ey)
  /\ Zdigits2 a + ex - (Zdigits2 b + ey) - e' <= Zdigits2 q
       <= Z.max 0 (Zdigits2 a + ex - (Zdigits2 b + ey) - e' + 1).
Proof.
  intros Ha Hb q e' l. unfold SFdiv_core_binary.
  set (e0 := Z.min (fexp prec emax (Zdigits2 a + ex - (Zdigits2 b + ey))) (ex - ey)).
  set (s := ex - ey - e0).
  assert (Hs : 0 <= s) by (unfold s, e0; lia).
  set (m' := match s with Zpos _ => Z.shiftl a s | Z0 => a | Zneg _ => 0 end).
  assert (Hm' : m' = a * 2 ^ s).
  { unfold m'. destruct s as [|p|p]; [cbn; lia| |lia].
    apply Z.shiftl_mul_pow2; lia. }
  destruct (Z.div_eucl m' b) as [q0 r0] eqn:E.
  intros Heq. injection Heq as <- <- _.
  assert (Hq : q0 = m' / b) by (unfold Z.div; rewrite E; reflexivity).
  assert (Hpos : 0 < a * 2 ^ s)
    by (apply Z.mul_pos_pos; [lia|apply Z.pow_pos_nonneg; lia]).
  pose proof (Zdigits2_div (a * 2 ^ s) b Hpos Hb) as Hd.
  rewrite Zdigits2_mul_pow2 in Hd by lia.
  rewrite Hq, Hm'. split; [apply Z.div_pos; lia|]. split; [reflexivity|].
  unfold s in *. lia.
Qed.

Lemma SFdiv_normal (sx : bool) (mx : positive) (ex : Z)
                   (sy : bool) (my : positive) (ey : Z) :
  let D := Zpos (digits2_pos mx) + ex - (Zpos (digits2_pos my) + ey) in
  -1021 <= D -> D + 2 <= 1024 ->
  normal_in D (D + 2)
    (SFdiv prec emax (S754_finite sx mx ex) (S754_finite sy my ey)).
Proof.
  intros D Hlo Hhi. cbn [SFdiv].
  destruct (SFdiv_core_binary prec emax (Zpos mx) ex (Zpos my) ey)
    as [[q e'] l] eqn:E.
  destruct (SFdiv_core_binary_spec _ _ _ _ (eq_refl : 0 < Zpos mx)
              (eq_refl : 0 < Zpos my) _ _ _ E) as (Hq & He' & Hd).
  cbn [Zdigits2] in He', Hd. fold D in He', Hd.
  assert (He : e' <= D - 53) by (unfold_fexp; lia).
  assert (Hqpos : 0 < q).
  { destruct (Z.eq_dec q 0) as [->|]; [cbn [Zdigits2] in Hd; lia|lia]. }
  assert (HD : D <= Zdigits2 q + e' <= D + 1) by lia.
  pose proof (binary_round_aux_normal (xorb sx sy) q e' l Hqpos) as Hn.
  destruct (binary_round_aux prec emax (xorb sx sy) q e' l) as [| | |s m e];
    cbn [normal_in] in *; try (exfalso; apply Hn; lia).
  assert (Hn' := Hn ltac:(lia) ltac:(lia) ltac:(lia)). lia.
Qed.

Lemma SFdiv_finite (sx : bool) (mx : positive) (ex : Z)
                   (sy : bool) (my : positive) (ey : Z) :
  Zpos (digits2_pos mx) + ex - (Zpos (digits2_pos my) + ey) + 2 <= 1024 ->
  is_finite (SFdiv prec emax (S754_finite sx mx ex) (S754_finite sy my ey))
    = true.
Proof.
  intros Hhi. cbn [SFdiv].
  destruct (SFdiv_core_binary prec emax (Zpos mx) ex (Zpos my) ey)
    as [[q e'] l] eqn:E.
  destruct (SFdiv_core_binary_spec _ _ _ _ (eq_refl : 0 < Zpos mx)
              (eq_refl : 0 < Zpos my) _ _ _ E) as (Hq & He' & Hd).
  cbn [Zdigits2] in He', Hd.
  apply binary_round_aux_finite; [exact Hq| |].
  - destruct (Z.eq_dec q 0) as [->|Hne].
    + cbn [Zdigits2] in *. unfold_fexp. lia.
    + assert (0 < Zdigits2 q) by (apply Zdigits2_pos; lia).
      unfold_fexp. lia.
  - unfold_fexp. lia.
Qed.

Lemma SFmul_normal (lo1 hi1 lo2 hi2 : Z) (x y : float) :
  normal_in lo1 hi1 x -> normal_in lo2 hi2 y ->
  -1021 <= lo1 + lo2 - 1 -> hi1 + hi2 + 1 <= 1024 ->
  normal_in (lo1 + lo2 - 1) (hi1 + hi2 + 1) (float_mul x y).
Proof.
  destruct x as [| | |sx mx ex]; cbn [normal_in]; try tauto.
  destruct y as [| | |sy my ey]; cbn [normal_in]; try tauto.
  intros [Hdx Hex] [Hdy Hey] Hlo Hhi. unfold float_mul. cbn [SFmul].
  pose proof (Zdigits2_mul (Zpos mx) (Zpos my) eq_refl eq_refl) as Hd.
  cbn [Zdigits2] in Hd. rewrite Hdx, Hdy in Hd.
  unfold prec in Hd, Hex, Hey.
  change (Zpos mx * Zpos my) with (Zpos (mx * my)) in Hd.
  cbn [Zdigits2] in Hd.
  pose proof (binary_round_aux_normal (xorb sx sy) (Zpos (mx * my)) (ex + ey)
                loc_Exact eq_refl) as Hn.
  cbn [Zdigits2] in Hn.
  destruct (binary_round_aux prec emax (xorb sx sy) (Zpos (mx * my)) (ex + ey) loc_Exact)
    as [| | |s m e]; cbn [normal_in] in *; try (exfalso; apply Hn; lia).
  assert (Hn' := Hn ltac:(lia) ltac:(lia) ltac:(lia)). unfold prec in *. lia.
Qed.

End Binades.

(** ** The Python-level float operations on bounded operands *)

Section PyFloatOps.

(** The float literals are the doubles nearest to the decimals written. *)
Lemma literals_correctly_rounded :
  int_truediv 1 100 = Ok lit_0_01
  /\ int_truediv 14 10 = Ok lit_1_4
  /\ int_truediv 33 100 = Ok lit_0_33
  /\ int_truediv 66 100 = Ok lit_0_66.
Proof. repeat split. Qed.

Ltac unfold_fexp := unfold fexp, emin, prec, emax in *.

Lemma Zdigits2_lt_pow2 (z B : Z) :
  0 < z < 2 ^ B -> 1 <= Zdigits2 z <= B.
Proof.
  intros [Hz HB]. pose proof (Zdigits2_pos z Hz).
  rewrite Zdigits2_log2 in * by lia.
  pose proof (proj1 (Z.log2_lt_pow2 z B Hz) HB). lia.
Qed.

Lemma Pos_iter_xO (m d : positive) :
  Zpos (Pos.iter xO m d) = Zpos m * 2 ^ Zpos d.
Proof.
  induction d as [|d IH] using Pos.peano_ind.
  - cbn. lia.
  - rewrite Pos.iter_succ, Pos2Z.inj_succ, Z.pow_succ_r by lia.
    rewrite Pos2Z.inj_xO, IH. lia.
Qed.

Lemma shl_align_spec (mx : positive) (ex ex' : Z) :
  Zpos (fst (shl_align mx ex ex'))
    = Zpos mx * 2 ^ (ex - snd (shl_align mx ex ex'))
  /\ snd (shl_align mx ex ex') = Z.min ex ex'.
Proof.
  unfold shl_align. destruct (ex' - ex) as [|d|d] eqn:E; cbn [fst snd].
  - rewrite Z.sub_diag. cbn. lia.
  - rewrite Z.sub_diag. cbn. lia.
  - rewrite Pos_iter_xO. replace (ex - ex') with (Zpos d) by lia. lia.
Qed.

Lemma normal_in_weaken (lo hi lo' hi' : Z) (x : float) :
  normal_in lo hi x -> lo' <= lo -> hi <= hi' -> normal_in lo' hi' x.
Proof.
  destruct x; cbn [normal_in]; try tauto. intros [? ?] ? ?. lia.
Qed.

Lemma normal_in_finite (lo hi : Z) (x : float) :
  normal_in lo hi x -> is_finite x = true.
Proof. destruct x; cbn [normal_in is_finite]; tauto. Qed.

Lemma normal_in_nonzero (lo hi : Z) (x : float) :
  normal_in lo hi x -> is_zero x = false.
Proof. destruct x; cbn [normal_in is_zero]; tauto. Qed.

Lemma of_int_normal (z : Z) :
  0 < z -> Zdigits2 z + 1 <= 1024 ->
  exists f, of_int z = Ok f /\ normal_in (Zdigits2 z) (Zdigits2 z + 1) f.
Proof.
  intros Hz Hhi. destruct z as [|p|p]; try lia.
  unfold of_int. cbn [binary_normalize]. unfold binary_round.
  destruct (shl_align_spec p 0 (fexp prec emax (Zpos (digits2_pos p) + 0)))
    as [Hm He].
  destruct (shl_align p 0 (fexp prec emax (Zpos (digits2_pos p) + 0)))
    as [mz ez]. cbn [fst snd] in Hm, He.
  cbn [Zdigits2] in Hhi.
  assert (Hez : ez <= 0) by lia.
  assert (Hd : Zdigits2 (Zpos mz) + ez = Zpos (digits2_pos p)).
  { rewrite Hm, Zdigits2_mul_pow2 by lia. cbn [Zdigits2]. lia. }
  pose proof (binary_round_aux_normal false (Zpos mz) ez loc_Exact eq_refl) as Hn.
  rewrite Hd in Hn. cbn [Zdigits2].
  assert (Hn' : normal_in (Zpos (digits2_pos p)) (Zpos (digits2_pos p) + 1)
                  (binary_round_aux prec emax false (Zpos mz) ez loc_Exact)).
  { apply Hn; unfold_fexp; lia. }
  destruct (binary_round_aux prec emax false (Zpos mz) ez loc_Exact)
    as [| | |s m e]; cbn [normal_in] in Hn'; try tauto.
  eexists; split; [reflexivity|exact Hn'].
Qed.

Lemma int_truediv_normal (a b : Z) :
  0 < a -> 0 < b ->
  -1021 <= Zdigits2 a - Zdigits2 b ->
  Zdigits2 a - Zdigits2 b + 2 <= 1024 ->
  exists f, int_truediv a b = Ok f
         /\ normal_in (Zdigits2 a - Zdigits2 b) (Zdigits2 a - Zdigits2 b + 2) f.
Proof.
  intros Ha Hb Hlo Hhi.
  destruct a as [|p|p]; try lia. destruct b as [|q|q]; try lia.
  unfold int_truediv. cbn [Z.eqb of_Z_exact]. cbn [Zdigits2] in *.
  pose proof (SFdiv_normal false p 0 false q 0) as Hn. cbn zeta in Hn.
  replace (Zpos (digits2_pos p) + 0 - (Zpos (digits2_pos q) + 0))
    with (Zpos (digits2_pos p) - Zpos (digits2_pos q)) in Hn by lia.
  specialize (Hn Hlo Hhi).
  destruct (SFdiv prec emax (S754_finite false p 0) (S754_finite false q 0))
    as [| | |s m e]; cbn [normal_in] in Hn; try tauto.
  eexists; split; [reflexivity|exact Hn].
Qed.

Lemma int_truediv_ok (a b : Z) :
  b <> 0 -> Z.abs a < 2 ^ 1023 ->
  exists f, int_truediv a b = Ok f /\ is_finite f = true.
Proof.
  intros Hb Ha. unfold int_truediv.
  replace (b =? 0) with false by (symmetry; apply Z.eqb_neq; exact Hb).
  assert (Hfin : is_finite (SFdiv prec emax (of_Z_exact a) (of_Z_exact b)) = true).
  { destruct a as [|p|p]; destruct b as [|q|q]; try lia; cbn [of_Z_exact];
      try reflexivity; apply SFdiv_finite;
      (assert (Hp : 0 < Zpos p < 2 ^ 1023) by (cbn [Z.abs] in Ha; lia));
      pose proof (Zdigits2_lt_pow2 _ _ Hp) as Hdp; cbn [Zdigits2] in Hdp;
      pose proof (Zdigits2_pos (Zpos q) eq_refl) as Hdq; cbn [Zdigits2] in Hdq;
      lia. }
  destruct (SFdiv prec emax (of_Z_exact a) (of_Z_exact b)) as [| | |s m e];
    cbn [is_finite] in Hfin; try discriminate;
    eexists; split; reflexivity.
Qed.

Lemma float_div_normal (lo1 hi1 lo2 hi2 : Z) (x y : float) :
  normal_in lo1 hi1 x -> normal_in lo2 hi2 y ->
  -1021 <= lo1 - hi2 -> hi1 - lo2 + 2 <= 1024 ->
  exists f, float_div x y = Ok f /\ normal_in (lo1 - hi2) (hi1 - lo2 + 2) f.
Proof.
  destruct x as [| | |sx mx ex]; cbn [normal_in]; try tauto.
  destruct y as [| | |sy my ey]; cbn [normal_in]; try tauto.
  intros [Hdx Hex] [Hdy Hey] Hlo Hhi. unfold float_div. cbn [is_zero].
  eexists; split; [reflexivity|].
  pose proof (SFdiv_normal sx mx ex sy my ey) as Hn. cbn zeta in Hn.
  rewrite Hdx, Hdy in Hn.
  eapply normal_in_weaken; [apply Hn|..]; lia.
Qed.

Lemma py_int_finite (x : float) :
  is_finite x = true -> exists z, py_int x = Ok z.
Proof.
  destruct x; cbn [is_finite]; try discriminate; intros _;
    eexists; reflexivity.
Qed.

End PyFloatOps.

(** ** [calculate_new_dimensions] and [pixels_to_inches] *)

Section DimensionResolver.

Lemma in_range_digits (z : Z) : in_range z -> 1 <= Zdigits2 z <= 500.
Proof. intros H. apply Zdigits2_lt_pow2. exact H. Qed.

Lemma aspect_ratio_normal (a b : Z) :
  in_range a -> in_range b ->
  exists f, int_truediv a b = Ok f /\ normal_in (-499) 501 f.
Proof.
  intros Ha Hb.
  pose proof (in_range_digits a Ha). pose proof (in_range_digits b Hb).
  destruct (int_truediv_normal a b) as (f & Hf & Hn);
    try (unfold in_range in *; lia).
  exists f. split; [exact Hf|].
  eapply normal_in_weaken; [exact Hn|lia|lia].
Qed.

Lemma int_mul_float_total (n : Z) (a : float) :
  in_range n -> normal_in (-499) 501 a ->
  exists p w, int_mul_float n a = Ok p /\ py_int p = Ok w.
Proof.
  intros Hn Ha. pose proof (in_range_digits n Hn).
  destruct (of_int_normal n) as (x & Hx & Hnx); try (unfold in_range in *; lia).
  assert (Hnx' : normal_in 1 501 x)
    by (eapply normal_in_weaken; [exact Hnx|lia|lia]).
  pose proof (SFmul_normal _ _ _ _ x a Hnx' Ha ltac:(lia) ltac:(lia)) as Hp.
  destruct (py_int_finite _ (normal_in_finite _ _ _ Hp)) as (w & Hw).
  exists (float_mul x a), w. unfold int_mul_float. rewrite Hx. cbn [bind].
  split; [reflexivity|exact Hw].
Qed.

Lemma int_div_float_total (n : Z) (a : float) :
  in_range n -> normal_in (-499) 501 a ->
  exists q h, int_div_float n a = Ok q /\ py_int q = Ok h.
Proof.
  intros Hn Ha. pose proof (in_range_digits n Hn).
  destruct (of_int_normal n) as (x & Hx & Hnx); try (unfold in_range in *; lia).
  assert (Hnx' : normal_in 1 501 x)
    by (eapply normal_in_weaken; [exact Hnx|lia|lia]).
  destruct (float_div_normal _ _ _ _ x a Hnx' Ha ltac:(lia) ltac:(lia))
    as (q & Hq & Hnq).
  destruct (py_int_finite _ (normal_in_finite _ _ _ Hnq)) as (h & Hh).
  exists q, h. unfold int_div_float. rewrite Hx. cbn [bind].
  split; [exact Hq|exact Hh].
Qed.

Lemma truthy_in_range (z : Z) : in_range z -> truthy (Some z) = true.
Proof.
  intros [Hz _]. cbn [truthy].
  replace (z =? 0) with false by (symmetry; apply Z.eqb_neq; lia). reflexivity.
Qed.

Lemma pixel_size_in_range (z : Z) : pixel_size z -> in_range z.
Proof.
  intros [Hlo Hhi]. split; [exact Hlo|].
  apply Z.lt_trans with (m := 2 ^ 25); [exact Hhi|reflexivity].
Qed.

End DimensionResolver.

(** ** Accuracy of the float operations on pixel sizes *)

Section Enclosures.

(** The location computed by a division step is the position of the
    dividend among the multiples of the divisor. *)
Lemma new_location_located (b q r : Z) :
  0 < b -> 0 <= r < b -> located (q * b + r) b q (new_location b r).
Proof.
  intros Hb Hr. unfold new_location, new_location_even, new_location_odd.
  destruct (Z.even b) eqn:Eb.
  - destruct (Z.eqb_spec r 0) as [->|Hne]; cbn [located]; [lia|].
    destruct (Z.compare_spec (2 * r) b); cbn [located]; lia.
  - destruct (Z.eqb_spec r 0) as [->|Hne]; cbn [located]; [lia|].
    assert (Hodd : Z.odd b = true) by (rewrite <- Z.negb_even, Eb; reflexivity).
    apply Z.odd_spec in Hodd. destruct Hodd as [k Hk].
    destruct (Z.compare_spec (2 * r + 1) b); cbn [located]; lia.
Qed.

Lemma loc_of_shr_record_of_loc (m : Z) (l : location) :
  loc_of_shr_record (shr_record_of_loc m l) = l.
Proof. destruct l as [|[| |]]; reflexivity. Qed.

(** Shifting by one bit halves the significand and keeps the position. *)
Lemma shr_1_located (rec : shr_record) (N D : Z) :
  0 < D -> 0 <= shr_m rec ->
  located N D (shr_m rec) (loc_of_shr_record rec) ->
  located N (D * 2) (shr_m (shr_1 rec)) (loc_of_shr_record (shr_1 rec)).
Proof.
  destruct rec as [m r s]. cbn [shr_m]. intros HD Hm.
  destruct m as [|[p|p|]|p]; [| | | |lia];
    destruct r, s; cbn [shr_1 shr_m loc_of_shr_record located orb];
    try change (Z.pos p~1) with (2 * Z.pos p + 1);
    try change (Z.pos p~0) with (2 * Z.pos p);
    intros H; lia.
Qed.

Lemma iter_pos_located (p : positive) :
  forall rec N D, 0 < D -> 0 <= shr_m rec ->
  located N D (shr_m rec) (loc_of_shr_record rec) ->
  located N (D * 2 ^ Zpos p) (shr_m (iter_pos shr_1 p rec))
          (loc_of_shr_record (iter_pos shr_1 p rec)).
Proof.
  assert (Hnn : forall q rec, 0 <= shr_m rec -> 0 <= shr_m (iter_pos shr_1 q rec)).
  { intros q rec H. rewrite iter_pos_shr_m by exact H.
    apply Z.div_pos; [exact H|apply Z.pow_pos_nonneg; lia]. }
  assert (Hnn1 : forall rec, 0 <= shr_m rec -> 0 <= shr_m (shr_1 rec)).
  { intros rec H. rewrite shr_1_m by exact H. apply Z.div_pos; lia. }
  induction p as [p IH|p IH|]; intros rec N D HD Hm Hl; cbn [iter_pos].
  - assert (0 < 2 ^ Zpos p) by (apply Z.pow_pos_nonneg; lia).
    replace (D * 2 ^ Zpos p~1) with (D * 2 * 2 ^ Zpos p * 2 ^ Zpos p).
    2:{ replace (Zpos p~1) with (1 + Zpos p + Zpos p) by lia.
        rewrite !Z.pow_add_r by lia. lia. }
    apply IH; [nia|auto|]. apply IH; [lia|auto|].
    apply shr_1_located; assumption.
  - assert (0 < 2 ^ Zpos p) by (apply Z.pow_pos_nonneg; lia).
    replace (D * 2 ^ Zpos p~0) with (D * 2 ^ Zpos p * 2 ^ Zpos p).
    2:{ replace (Zpos p~0) with (Zpos p + Zpos p) by lia.
        rewrite !Z.pow_add_r by lia. lia. }
    apply IH; [nia|auto|]. apply IH; assumption.
  - replace (D * 2 ^ 1) with (D * 2) by lia.
    apply shr_1_located; assumption.
Qed.

Lemma shr_fexp_located (m e : Z) (l : location) (N D : Z) :
  0 < D -> 0 <= m -> located N D m l ->
  located N (D * 2 ^ Z.max 0 (fexp prec emax (Zdigits2 m + e) - e))
          (shr_m (fst (shr_fexp prec emax m e l)))
          (loc_of_shr_record (fst (shr_fexp prec emax m e l))).
Proof.
  intros HD Hm Hl. unfold shr_fexp, shr.
  destruct (fexp prec emax (Zdigits2 m + e) - e) as [|p|p] eqn:En; cbn [fst].
  - rewrite shr_record_of_loc_m, loc_of_shr_record_of_loc.
    cbn. rewrite Z.mul_1_r. exact Hl.
  - replace (Z.max 0 (Zpos p)) with (Zpos p) by lia.
    apply iter_pos_located; [exact HD| |];
      rewrite ?shr_record_of_loc_m, ?loc_of_shr_record_of_loc; assumption.
  - rewrite shr_record_of_loc_m, loc_of_shr_record_of_loc.
    replace (Z.max 0 (Zneg p)) with 0 by lia.
    cbn. rewrite Z.mul_1_r. exact Hl.
Qed.

(** Rounding to nearest moves by at most half a unit. *)
Lemma round_nearest_even_located (N D m : Z) (l : location) :
  0 < D -> located N D m l ->
  2 * Z.abs (N - round_nearest_even m l * D) <= D.
Proof.
  intros HD. destruct l as [|[| |]]; cbn [located round_nearest_even];
    try (destruct (Z.even m)); nia.
Qed.

Lemma fexp_normal (D : Z) : -1074 <= D - 53 -> fexp prec emax D = D - 53.
Proof. intros H. unfold fexp, emin, prec, emax. lia. Qed.

(** In the normal range [binary_round_aux] returns a 53-bit significand
    within half a unit in the last place of the located value. *)
Lemma binary_round_aux_enclosure (s : bool) (mx ex : Z) (lx : location)
    (N D : Z) :
  0 < D -> 0 < mx -> located N D mx lx ->
  ex <= Zdigits2 mx + ex - 53 ->
  -1021 <= Zdigits2 mx + ex ->
  Zdigits2 mx + ex + 1 <= 1024 ->
  exists m e,
    binary_round_aux prec emax s mx ex lx = S754_finite s m e
    /\ Zpos (digits2_pos m) = 53
    /\ ex <= e
    /\ Zdigits2 mx + ex <= 53 + e <= Zdigits2 mx + ex + 1
    /\ 2 * Z.abs (N - Zpos m * 2 ^ (e - ex) * D) <= 2 ^ (e - ex) * D.
Proof.
  intros HD Hmx Hloc Hex Hlo Hhi.
  unfold binary_round_aux.
  destruct (shr_fexp_spec mx ex lx ltac:(lia)) as [Hm1 He1].
  pose proof (shr_fexp_located mx ex lx N D HD ltac:(lia) Hloc) as Hl1.
  destruct (shr_fexp prec emax mx ex lx) as [mrs1 e1].
  cbn [fst snd] in Hm1, He1, Hl1.
  rewrite fexp_normal in Hm1, He1, Hl1 by lia.
  replace (Z.max 0 (Zdigits2 mx + ex - 53 - ex)) with (Zdigits2 mx - 53)
    in Hm1, He1, Hl1 by lia.
  set (n1 := Zdigits2 mx - 53) in *.
  assert (Hn1' : 0 <= n1) by (unfold n1; lia).
  assert (Hp1 : 0 < 2 ^ n1) by (apply Z.pow_pos_nonneg; lia).
  assert (H1 : 0 <= shr_m mrs1).
  { rewrite Hm1. apply Z.div_pos; lia. }
  assert (Hd1 : Zdigits2 (shr_m mrs1) = 53).
  { rewrite Hm1, Zdigits2_div_pow2 by lia. unfold n1. lia. }
  assert (H1pos : 0 < shr_m mrs1).
  { destruct (Z.eq_dec (shr_m mrs1) 0) as [E|]; [rewrite E in Hd1; discriminate|lia]. }
  pose proof (Zdigits2_bounds _ H1pos) as Hb1. rewrite Hd1 in Hb1.
  pose proof (round_nearest_even_bounds (shr_m mrs1) (loc_of_shr_record mrs1)) as Hr.
  assert (HD1 : 0 < D * 2 ^ n1) by (apply Z.mul_pos_pos; assumption).
  pose proof (round_nearest_even_located _ _ _ _ HD1 Hl1) as Henc.
  set (m2 := round_nearest_even (shr_m mrs1) (loc_of_shr_record mrs1)) in *.
  assert (Hm2 : 0 < m2) by lia.
  destruct (shr_fexp_spec m2 e1 loc_Exact ltac:(lia)) as [Hm3 He3].
  destruct (shr_fexp prec emax m2 e1 loc_Exact) as [mrs3 e3].
  cbn [fst snd] in Hm3, He3.
  assert (He1' : Zdigits2 mx + ex = 53 + e1) by (unfold n1 in He1; lia).
  assert (Hd2 : Zdigits2 m2 = 53 \/ (Zdigits2 m2 = 54 /\ m2 = 2 ^ 53)).
  { pose proof (Zdigits2_le_mono (shr_m mrs1) m2 H1pos ltac:(lia)) as Hle.
    rewrite Hd1 in Hle.
    destruct (Z_lt_ge_dec m2 (2 ^ 53)) as [Hlt|Hge].
    - left. pose proof (Zdigits2_lt_pow2 m2 53 ltac:(lia)). lia.
    - right. assert (E : m2 = 2 ^ 53) by lia. split; [|exact E].
      rewrite E. reflexivity. }
  destruct Hd2 as [Hd2|[Hd2 E2]].
  - rewrite Hd2, fexp_normal in Hm3, He3 by lia.
    replace (Z.max 0 (53 + e1 - 53 - e1)) with 0 in Hm3, He3 by lia.
    rewrite Z.pow_0_r, Z.div_1_r in Hm3.
    rewrite Hm3. destruct m2 as [|m|m]; try lia.
    replace (e3 <=? emax - prec) with true
      by (symmetry; apply Z.leb_le; unfold emax, prec; lia).
    exists m, e3. cbn [Zdigits2] in Hd2.
    split; [reflexivity|]. split; [exact Hd2|]. split; [lia|]. split; [lia|].
    replace (e3 - ex) with n1 by lia.
    replace (Zpos m * 2 ^ n1 * D) with (Zpos m * (D * 2 ^ n1)) by ring.
    replace (2 ^ n1 * D) with (D * 2 ^ n1) by ring. exact Henc.
  - rewrite Hd2, fexp_normal in Hm3, He3 by lia.
    replace (Z.max 0 (54 + e1 - 53 - e1)) with 1 in Hm3, He3 by lia.
    rewrite E2 in Hm3.
    change (2 ^ 53 / 2 ^ 1) with (Zpos (2 ^ 52)) in Hm3.
    rewrite Hm3.
    replace (e3 <=? emax - prec) with true
      by (symmetry; apply Z.leb_le; unfold emax, prec; lia).
    exists (2 ^ 52)%positive, e3.
    split; [reflexivity|]. split; [reflexivity|]. split; [lia|]. split; [lia|].
    replace (e3 - ex) with (n1 + 1) by lia.
    rewrite Z.pow_add_r by lia.
    change (Zpos (2 ^ 52)) with (2 ^ 52). change (2 ^ 1) with 2.
    replace (2 ^ 52 * (2 ^ n1 * 2) * D) with (m2 * (D * 2 ^ n1))
      by (rewrite E2; change (2 ^ 53) with (2 ^ 52 * 2); ring).
    clear - Henc HD1. lia.
Qed.

Lemma SFdiv_core_binary_located (a ex b ey : Z) :
  0 < a -> 0 < b ->
  Zdigits2 a - Zdigits2 b <= 53 ->
  -1074 <= Zdigits2 a + ex - (Zdigits2 b + ey) - 53 ->
  forall q e' l, SFdiv_core_binary prec emax a ex b ey = (q, e', l) ->
  let s := 53 + Zdigits2 b - Zdigits2 a in
  e' = ex - ey - s
  /\ located (a * 2 ^ s) b q l
  /\ 0 < q.
Proof.
  intros Ha Hb Hd Hlo q e' l Hcore s.
  destruct (SFdiv_core_binary_spec a ex b ey Ha Hb q e' l Hcore)
    as (Hq & He' & Hdq).
  rewrite fexp_normal in He' by lia.
  assert (He : e' = ex - ey - s) by (unfold s; lia).
  assert (Hdq' : 53 <= Zdigits2 q <= 54)
    by (unfold s in He; clear - Hdq He; lia).
  assert (Hqpos : 0 < q).
  { destruct q; [cbn [Zdigits2] in Hdq'; lia|lia|lia]. }
  split; [exact He|]. split; [|exact Hqpos].
  clear Hdq Hdq' He He' Hq Hqpos.
  revert Hcore. unfold SFdiv_core_binary.
  rewrite fexp_normal by lia.
  replace (Z.min (Zdigits2 a + ex - (Zdigits2 b + ey) - 53) (ex - ey))
    with (ex - ey - s) by (unfold s; lia).
  replace (ex - ey - (ex - ey - s)) with s by lia.
  assert (Hs : 0 <= s) by (unfold s; lia).
  assert (Hm' : match s with
                | 0 => a
                | Zpos _ => Z.shiftl a s
                | Zneg _ => 0
                end = a * 2 ^ s).
  { destruct s as [|p|p]; [cbn; lia| |lia]. apply Z.shiftl_mul_pow2; lia. }
  rewrite Hm'.
  pose proof (Z_div_mod (a * 2 ^ s) b ltac:(lia)) as Hdm.
  destruct (Z.div_eucl (a * 2 ^ s) b) as [q0 r0].
  intros Heq. injection Heq as <- _ <-.
  destruct Hdm as [Hdm Hr]. rewrite Hdm.
  replace (b * q0 + r0) with (q0 * b + r0) by ring.
  apply new_location_located; lia.
Qed.

(** A quotient of two doubles is within half a unit in the last place of the
    exact quotient of their significands. *)
Lemma SFdiv_enclosure (sx : bool) (mx : positive) (ex : Z)
                      (sy : bool) (my : positive) (ey : Z) :
  let dd := Zpos (digits2_pos mx) - Zpos (digits2_pos my) in
  dd <= 53 -> -1021 <= dd + ex - ey -> dd + ex - ey + 2 <= 1024 ->
  exists m e n,
    SFdiv prec emax (S754_finite sx mx ex) (S754_finite sy my ey)
      = S754_finite (xorb sx sy) m e
    /\ Zpos (digits2_pos m) = 53
    /\ e = ex - ey - (53 - dd) + n
    /\ 0 <= n <= 2
    /\ 2 * Z.abs (Zpos mx * 2 ^ (53 - dd) - Zpos m * 2 ^ n * Zpos my)
       <= 2 ^ n * Zpos my.
Proof.
  intros dd Hdd Hlo Hhi. cbn [SFdiv].
  destruct (SFdiv_core_binary prec emax (Zpos mx) ex (Zpos my) ey)
    as [[q e'] l] eqn:E.
  destruct (SFdiv_core_binary_located (Zpos mx) ex (Zpos my) ey eq_refl eq_refl)
    with (1 := ltac:(cbn [Zdigits2]; fold dd; lia) : Zdigits2 (Zpos mx) - Zdigits2 (Zpos my) <= 53)
         (3 := E) as (He' & Hloc & Hqpos).
  { cbn [Zdigits2]. unfold dd in *. lia. }
  cbn [Zdigits2] in He', Hloc.
  replace (53 + Zpos (digits2_pos my) - Zpos (digits2_pos mx)) with (53 - dd)
    in He', Hloc by (unfold dd; lia).
  destruct (SFdiv_core_binary_spec _ _ _ _ (eq_refl : 0 < Zpos mx)
              (eq_refl : 0 < Zpos my) _ _ _ E) as (_ & _ & Hdq).
  cbn [Zdigits2] in Hdq.
  destruct (binary_round_aux_enclosure (xorb sx sy) q e' l
              (Zpos mx * 2 ^ (53 - dd)) (Zpos my) eq_refl Hqpos Hloc)
    as (m & e & Hres & Hdm & Hee & Hmag & Henc); try lia.
  exists m, e, (e - e'). rewrite Hres.
  split; [reflexivity|]. split; [exact Hdm|]. split; [lia|]. split; [lia|].
  exact Henc.
Qed.

Lemma binary_round_aux_canonical (s : bool) (m : positive) (e : Z) :
  Zpos (digits2_pos m) = 53 -> -1074 <= e <= 971 ->
  binary_round_aux prec emax s (Zpos m) e loc_Exact = S754_finite s m e.
Proof.
  intros Hd He.
  assert (Hshr : forall l, shr_fexp prec emax (Zpos m) e l
                           = (shr_record_of_loc (Zpos m) l, e)).
  { intros l. unfold shr_fexp. cbn [Zdigits2]. rewrite Hd, fexp_normal by lia.
    replace (53 + e - 53 - e) with 0 by lia. reflexivity. }
  unfold binary_round_aux. rewrite Hshr. cbn [shr_record_of_loc shr_m
    loc_of_shr_record round_nearest_even].
  rewrite Hshr. cbn [shr_record_of_loc shr_m].
  replace (e <=? emax - prec) with true
    by (symmetry; apply Z.leb_le; unfold emax, prec; lia).
  reflexivity.
Qed.

(** An int of at most 53 bits converts exactly. *)
Lemma of_int_exact (z : Z) :
  0 < z -> Zdigits2 z <= 53 ->
  exists m,
    of_int z = Ok (S754_finite false m (Zdigits2 z - 53))
    /\ Zpos (digits2_pos m) = 53
    /\ Zpos m = z * 2 ^ (53 - Zdigits2 z).
Proof.
  intros Hz Hd. destruct z as [|p|p]; try lia. cbn [Zdigits2] in *.
  unfold of_int. cbn [binary_normalize]. unfold binary_round.
  destruct (shl_align_spec p 0 (fexp prec emax (Zpos (digits2_pos p) + 0)))
    as [Hm He].
  destruct (shl_align p 0 (fexp prec emax (Zpos (digits2_pos p) + 0)))
    as [mz ez]. cbn [fst snd] in Hm, He.
  rewrite fexp_normal in He by lia.
  assert (Hez : ez = Zpos (digits2_pos p) - 53) by lia.
  assert (Hdz : Zpos (digits2_pos mz) = 53).
  { change (Zpos (digits2_pos mz)) with (Zdigits2 (Zpos mz)).
    rewrite Hm, Zdigits2_mul_pow2 by lia. cbn [Zdigits2]. lia. }
  rewrite binary_round_aux_canonical by lia.
  exists mz. rewrite Hez. split; [reflexivity|]. split; [exact Hdz|].
  rewrite Hm. replace (0 - ez) with (53 - Zpos (digits2_pos p)) by lia.
  reflexivity.
Qed.

Lemma abs_combination (x y u v bu bv : Z) :
  0 <= x -> 0 <= y -> 2 * Z.abs u <= bu -> 2 * Z.abs v <= bv ->
  2 * Z.abs (x * u + y * v) <= x * bu + y * bv.
Proof.
  intros Hx Hy Hu Hv.
  pose proof (Z.abs_triangle (x * u) (y * v)) as Ht.
  rewrite !Z.abs_mul, (Z.abs_eq x), (Z.abs_eq y) in Ht by assumption.
  assert (Hxu : x * (2 * Z.abs u) <= x * bu)
    by (apply Z.mul_le_mono_nonneg_l; assumption).
  assert (Hyv : y * (2 * Z.abs v) <= y * bv)
    by (apply Z.mul_le_mono_nonneg_l; assumption).
  clear - Ht Hxu Hyv.
  set (a := Z.abs (x * u + y * v)) in *.
  set (b := Z.abs u) in *. set (c := Z.abs v) in *.
  clearbody a b c. lia.
Qed.

(** Truncating an approximation [Q / V] of [N / d] that is closer than
    [1 / d] gives the floor of [N / d], or one less when [d] divides [N]. *)
Lemma float_trunc_from_error (N d Q V : Z) :
  0 < d -> 0 < V -> 0 <= N ->
  Z.abs (N * V - Q * d) < V ->
  Q / V = N / d \/ (N mod d = 0 /\ Q / V = N / d - 1).
Proof.
  intros Hd HV HN Herr.
  pose proof (Z.div_mod N d ltac:(lia)) as Hdm.
  pose proof (Z.mod_pos_bound N d Hd) as Hr.
  set (k := N / d) in *. set (r := N mod d) in *.
  assert (Hup : Q < V * (k + 1)).
  { apply Z.mul_lt_mono_pos_l with (p := d); [exact Hd|].
    assert (d * (V * (k + 1)) = (d * k + d) * V) by ring.
    assert ((d * k + r + 1) * V <= (d * k + d) * V)
      by (apply Z.mul_le_mono_nonneg_r; lia).
    assert ((d * k + r + 1) * V = N * V + V) by (rewrite Hdm; ring).
    lia. }
  assert (Hlt : Q / V < k + 1) by (apply Z.div_lt_upper_bound; lia).
  destruct (Z.eq_dec r 0) as [Hr0|Hr0].
  - assert (Hlow : V * (k - 1) < Q).
    { apply Z.mul_lt_mono_pos_l with (p := d); [exact Hd|].
      assert (d * (V * (k - 1)) = (d * k - d) * V) by ring.
      assert ((d * k - d) * V <= (d * k - 1) * V)
        by (apply Z.mul_le_mono_nonneg_r; lia).
      assert ((d * k - 1) * V = N * V - V) by (rewrite Hdm, Hr0; ring).
      lia. }
    assert (k - 1 <= Q / V) by (apply Z.div_le_lower_bound; lia).
    destruct (Z.eq_dec (Q / V) k); [left; assumption|right; split; lia].
  - left.
    assert (Hlow : V * k < Q).
    { apply Z.mul_lt_mono_pos_l with (p := d); [exact Hd|].
      assert (d * (V * k) = (d * k) * V) by ring.
      assert ((d * k) * V <= (d * k + r - 1) * V)
        by (apply Z.mul_le_mono_nonneg_r; lia).
      assert ((d * k + r - 1) * V = N * V - V) by (rewrite Hdm; ring).
      lia. }
    assert (k <= Q / V) by (apply Z.div_le_lower_bound; lia).
    lia.
Qed.

(** If [a] approximates [ow / oh] and [q] approximates [tw / a], both to half
    a unit in the last of 53 bits, then [q] is within 1/ow of [tw * oh / ow]. *)
Lemma double_division_error (ow oh tw U V A Q c1 c2 : Z) :
  0 < ow -> 0 < oh -> 0 < tw -> 0 < U -> 0 < V ->
  1 <= c1 -> 1 <= c2 ->
  2 ^ 52 * c1 <= A -> 2 ^ 52 * c2 <= Q ->
  2 * Z.abs (ow * U - A * oh) <= c1 * oh ->
  2 * Z.abs (tw * V * U - Q * A) <= c2 * A ->
  tw * oh <= 2 ^ 52 - 2 ->
  Z.abs (tw * oh * V - Q * ow) < V.
Proof.
  intros How Hoh Htw HU HV Hc1 Hc2 HA HQ He1 He2 Hsz.
  set (M := 2 ^ 53 - 1) in *.
  set (e1 := ow * U - A * oh) in *.
  set (e2 := tw * V * U - Q * A) in *.
  set (err := tw * oh * V - Q * ow) in *.
  assert (HM : M = 2 * 2 ^ 52 - 1) by reflexivity.
  assert (Hsz' : 2 * (tw * oh) <= M - 3) by (rewrite HM; lia).
  clearbody M.
  assert (Hid : U * err = oh * e2 - Q * e1) by (unfold err, e1, e2; ring).
  assert (Ha : c2 * A * M <= 2 * (tw * V * U)).
  { assert (2 * (tw * V * U) = 2 * e2 + 2 * (Q * A)) by (unfold e2; ring).
    assert (2 ^ 52 * c2 * A <= Q * A) by (apply Z.mul_le_mono_nonneg_r; lia).
    assert (0 <= c2 * A) by nia.
    rewrite HM. lia. }
  assert (Hb : c1 * oh * M <= 2 * (ow * U)).
  { assert (2 * (ow * U) = 2 * e1 + 2 * (A * oh)) by (unfold e1; ring).
    assert (2 ^ 52 * c1 * oh <= A * oh) by (apply Z.mul_le_mono_nonneg_r; lia).
    assert (0 <= c1 * oh) by nia.
    rewrite HM. lia. }
  assert (HQ0 : 0 < Q) by lia.
  assert (HA0 : 0 < A) by lia.
  assert (H2 : 2 * M * (U * Z.abs err) <= 2 * U * (tw * oh * V + Q * ow)).
  { assert (Habs : 2 * (U * Z.abs err) <= oh * (c2 * A) + Q * (c1 * oh)).
    { assert (Hz : U * Z.abs err = Z.abs (U * err)).
      { rewrite Z.abs_mul. rewrite (Z.abs_eq U) by lia. reflexivity. }
      rewrite Hz, Hid.
      replace (oh * e2 - Q * e1) with (oh * e2 + Q * (- e1)) by ring.
      apply abs_combination; [lia|lia|exact He2|].
      rewrite Z.abs_opp. exact He1. }
    assert (Hx : oh * (c2 * A * M) <= oh * (2 * (tw * V * U)))
      by (apply Z.mul_le_mono_nonneg_l; lia).
    assert (Hy : Q * (c1 * oh * M) <= Q * (2 * (ow * U)))
      by (apply Z.mul_le_mono_nonneg_l; lia).
    assert (0 <= M) by lia.
    assert (Hm : M * (2 * (U * Z.abs err))
                 <= M * (oh * (c2 * A) + Q * (c1 * oh)))
      by (apply Z.mul_le_mono_nonneg_l; lia).
    clear - Hm Hx Hy. set (z := Z.abs err) in *. clearbody z. lia. }
  assert (H3 : M * Z.abs err <= tw * oh * V + Q * ow).
  { apply Z.mul_le_mono_pos_l with (p := 2 * U); [lia|]. 
    replace (2 * U * (M * Z.abs err)) with (2 * M * (U * Z.abs err)) by ring.
    exact H2. }
  assert (H4 : (M - 1) * Z.abs err <= 2 * (tw * oh) * V).
  { assert (Hq : Q * ow <= tw * oh * V + Z.abs err) by (unfold err; lia).
    clear - H3 Hq. set (z := Z.abs err) in *. clearbody z. lia. }
  destruct (Z_lt_ge_dec (Z.abs err) V) as [Hlt|Hge]; [exact Hlt|exfalso].
  assert (Hl : (M - 1) * V <= (M - 1) * Z.abs err)
    by (apply Z.mul_le_mono_nonneg_l; lia).
  assert (Hu : 2 * (tw * oh) * V <= (M - 3) * V)
    by (apply Z.mul_le_mono_nonneg_r; lia).
  clear - H4 Hl Hu HV. set (z := Z.abs err) in *. clearbody z. lia.
Qed.

Lemma small_digits (z : Z) : 0 < z < 2 ^ 25 -> 1 <= Zdigits2 z <= 25.
Proof. apply Zdigits2_lt_pow2. Qed.

Lemma digits53_lower (m : positive) :
  Zpos (digits2_pos m) = 53 -> 2 ^ 52 <= Zpos m.
Proof.
  intros H. pose proof (Zdigits2_bounds (Zpos m) eq_refl) as Hb.
  cbn [Zdigits2] in Hb. rewrite H in Hb. exact (proj1 Hb).
Qed.

(** [a / b] on small ints is within half a unit in the last place. *)
Lemma int_truediv_enclosure (a b : Z) :
  0 < a < 2 ^ 25 -> 0 < b < 2 ^ 25 ->
  exists m n,
    int_truediv a b
      = Ok (S754_finite false m (n - (53 - (Zdigits2 a - Zdigits2 b))))
    /\ Zpos (digits2_pos m) = 53
    /\ 0 <= n <= 2
    /\ 2 * Z.abs (a * 2 ^ (53 - (Zdigits2 a - Zdigits2 b)) - Zpos m * 2 ^ n * b)
       <= 2 ^ n * b.
Proof.
  intros Ha Hb.
  pose proof (small_digits a Ha) as Hda. pose proof (small_digits b Hb) as Hdb.
  destruct a as [|p|p]; try lia. destruct b as [|q|q]; try lia.
  cbn [Zdigits2] in *.
  unfold int_truediv. cbn [Z.eqb of_Z_exact].
  destruct (SFdiv_enclosure false p 0 false q 0) as (m & e & n & Hres & Hdm & He & Hn & Henc);
    try (cbn zeta; lia).
  rewrite Hres. exists m, n.
  split; [f_equal; f_equal; lia|]. split; [exact Hdm|]. split; [exact Hn|].
  exact Henc.
Qed.

(** [int(tw / (ow / oh))] *)
Lemma width_only_height (ow oh tw : Z) :
  0 < ow < 2 ^ 25 -> 0 < oh < 2 ^ 25 -> 0 < tw < 2 ^ 25 ->
  exists a q h,
    int_truediv ow oh = Ok a /\ int_div_float tw a = Ok q /\ py_int q = Ok h
    /\ (h = tw * oh / ow
        \/ ((tw * oh) mod ow = 0 /\ h = tw * oh / ow - 1)).
Proof.
  intros How Hoh Htw.
  pose proof (small_digits ow How) as Hdow.
  pose proof (small_digits oh Hoh) as Hdoh.
  pose proof (small_digits tw Htw) as Hdtw.
  destruct (int_truediv_enclosure ow oh How Hoh)
    as (ma & n1 & Ha & Hdma & Hn1 & Henc1).
  set (S1 := 53 - (Zdigits2 ow - Zdigits2 oh)) in *.
  destruct (of_int_exact tw ltac:(lia) ltac:(lia)) as (mt & Ht & Hdmt & Hmt).
  set (T := 53 - Zdigits2 tw) in *.
  destruct (SFdiv_enclosure false mt (Zdigits2 tw - 53) false ma (n1 - S1))
    as (mq & eq & n2 & Hq & Hdmq & Heq & Hn2 & Henc2);
    try (cbn zeta; rewrite Hdmt, Hdma; unfold S1; lia).
  cbn zeta in Heq, Henc2. rewrite Hdmt, Hdma in Heq, Henc2.
  replace (53 - (53 - 53)) with 53 in Heq, Henc2 by lia.
  set (W := T + 53 - S1 + n1).
  assert (HW : eq = n2 - W) by (unfold W, T; lia).
  assert (HWpos : 0 < W - n2) by (unfold W, T, S1; lia).
  exists (S754_finite false ma (n1 - S1)), (S754_finite false mq eq),
         (Zpos mq / 2 ^ (W - n2)).
  split; [exact Ha|]. split.
  { unfold int_div_float. rewrite Ht. cbn [bind]. unfold float_div.
    cbn [is_zero]. rewrite Hq. reflexivity. }
  split.
  { cbn [py_int]. destruct eq as [|k|k]; try lia.
    rewrite Z.shiftr_div_pow2 by lia.
    replace (Zpos k) with (W - n2) by lia. reflexivity. }
  assert (Hc1 : 1 <= 2 ^ n1 <= 4).
  { destruct (Z.eq_dec n1 0) as [->|]; [cbn; lia|].
    destruct (Z.eq_dec n1 1) as [->|]; [cbn; lia|].
    replace n1 with 2 by lia. cbn; lia. }
  assert (Hc2 : 1 <= 2 ^ n2 <= 4).
  { destruct (Z.eq_dec n2 0) as [->|]; [cbn; lia|].
    destruct (Z.eq_dec n2 1) as [->|]; [cbn; lia|].
    replace n2 with 2 by lia. cbn; lia. }
  assert (HS1 : 0 <= S1) by (unfold S1; lia).
  assert (HT : 0 <= T) by (unfold T; lia).
  assert (HU : 0 < 2 ^ S1) by (apply Z.pow_pos_nonneg; lia).
  assert (HV : 0 < 2 ^ W) by (apply Z.pow_pos_nonneg; lia).
  pose proof (digits53_lower ma Hdma) as Hma.
  pose proof (digits53_lower mq Hdmq) as Hmq.
  assert (Hsz : tw * oh <= 2 ^ 52 - 2).
  { assert (tw * oh <= 2 ^ 25 * 2 ^ 25) by (apply Z.mul_le_mono_nonneg; lia).
    change (2 ^ 25 * 2 ^ 25) with (2 ^ 50) in *.
    assert (2 ^ 50 <= 2 ^ 52 - 2) by (cbn; lia). lia. }
  assert (HVU : 2 ^ W * 2 ^ S1 = 2 ^ T * 2 ^ 53 * 2 ^ n1).
  { rewrite <- !Z.pow_add_r by lia. f_equal. unfold W. lia. }
  assert (Herr : Z.abs (tw * oh * 2 ^ W - Zpos mq * 2 ^ n2 * ow) < 2 ^ W).
  { apply (double_division_error ow oh tw (2 ^ S1) (2 ^ W)
             (Zpos ma * 2 ^ n1) (Zpos mq * 2 ^ n2) (2 ^ n1) (2 ^ n2));
      try lia.
    - apply Z.mul_le_mono_nonneg_r; lia.
    - apply Z.mul_le_mono_nonneg_r; lia.
    - replace (tw * 2 ^ W * 2 ^ S1) with (Zpos mt * 2 ^ 53 * 2 ^ n1)
        by (rewrite Hmt; fold T;
            replace (tw * 2 ^ W * 2 ^ S1) with (tw * (2 ^ W * 2 ^ S1)) by ring;
            rewrite HVU; ring).
      replace (Zpos mt * 2 ^ 53 * 2 ^ n1 - Zpos mq * 2 ^ n2 * (Zpos ma * 2 ^ n1))
        with ((Zpos mt * 2 ^ 53 - Zpos mq * 2 ^ n2 * Zpos ma) * 2 ^ n1) by ring.
      rewrite Z.abs_mul, (Z.abs_eq (2 ^ n1)) by lia.
      replace (2 ^ n2 * (Zpos ma * 2 ^ n1)) with (2 ^ n2 * Zpos ma * 2 ^ n1) by ring.
      rewrite Z.mul_assoc. apply Z.mul_le_mono_nonneg_r; [lia|exact Henc2]. }
  assert (Hdiv : Zpos mq / 2 ^ (W - n2) = Zpos mq * 2 ^ n2 / 2 ^ W).
  { replace (2 ^ W) with (2 ^ (W - n2) * 2 ^ n2)
      by (rewrite <- Z.pow_add_r by lia; f_equal; lia).
    rewrite Z.div_mul_cancel_r; [reflexivity| |lia].
    apply Z.pow_nonzero; lia. }
  rewrite Hdiv.
  apply float_trunc_from_error; try lia.
Qed.

(** If [a] approximates [ow / oh] and [p] approximates [th * a], both to half
    a unit in the last of 53 bits, then [p] is within 1/oh of
    [th * ow / oh]. *)
Lemma division_product_error (ow oh th U V A mp c1 G P : Z) :
  0 < ow -> 0 < oh -> 0 < th -> 0 < U -> 0 < V -> 0 < P ->
  1 <= c1 -> 0 < G -> V * G = P * U ->
  2 ^ 52 * c1 <= A -> 2 ^ 52 <= mp ->
  2 * Z.abs (ow * U - A * oh) <= c1 * oh ->
  2 * Z.abs (th * P * A - mp * G) <= G ->
  th * ow <= 2 ^ 50 ->
  Z.abs (th * ow * V - mp * oh) < V.
Proof.
  intros How Hoh Hth HU HV HP Hc1 HG HVG HA Hmp He1 He3 Hsz.
  set (M := 2 ^ 53 - 1) in *.
  set (e1 := ow * U - A * oh) in *.
  set (e3 := th * P * A - mp * G) in *.
  set (err := th * ow * V - mp * oh) in *.
  assert (HM : M = 2 * 2 ^ 52 - 1) by reflexivity.
  assert (Hsz' : 3 * (th * ow) < M) by (rewrite HM; lia).
  clearbody M.
  assert (Hid : G * err = th * P * e1 + oh * e3).
  { unfold err, e1, e3.
    replace (G * (th * ow * V - mp * oh))
      with (th * ow * (V * G) - mp * G * oh) by ring.
    rewrite HVG. ring. }
  assert (HA0 : 0 < A) by lia.
  assert (Hb : c1 * oh * M <= 2 * (ow * U)).
  { assert (2 * (ow * U) = 2 * e1 + 2 * (A * oh)) by (unfold e1; ring).
    assert (2 ^ 52 * c1 * oh <= A * oh) by (apply Z.mul_le_mono_nonneg_r; lia).
    assert (0 <= c1 * oh) by (apply Z.mul_nonneg_nonneg; lia).
    rewrite HM. lia. }
  assert (Hc : G * M <= 2 * (th * P * A)).
  { assert (2 * (th * P * A) = 2 * e3 + 2 * (mp * G)) by (unfold e3; ring).
    assert (2 ^ 52 * G <= mp * G) by (apply Z.mul_le_mono_nonneg_r; lia).
    rewrite HM. lia. }
  assert (HthP : 0 < th * P) by (apply Z.mul_pos_pos; lia).
  assert (HowU : 0 < ow * U) by (apply Z.mul_pos_pos; lia).
  assert (Hc1oh : 0 <= c1 * oh) by (apply Z.mul_nonneg_nonneg; lia).
  assert (HAoh : A * oh <= 2 * (ow * U)).
  { assert (2 * (A * oh) = 2 * (ow * U) - 2 * e1) by (unfold e1; ring).
    assert (c1 * oh * 1 <= c1 * oh * M)
      by (apply Z.mul_le_mono_nonneg_l; lia).
    lia. }
  assert (Habs : 2 * (G * Z.abs err) <= th * P * (c1 * oh) + oh * G).
  { assert (Hz : G * Z.abs err = Z.abs (G * err)).
    { rewrite Z.abs_mul. rewrite (Z.abs_eq G) by lia. reflexivity. }
    rewrite Hz, Hid.
    apply abs_combination; [lia|lia|exact He1|exact He3]. }
  assert (H2 : M * (2 * (G * Z.abs err)) <= 6 * (th * ow) * (V * G)).
  { assert (Hm : M * (2 * (G * Z.abs err))
                 <= M * (th * P * (c1 * oh) + oh * G))
      by (apply Z.mul_le_mono_nonneg_l; lia).
    assert (Hx : th * P * (c1 * oh * M) <= th * P * (2 * (ow * U)))
      by (apply Z.mul_le_mono_nonneg_l; lia).
    assert (Hy : oh * (G * M) <= oh * (2 * (th * P * A)))
      by (apply Z.mul_le_mono_nonneg_l; lia).
    assert (Hw : th * P * (A * oh) <= th * P * (2 * (ow * U)))
      by (apply Z.mul_le_mono_nonneg_l; lia).
    rewrite HVG.
    replace (M * (th * P * (c1 * oh) + oh * G))
      with (th * P * (c1 * oh * M) + oh * (G * M)) in Hm by ring.
    replace (oh * (2 * (th * P * A))) with (2 * (th * P * (A * oh))) in Hy by ring.
    replace (6 * (th * ow) * (P * U)) with (3 * (th * P * (2 * (ow * U)))) by ring.
    clear - Hm Hx Hy Hw. set (z := Z.abs err) in *. clearbody z. lia. }
  assert (H3 : M * Z.abs err <= 3 * (th * ow) * V).
  { apply Z.mul_le_mono_pos_l with (p := 2 * G); [lia|].
    replace (2 * G * (M * Z.abs err)) with (M * (2 * (G * Z.abs err))) by ring.
    replace (2 * G * (3 * (th * ow) * V)) with (6 * (th * ow) * (V * G)) by ring.
    exact H2. }
  destruct (Z_lt_ge_dec (Z.abs err) V) as [Hlt|Hge]; [exact Hlt|exfalso].
  assert (Hl : M * V <= M * Z.abs err) by (apply Z.mul_le_mono_nonneg_l; lia).
  assert (Hu : 3 * (th * ow) * V < M * V) by (apply Z.mul_lt_mono_pos_r; lia).
  clear - H3 Hl Hu. set (z := Z.abs err) in *. clearbody z. lia.
Qed.

(** A product of two doubles is within half a unit in the last place of the
    exact product of their significands. *)
Lemma SFmul_enclosure (sx : bool) (mx : positive) (ex : Z)
                      (sy : bool) (my : positive) (ey : Z) :
  Zpos (digits2_pos mx) = 53 -> Zpos (digits2_pos my) = 53 ->
  -1021 <= 105 + ex + ey -> 107 + ex + ey <= 1024 ->
  exists m e n,
    SFmul prec emax (S754_finite sx mx ex) (S754_finite sy my ey)
      = S754_finite (xorb sx sy) m e
    /\ Zpos (digits2_pos m) = 53
    /\ e = ex + ey + n
    /\ 52 <= n <= 54
    /\ 2 * Z.abs (Zpos mx * Zpos my - Zpos m * 2 ^ n) <= 2 ^ n.
Proof.
  intros Hdx Hdy Hlo Hhi. cbn [SFmul].
  pose proof (Zdigits2_mul (Zpos mx) (Zpos my) eq_refl eq_refl) as Hd.
  cbn [Zdigits2] in Hd. rewrite Hdx, Hdy in Hd.
  change (Zpos mx * Zpos my) with (Zpos (mx * my)) in Hd.
  cbn [Zdigits2] in Hd.
  destruct (binary_round_aux_enclosure (xorb sx sy) (Zpos (mx * my)) (ex + ey)
              loc_Exact (Zpos (mx * my)) 1 eq_refl eq_refl)
    as (m & e & Hres & Hdm & Hee & Hmag & Henc);
    try (cbn [Zdigits2 located]; lia).
  cbn [Zdigits2] in Hmag.
  exists m, e, (e - (ex + ey)). rewrite Hres.
  split; [reflexivity|]. split; [exact Hdm|]. split; [lia|]. split; [lia|].
  rewrite !Z.mul_1_r in Henc. exact Henc.
Qed.

(** [int(th * (ow / oh))] *)
Lemma height_only_width (ow oh th : Z) :
  0 < ow < 2 ^ 25 -> 0 < oh < 2 ^ 25 -> 0 < th < 2 ^ 25 ->
  exists a p w,
    int_truediv ow oh = Ok a /\ int_mul_float th a = Ok p /\ py_int p = Ok w
    /\ (w = th * ow / oh
        \/ ((th * ow) mod oh = 0 /\ w = th * ow / oh - 1)).
Proof.
  intros How Hoh Hth.
  pose proof (small_digits ow How) as Hdow.
  pose proof (small_digits oh Hoh) as Hdoh.
  pose proof (small_digits th Hth) as Hdth.
  destruct (int_truediv_enclosure ow oh How Hoh)
    as (ma & n1 & Ha & Hdma & Hn1 & Henc1).
  set (S1 := 53 - (Zdigits2 ow - Zdigits2 oh)) in *.
  destruct (of_int_exact th ltac:(lia) ltac:(lia)) as (mt & Ht & Hdmt & Hmt).
  set (T := 53 - Zdigits2 th) in *.
  destruct (SFmul_enclosure false mt (Zdigits2 th - 53) false ma (n1 - S1)
              Hdmt Hdma)
    as (mp & ep & n3 & Hp & Hdmp & Hep & Hn3 & Henc3);
    try (unfold S1; lia).
  set (K := T + S1 - n1 - n3).
  assert (HK : ep = - K) by (unfold K, T; lia).
  assert (HKpos : 0 < K) by (unfold K, T, S1; lia).
  exists (S754_finite false ma (n1 - S1)), (S754_finite false mp ep),
         (Zpos mp / 2 ^ K).
  split; [exact Ha|]. split.
  { unfold int_mul_float. rewrite Ht. cbn [bind]. unfold float_mul.
    rewrite Hp. reflexivity. }
  split.
  { cbn [py_int]. destruct ep as [|k|k]; try lia.
    rewrite Z.shiftr_div_pow2 by lia.
    replace (Zpos k) with K by lia. reflexivity. }
  assert (Hc1 : 1 <= 2 ^ n1 <= 4).
  { destruct (Z.eq_dec n1 0) as [->|]; [cbn; lia|].
    destruct (Z.eq_dec n1 1) as [->|]; [cbn; lia|].
    replace n1 with 2 by lia. cbn; lia. }
  assert (HS1 : 0 <= S1) by (unfold S1; lia).
  assert (HT : 0 <= T) by (unfold T; lia).
  assert (HU : 0 < 2 ^ S1) by (apply Z.pow_pos_nonneg; lia).
  assert (HV : 0 < 2 ^ K) by (apply Z.pow_pos_nonneg; lia).
  assert (HP : 0 < 2 ^ T) by (apply Z.pow_pos_nonneg; lia).
  assert (HR : 0 < 2 ^ n3) by (apply Z.pow_pos_nonneg; lia).
  pose proof (digits53_lower ma Hdma) as Hma.
  pose proof (digits53_lower mp Hdmp) as Hmp.
  assert (Hsz : th * ow <= 2 ^ 50).
  { assert (th * ow <= 2 ^ 25 * 2 ^ 25) by (apply Z.mul_le_mono_nonneg; lia).
    exact H. }
  assert (HVG : 2 ^ K * (2 ^ n3 * 2 ^ n1) = 2 ^ T * 2 ^ S1).
  { rewrite <- !Z.pow_add_r by lia. f_equal. unfold K. lia. }
  apply float_trunc_from_error; try lia.
  apply (division_product_error ow oh th (2 ^ S1) (2 ^ K)
           (Zpos ma * 2 ^ n1) (Zpos mp) (2 ^ n1) (2 ^ n3 * 2 ^ n1) (2 ^ T));
    try lia.
  - apply Z.mul_le_mono_nonneg_r; lia.
  - replace (th * 2 ^ T * (Zpos ma * 2 ^ n1) - Zpos mp * (2 ^ n3 * 2 ^ n1))
      with ((Zpos mt * Zpos ma - Zpos mp * 2 ^ n3) * 2 ^ n1)
      by (rewrite Hmt; fold T; ring).
    rewrite Z.abs_mul, (Z.abs_eq (2 ^ n1)) by lia.
    rewrite Z.mul_assoc. apply Z.mul_le_mono_nonneg_r; [lia|exact Henc3].
Qed.

(** Order of two positive normal numbers, read on their scaled values. *)
Lemma float_gt_of_values (m1 : positive) (e1 : Z) (m2 : positive) (e2 k : Z) :
  Zpos (digits2_pos m1) = 53 -> Zpos (digits2_pos m2) = 53 ->
  0 <= e1 + k -> 0 <= e2 + k ->
  (Zpos m2 * 2 ^ (e2 + k) < Zpos m1 * 2 ^ (e1 + k) ->
   float_gt (S754_finite false m1 e1) (S754_finite false m2 e2) = true)
  /\ (Zpos m1 * 2 ^ (e1 + k) < Zpos m2 * 2 ^ (e2 + k) ->
      float_gt (S754_finite false m1 e1) (S754_finite false m2 e2) = false).
Proof.
  intros Hd1 Hd2 Hk1 Hk2.
  pose proof (Zdigits2_bounds (Zpos m1) eq_refl) as Hb1.
  pose proof (Zdigits2_bounds (Zpos m2) eq_refl) as Hb2.
  cbn [Zdigits2] in Hb1, Hb2. rewrite Hd1 in Hb1. rewrite Hd2 in Hb2.
  change (2 ^ (53 - 1)) with (2 ^ 52) in *.
  assert (Hgap : forall ma mb ea eb,
            2 ^ 52 <= ma -> mb < 2 ^ 53 -> 0 <= eb -> eb < ea ->
            mb * 2 ^ eb < ma * 2 ^ ea).
  { intros ma mb ea eb Ha Hb Heb Hlt.
    replace ea with (eb + 1 + (ea - eb - 1)) by lia.
    rewrite !Z.pow_add_r by lia.
    assert (0 < 2 ^ eb) by (apply Z.pow_pos_nonneg; lia).
    assert (0 < 2 ^ (ea - eb - 1)) by (apply Z.pow_pos_nonneg; lia).
    change (2 ^ 1) with 2.
    assert (mb * 2 ^ eb < 2 ^ 53 * 2 ^ eb) by (apply Z.mul_lt_mono_pos_r; lia).
    assert (2 ^ 53 * 2 ^ eb <= ma * 2 * 2 ^ eb)
      by (apply Z.mul_le_mono_nonneg_r; lia).
    assert (ma * 2 * 2 ^ eb * 1 <= ma * 2 * 2 ^ eb * 2 ^ (ea - eb - 1))
      by (apply Z.mul_le_mono_nonneg_l; lia).
    replace (ma * (2 ^ eb * 2 * 2 ^ (ea - eb - 1)))
      with (ma * 2 * 2 ^ eb * 2 ^ (ea - eb - 1)) by ring.
    lia. }
  unfold float_gt, SFltb. cbn [SFcompare].
  split; intros Hv.
  - destruct (Z.compare_spec e2 e1) as [He|He|He].
    + subst e2. assert (0 < 2 ^ (e1 + k)) by (apply Z.pow_pos_nonneg; lia).
      assert (Hlt : Zpos m2 < Zpos m1)
        by (apply Z.mul_lt_mono_pos_r with (p := 2 ^ (e1 + k)); assumption).
      change (Pos.compare_cont Eq m2 m1) with (Zpos m2 ?= Zpos m1).
      unfold Z.lt in Hlt. rewrite Hlt. reflexivity.
    + reflexivity.
    + exfalso.
      pose proof (Hgap (Zpos m2) (Zpos m1) (e2 + k) (e1 + k)
                    ltac:(lia) ltac:(lia) ltac:(lia) ltac:(lia)). lia.
  - destruct (Z.compare_spec e2 e1) as [He|He|He].
    + subst e2. assert (0 < 2 ^ (e1 + k)) by (apply Z.pow_pos_nonneg; lia).
      assert (Hlt : Zpos m1 < Zpos m2)
        by (apply Z.mul_lt_mono_pos_r with (p := 2 ^ (e1 + k)); assumption).
      change (Pos.compare_cont Eq m2 m1) with (Zpos m2 ?= Zpos m1).
      apply Z.lt_gt in Hlt. unfold Z.gt in Hlt. rewrite Hlt. reflexivity.
    + exfalso.
      pose proof (Hgap (Zpos m1) (Zpos m2) (e1 + k) (e2 + k)
                    ltac:(lia) ltac:(lia) ltac:(lia) ltac:(lia)). lia.
    + reflexivity.
Qed.

(** Two quotients of small integers that differ are rounded to doubles that
    differ the same way. *)
Lemma quotients_separated (a b c d U1 U2 A1 A2 c1 c2 : Z) :
  0 < a -> 0 < b -> 0 < c -> 0 < d -> 0 < U1 -> 0 < U2 ->
  1 <= c1 -> 1 <= c2 ->
  2 ^ 52 * c1 <= A1 -> 2 ^ 52 * c2 <= A2 ->
  2 * Z.abs (a * U1 - A1 * b) <= c1 * b ->
  2 * Z.abs (c * U2 - A2 * d) <= c2 * d ->
  a * d + c * b < 2 ^ 53 - 1 ->
  c * b < a * d ->
  A2 * U1 < A1 * U2.
Proof.
  intros Ha Hb Hc Hd HU1 HU2 Hc1 Hc2 HA1 HA2 He1 He2 Hsz Hlt.
  set (M := 2 ^ 53 - 1) in *.
  assert (HM : M = 2 * 2 ^ 52 - 1) by reflexivity.
  clearbody M.
  set (e1 := a * U1 - A1 * b) in *.
  set (e2 := c * U2 - A2 * d) in *.
  assert (H1 : c1 * b * M <= 2 * (a * U1)).
  { assert (2 * (a * U1) = 2 * e1 + 2 * (A1 * b)) by (unfold e1; ring).
    assert (2 ^ 52 * c1 * b <= A1 * b) by (apply Z.mul_le_mono_nonneg_r; lia).
    assert (0 <= c1 * b) by (apply Z.mul_nonneg_nonneg; lia).
    rewrite HM. lia. }
  assert (H2 : c2 * d * M <= 2 * (c * U2)).
  { assert (2 * (c * U2) = 2 * e2 + 2 * (A2 * d)) by (unfold e2; ring).
    assert (2 ^ 52 * c2 * d <= A2 * d) by (apply Z.mul_le_mono_nonneg_r; lia).
    assert (0 <= c2 * d) by (apply Z.mul_nonneg_nonneg; lia).
    rewrite HM. lia. }
  (* scaled difference *)
  assert (HUU : 0 < U1 * U2) by (apply Z.mul_pos_pos; lia).
  assert (Hbd : 0 < b * d) by (apply Z.mul_pos_pos; lia).
  assert (Hid : 2 * (b * d * (A1 * U2 - A2 * U1))
                = 2 * ((a * d - c * b) * (U1 * U2))
                  - 2 * e1 * (d * U2) + 2 * e2 * (b * U1))
    by (unfold e1, e2; ring).
  assert (Hx : 2 * Z.abs e1 * (d * U2) <= c1 * b * (d * U2))
    by (apply Z.mul_le_mono_nonneg_r; [apply Z.mul_nonneg_nonneg; lia|lia]).
  assert (Hy : 2 * Z.abs e2 * (b * U1) <= c2 * d * (b * U1))
    by (apply Z.mul_le_mono_nonneg_r; [apply Z.mul_nonneg_nonneg; lia|lia]).
  assert (Hx' : M * (c1 * b * (d * U2)) <= 2 * (a * d) * (U1 * U2)).
  { replace (M * (c1 * b * (d * U2))) with (c1 * b * M * (d * U2)) by ring.
    replace (2 * (a * d) * (U1 * U2)) with (2 * (a * U1) * (d * U2)) by ring.
    apply Z.mul_le_mono_nonneg_r; [apply Z.mul_nonneg_nonneg; lia|exact H1]. }
  assert (Hy' : M * (c2 * d * (b * U1)) <= 2 * (c * b) * (U1 * U2)).
  { replace (M * (c2 * d * (b * U1))) with (c2 * d * M * (b * U1)) by ring.
    replace (2 * (c * b) * (U1 * U2)) with (2 * (c * U2) * (b * U1)) by ring.
    apply Z.mul_le_mono_nonneg_r; [apply Z.mul_nonneg_nonneg; lia|exact H2]. }
  assert (Hgap : 1 * (U1 * U2) <= (a * d - c * b) * (U1 * U2))
    by (apply Z.mul_le_mono_nonneg_r; lia).
  assert (Hsum : (a * d + c * b) * (U1 * U2) < M * (U1 * U2))
    by (apply Z.mul_lt_mono_pos_r; lia).
  assert (Habs1 : - (2 * e1 * (d * U2)) >= - (2 * Z.abs e1 * (d * U2))).
  { assert (0 <= d * U2) by (apply Z.mul_nonneg_nonneg; lia).
    assert (2 * e1 * (d * U2) <= 2 * Z.abs e1 * (d * U2))
      by (apply Z.mul_le_mono_nonneg_r; lia). lia. }
  assert (Habs2 : 2 * e2 * (b * U1) >= - (2 * Z.abs e2 * (b * U1))).
  { assert (0 <= b * U1) by (apply Z.mul_nonneg_nonneg; lia).
    assert (- (2 * Z.abs e2) * (b * U1) <= 2 * e2 * (b * U1))
      by (apply Z.mul_le_mono_nonneg_r; lia). lia. }
  assert (Hpos : 0 < M * (2 * (b * d * (A1 * U2 - A2 * U1)))).
  { rewrite Hid.
    assert (M * (2 * Z.abs e1 * (d * U2)) <= M * (c1 * b * (d * U2)))
      by (apply Z.mul_le_mono_nonneg_l; lia).
    assert (M * (2 * Z.abs e2 * (b * U1)) <= M * (c2 * d * (b * U1)))
      by (apply Z.mul_le_mono_nonneg_l; lia).
    assert (M * (2 * (U1 * U2)) <= M * (2 * ((a * d - c * b) * (U1 * U2))))
      by (apply Z.mul_le_mono_nonneg_l; lia).
    assert (Hexp : M * (2 * ((a * d - c * b) * (U1 * U2))
                        - 2 * e1 * (d * U2) + 2 * e2 * (b * U1))
                   >= M * (2 * (U1 * U2))
                      - M * (2 * Z.abs e1 * (d * U2))
                      - M * (2 * Z.abs e2 * (b * U1))).
    { replace (M * (2 * ((a * d - c * b) * (U1 * U2))
                    - 2 * e1 * (d * U2) + 2 * e2 * (b * U1)))
        with (M * (2 * ((a * d - c * b) * (U1 * U2)))
              + M * (- (2 * e1 * (d * U2)))
              + M * (2 * e2 * (b * U1))) by ring.
      assert (M * (- (2 * e1 * (d * U2))) >= M * (- (2 * Z.abs e1 * (d * U2)))).
      { apply Z.le_ge. apply Z.mul_le_mono_nonneg_l; lia. }
      assert (M * (2 * e2 * (b * U1)) >= M * (- (2 * Z.abs e2 * (b * U1)))).
      { apply Z.le_ge. apply Z.mul_le_mono_nonneg_l; lia. }
      lia. }
    lia. }
  assert (0 < A1 * U2 - A2 * U1).
  { destruct (Z_lt_ge_dec 0 (A1 * U2 - A2 * U1)) as [|Hn]; [assumption|exfalso].
    assert (b * d * (A1 * U2 - A2 * U1) <= 0)
      by (apply Z.mul_nonneg_nonpos; lia).
    assert (M * (2 * (b * d * (A1 * U2 - A2 * U1))) <= 0)
      by (apply Z.mul_nonneg_nonpos; lia).
    lia. }
  lia.
Qed.

(** The comparison [target_width / original_width > target_height /
    original_height] of the source decides the comparison of the exact
    ratios whenever these differ. *)
Lemma ratio_comparison (ow oh tw th : Z) :
  0 < ow < 2 ^ 25 -> 0 < oh < 2 ^ 25 -> 0 < tw < 2 ^ 25 -> 0 < th < 2 ^ 25 ->
  exists rw rh,
    int_truediv tw ow = Ok rw /\ int_truediv th oh = Ok rh
    /\ (th * ow < tw * oh -> float_gt rw rh = true)
    /\ (tw * oh < th * ow -> float_gt rw rh = false).
Proof.
  intros How Hoh Htw Hth.
  pose proof (small_digits ow How) as Hdow.
  pose proof (small_digits oh Hoh) as Hdoh.
  pose proof (small_digits tw Htw) as Hdtw.
  pose proof (small_digits th Hth) as Hdth.
  destruct (int_truediv_enclosure tw ow Htw How)
    as (m1 & n1 & H1 & Hd1 & Hn1 & Henc1).
  destruct (int_truediv_enclosure th oh Hth Hoh)
    as (m2 & n2 & H2 & Hd2 & Hn2 & Henc2).
  set (S1 := 53 - (Zdigits2 tw - Zdigits2 ow)) in *.
  set (S2 := 53 - (Zdigits2 th - Zdigits2 oh)) in *.
  assert (HS1 : 0 <= S1) by (unfold S1; lia).
  assert (HS2 : 0 <= S2) by (unfold S2; lia).
  exists (S754_finite false m1 (n1 - S1)), (S754_finite false m2 (n2 - S2)).
  split; [exact H1|]. split; [exact H2|].
  assert (HU1 : 0 < 2 ^ S1) by (apply Z.pow_pos_nonneg; lia).
  assert (HU2 : 0 < 2 ^ S2) by (apply Z.pow_pos_nonneg; lia).
  assert (Hc1 : 1 <= 2 ^ n1) by (assert (0 < 2 ^ n1) by (apply Z.pow_pos_nonneg; lia); lia).
  assert (Hc2 : 1 <= 2 ^ n2) by (assert (0 < 2 ^ n2) by (apply Z.pow_pos_nonneg; lia); lia).
  pose proof (digits53_lower m1 Hd1) as Hm1.
  pose proof (digits53_lower m2 Hd2) as Hm2.
  assert (Hsz : tw * oh + th * ow < 2 ^ 53 - 1).
  { assert (tw * oh <= 2 ^ 25 * 2 ^ 25) by (apply Z.mul_le_mono_nonneg; lia).
    assert (th * ow <= 2 ^ 25 * 2 ^ 25) by (apply Z.mul_le_mono_nonneg; lia).
    change (2 ^ 25 * 2 ^ 25) with (2 ^ 50) in *.
    assert (2 ^ 50 + 2 ^ 50 < 2 ^ 53 - 1) by (cbn; lia). lia. }
  assert (HA1 : 2 ^ 52 * 2 ^ n1 <= Zpos m1 * 2 ^ n1)
    by (apply Z.mul_le_mono_nonneg_r; lia).
  assert (HA2 : 2 ^ 52 * 2 ^ n2 <= Zpos m2 * 2 ^ n2)
    by (apply Z.mul_le_mono_nonneg_r; lia).
  destruct (float_gt_of_values m1 (n1 - S1) m2 (n2 - S2) (S1 + S2) Hd1 Hd2
              ltac:(lia) ltac:(lia)) as [Hgt Hle].
  replace (n1 - S1 + (S1 + S2)) with (n1 + S2) in Hgt, Hle by lia.
  replace (n2 - S2 + (S1 + S2)) with (n2 + S1) in Hgt, Hle by lia.
  rewrite !Z.pow_add_r in Hgt, Hle by lia.
  split; intros Hcmp.
  - apply Hgt.
    pose proof (quotients_separated tw ow th oh (2 ^ S1) (2 ^ S2)
                  (Zpos m1 * 2 ^ n1) (Zpos m2 * 2 ^ n2) (2 ^ n1) (2 ^ n2)
                  ltac:(lia) ltac:(lia) ltac:(lia) ltac:(lia) HU1 HU2
                  Hc1 Hc2 HA1 HA2 Henc1 Henc2 Hsz Hcmp) as Hs.
    replace (Zpos m2 * (2 ^ n2 * 2 ^ S1)) with (Zpos m2 * 2 ^ n2 * 2 ^ S1) by ring.
    replace (Zpos m1 * (2 ^ n1 * 2 ^ S2)) with (Zpos m1 * 2 ^ n1 * 2 ^ S2) by ring.
    exact Hs.
  - apply Hle.
    pose proof (quotients_separated th oh tw ow (2 ^ S2) (2 ^ S1)
                  (Zpos m2 * 2 ^ n2) (Zpos m1 * 2 ^ n1) (2 ^ n2) (2 ^ n1)
                  ltac:(lia) ltac:(lia) ltac:(lia) ltac:(lia) HU2 HU1
                  Hc2 Hc1 HA2 HA1 Henc2 Henc1 ltac:(lia) Hcmp) as Hs.
    replace (Zpos m2 * (2 ^ n2 * 2 ^ S1)) with (Zpos m2 * 2 ^ n2 * 2 ^ S1) by ring.
    replace (Zpos m1 * (2 ^ n1 * 2 ^ S2)) with (Zpos m1 * 2 ^ n1 * 2 ^ S2) by ring.
    exact Hs.
Qed.

End Enclosures.

Section ResolverClaims.

(** C3, as stated, fails: for an original of 900x700 and a target width of
    1080 the resolver returns height 839, while [int(w' * h / w)] is 840
    whether it is read exactly, as [(w' * h) / w] in floats, or as
    [w' * (h / w)] in floats. *)
Lemma single_target_formula_refuted :
  calculate_new_dimensions 900 700 (Some 1080) None true
    = Ok {| width := 1080; height := 839 |}
  /\ Z.quot (1080 * 700) 900 = 840
  /\ (q <- int_truediv (1080 * 700) 900 ;; py_int q) = Ok 840
  /\ (r <- int_truediv 700 900 ;; p <- int_mul_float 1080 r ;; py_int p)
     = Ok 840.
Proof. repeat split; vm_compute; reflexivity. Qed.

(** With only one target given the resolver is total on sizes up to 2^500,
    and computes [int(tw / (ow / oh))], respectively [int(th * (ow / oh))],
    in doubles. *)
Lemma single_target_as_computed :
  (forall ow oh tw, in_range ow -> in_range oh -> in_range tw ->
     exists a q h,
       int_truediv ow oh = Ok a /\ int_div_float tw a = Ok q
       /\ py_int q = Ok h
       /\ calculate_new_dimensions ow oh (Some tw) None true
          = Ok {| width := tw; height := h |})
  /\ (forall ow oh th, in_range ow -> in_range oh -> in_range th ->
     exists a p w,
       int_truediv ow oh = Ok a /\ int_mul_float th a = Ok p
       /\ py_int p = Ok w
       /\ calculate_new_dimensions ow oh None (Some th) true
          = Ok {| width := w; height := th |}).
Proof.
  split.
  - intros ow oh tw How Hoh Htw.
    destruct (aspect_ratio_normal ow oh How Hoh) as (a & Ha & Hna).
    destruct (int_div_float_total tw a Htw Hna) as (q & h & Hq & Hh).
    exists a, q, h. repeat split; try assumption.
    unfold calculate_new_dimensions. cbn [negb].
    rewrite Ha. cbn [bind].
    rewrite (truthy_in_range tw Htw). cbn [truthy negb andb the_int].
    rewrite Hq. cbn [bind]. rewrite Hh. reflexivity.
  - intros ow oh th How Hoh Hth.
    destruct (aspect_ratio_normal ow oh How Hoh) as (a & Ha & Hna).
    destruct (int_mul_float_total th a Hth Hna) as (p & w & Hp & Hw).
    exists a, p, w. repeat split; try assumption.
    unfold calculate_new_dimensions. cbn [negb].
    rewrite Ha. cbn [bind].
    rewrite (truthy_in_range th Hth). cbn [truthy negb andb the_int].
    rewrite Hp. cbn [bind]. rewrite Hw. reflexivity.
Qed.

(** C3, amended: with [maintain_aspect] and only the width [tw] given (all
    sizes between 1 and 2^25 - 1), the resolver succeeds and returns the
    width unchanged and, as the height, the floor of [tw * oh / ow] whenever
    [ow] does not divide [tw * oh]; when [ow] divides [tw * oh] the height is
    that quotient or one less, because the code divides twice
    ([tw / (ow / oh)]) and rounds each time. Symmetrically, with only the
    height [th] given the width is the floor of [th * ow / oh], or one less
    when [oh] divides [th * ow]. For 800x600 and width 400 the result is
    (400, 300). *)
Theorem calculate_new_dimensions_single_target :
  (forall ow oh tw, pixel_size ow -> pixel_size oh -> pixel_size tw ->
     exists h,
       calculate_new_dimensions ow oh (Some tw) None true
         = Ok {| width := tw; height := h |}
       /\ quotient_or_below (tw * oh) ow h)
  /\ (forall ow oh th, pixel_size ow -> pixel_size oh -> pixel_size th ->
     exists w,
       calculate_new_dimensions ow oh None (Some th) true
         = Ok {| width := w; height := th |}
       /\ quotient_or_below (th * ow) oh w)
  /\ calculate_new_dimensions 800 600 (Some 400) None true
     = Ok {| width := 400; height := 300 |}.
Proof.
  split; [|split].
  - intros ow oh tw How Hoh Htw.
    destruct (width_only_height ow oh tw How Hoh Htw)
      as (a & q & h & Ha & Hq & Hh & Hval).
    exists h. split; [|exact Hval].
    unfold calculate_new_dimensions. cbn [negb].
    rewrite Ha. cbn [bind].
    rewrite (truthy_in_range tw (pixel_size_in_range tw Htw)).
    cbn [truthy negb andb the_int].
    rewrite Hq. cbn [bind]. rewrite Hh. reflexivity.
  - intros ow oh th How Hoh Hth.
    destruct (height_only_width ow oh th How Hoh Hth)
      as (a & p & w & Ha & Hp & Hw & Hval).
    exists w. split; [|exact Hval].
    unfold calculate_new_dimensions. cbn [negb].
    rewrite Ha. cbn [bind].
    rewrite (truthy_in_range th (pixel_size_in_range th Hth)).
    cbn [truthy negb andb the_int].
    rewrite Hp. cbn [bind]. rewrite Hw. reflexivity.
  - vm_compute. reflexivity.
Qed.

Lemma calculate_new_dimensions_single_target_witness :
  pixel_size 800 /\ pixel_size 600 /\ pixel_size 400
  /\ exists h,
       calculate_new_dimensions 800 600 (Some 400) None true
         = Ok {| width := 400; height := h |}
       /\ quotient_or_below (400 * 600) 800 h.
Proof.
  assert (H8 : pixel_size 800) by (split; reflexivity).
  assert (H6 : pixel_size 600) by (split; reflexivity).
  assert (H4 : pixel_size 400) by (split; reflexivity).
  repeat (split; [assumption|]).
  exact (proj1 calculate_new_dimensions_single_target 800 600 400 H8 H6 H4).
Defined.

(** C1, as stated, fails: for an original of 1000x500 and a target of
    (400, 300) the resolver returns (400, 200), not (600, 300). *)
Lemma both_targets_scenario_refuted :
  calculate_new_dimensions 1000 500 (Some 400) (Some 300) true
    = Ok {| width := 400; height := 200 |}
  /\ calculate_new_dimensions 1000 500 (Some 400) (Some 300) true
    <> Ok {| width := 600; height := 300 |}.
Proof. split; vm_compute; [reflexivity|discriminate]. Qed.

(** C1, amended: with [maintain_aspect] and both targets given (all sizes
    between 1 and 2^25 - 1), when the two aspect ratios are not within 0.01
    of each other the resolver succeeds and keeps the axis with the SMALLER
    scale ratio. If [tw / ow > th / oh] the height [th] is kept and the
    width is recomputed as the floor of [th * ow / oh]; if
    [tw / ow < th / oh] the width [tw] is kept and the height is recomputed
    as the floor of [tw * oh / ow]; either recomputed value is one less than
    the quotient for some of the inputs on which the division is exact. For
    1000x500 and (400, 300) the result is (400, 200). *)
Theorem calculate_new_dimensions_both_targets :
  (forall ow oh tw th,
     pixel_size ow -> pixel_size oh -> pixel_size tw -> pixel_size th ->
     exists a ta,
       int_truediv ow oh = Ok a /\ int_truediv tw th = Ok ta
       /\ (float_lt (float_abs (float_sub a ta)) lit_0_01 = false ->
           exists w h,
             calculate_new_dimensions ow oh (Some tw) (Some th) true
               = Ok {| width := w; height := h |}
             /\ ((th * ow <= tw * oh /\ h = th
                  /\ quotient_or_below (th * ow) oh w)
                 \/ (tw * oh <= th * ow /\ w = tw
                     /\ quotient_or_below (tw * oh) ow h))))
  /\ calculate_new_dimensions 1000 500 (Some 400) (Some 300) true
     = Ok {| width := 400; height := 200 |}.
Proof.
  split; [|vm_compute; reflexivity].
  intros ow oh tw th How Hoh Htw Hth.
  pose proof (pixel_size_in_range _ Htw) as Htw'.
  pose proof (pixel_size_in_range _ Hth) as Hth'.
  destruct (aspect_ratio_normal tw th Htw' Hth') as (ta & Hta & _).
  destruct (ratio_comparison ow oh tw th How Hoh Htw Hth)
    as (rw & rh & Hrw & Hrh & Hgt & Hle).
  destruct (width_only_height ow oh tw How Hoh Htw)
    as (a & q & h & Ha & Hq & Hh & Hhv).
  destruct (height_only_width ow oh th How Hoh Hth)
    as (a' & p & w & Ha' & Hp & Hw & Hwv).
  rewrite Ha in Ha'. injection Ha' as <-.
  exists a, ta. split; [exact Ha|]. split; [exact Hta|].
  intros Hmis.
  assert (Hcalc : calculate_new_dimensions ow oh (Some tw) (Some th) true
                  = if float_gt rw rh
                    then Ok {| width := w; height := th |}
                    else Ok {| width := tw; height := h |}).
  { unfold calculate_new_dimensions. cbn [negb].
    rewrite Ha. cbn [bind].
    rewrite (truthy_in_range tw Htw'), (truthy_in_range th Hth').
    cbn [negb andb the_int]. rewrite Hta. cbn [bind]. rewrite Hmis.
    rewrite Hrw. cbn [bind]. rewrite Hrh. cbn [bind].
    rewrite Hp, Hq. cbn [bind]. rewrite Hw, Hh. reflexivity. }
  rewrite Hcalc. destruct (float_gt rw rh) eqn:Hcmp.
  - exists w, th. split; [reflexivity|]. left.
    split; [|split; [reflexivity|exact Hwv]].
    destruct (Z_le_gt_dec (th * ow) (tw * oh)) as [Hc|Hc]; [exact Hc|].
    apply Z.gt_lt in Hc. apply Hle in Hc. discriminate Hc.
  - exists tw, h. split; [reflexivity|]. right.
    split; [|split; [reflexivity|exact Hhv]].
    destruct (Z_le_gt_dec (tw * oh) (th * ow)) as [Hc|Hc]; [exact Hc|].
    apply Z.gt_lt in Hc. apply Hgt in Hc. discriminate Hc.
Qed.

Lemma calculate_new_dimensions_both_targets_witness :
  pixel_size 1000 /\ pixel_size 500 /\ pixel_size 400 /\ pixel_size 300
  /\ exists h,
       calculate_new_dimensions 1000 500 (Some 400) (Some 300) true
         = Ok {| width := 400; height := h |}
       /\ quotient_or_below (400 * 500) 1000 h.
Proof.
  assert (H10 : pixel_size 1000) by (split; reflexivity).
  assert (H5 : pixel_size 500) by (split; reflexivity).
  assert (H4 : pixel_size 400) by (split; reflexivity).
  assert (H3 : pixel_size 300) by (split; reflexivity).
  repeat (split; [assumption|]).
  destruct (proj1 calculate_new_dimensions_both_targets 1000 500 400 300
              H10 H5 H4 H3)
    as (a & ta & Ha & Hta & H).
  vm_compute in Ha, Hta.
  injection Ha as <-. injection Hta as <-.
  destruct (H eq_refl) as (w & h & Hc & [(Hle & _)|(_ & -> & Hq)]).
  - exfalso. vm_compute in Hle. apply Hle. reflexivity.
  - exists h. split; [exact Hc|exact Hq].
Defined.

(** C2, as stated, fails: with an original width of 0 (and no target) the
    resolver returns (0, 5) and signals nothing. *)
Lemma zero_width_not_rejected :
  calculate_new_dimensions 0 5 None None true
    = Ok {| width := 0; height := 5 |}.
Proof. vm_compute. reflexivity. Qed.

(** C2, amended: with [maintain_aspect], an original height of 0 always
    ends in the [ZeroDivisionError] raised by the unguarded division
    [original_width / original_height]; an original width of 0 (height not
    0) is not rejected: with no target the result is (0, h), with only a
    target height h' it is (0, h'), and with only a target width the later
    float division raises [ZeroDivisionError]. *)
Theorem calculate_new_dimensions_zero_original :
  (forall ow tw th,
     calculate_new_dimensions ow 0 tw th true
       = Raise (Exn ZeroDivisionError "division by zero"))
  /\ (forall oh, oh <> 0 ->
        calculate_new_dimensions 0 oh None None true
          = Ok {| width := 0; height := oh |})
  /\ (forall oh th, oh <> 0 -> in_range th ->
        calculate_new_dimensions 0 oh None (Some th) true
          = Ok {| width := 0; height := th |})
  /\ (forall oh tw, oh <> 0 -> in_range tw ->
        calculate_new_dimensions 0 oh (Some tw) None true
          = Raise (Exn ZeroDivisionError "float division by zero")).
Proof.
  assert (Hzero : forall oh, oh <> 0 ->
            exists s, int_truediv 0 oh = Ok (S754_zero s)).
  { intros oh Hoh. unfold int_truediv.
    replace (oh =? 0) with false by (symmetry; apply Z.eqb_neq; exact Hoh).
    destruct oh as [|q|q]; [lia| |]; eexists; reflexivity. }
  split; [|split; [|split]].
  - intros ow tw th. reflexivity.
  - intros oh Hoh. destruct (Hzero oh Hoh) as (s & Hs).
    unfold calculate_new_dimensions. cbn [negb]. rewrite Hs. reflexivity.
  - intros oh th Hoh Hth. destruct (Hzero oh Hoh) as (s & Hs).
    pose proof (in_range_digits th Hth).
    destruct (of_int_normal th) as (x & Hx & Hnx);
      try (unfold in_range in *; lia).
    unfold calculate_new_dimensions. cbn [negb]. rewrite Hs. cbn [bind].
    rewrite (truthy_in_range th Hth). cbn [truthy negb andb the_int].
    unfold int_mul_float. rewrite Hx. cbn [bind].
    destruct x as [| | |sx mx ex]; cbn [normal_in] in Hnx;
      [contradiction..|reflexivity].
  - intros oh tw Hoh Htw. destruct (Hzero oh Hoh) as (s & Hs).
    pose proof (in_range_digits tw Htw).
    destruct (of_int_normal tw) as (x & Hx & Hnx);
      try (unfold in_range in *; lia).
    unfold calculate_new_dimensions. cbn [negb]. rewrite Hs. cbn [bind].
    rewrite (truthy_in_range tw Htw). cbn [truthy negb andb the_int].
    unfold int_div_float. rewrite Hx. reflexivity.
Qed.

Lemma calculate_new_dimensions_zero_original_witness :
  5 <> 0 /\ in_range 300
  /\ calculate_new_dimensions 0 5 None (Some 300) true
     = Ok {| width := 0; height := 300 |}.
Proof.
  assert (H5 : 5 <> 0) by discriminate.
  assert (H3 : in_range 300) by (split; reflexivity).
  repeat (split; [assumption|]).
  exact (proj1 (proj2 (proj2 calculate_new_dimensions_zero_original))
           5 300 H5 H3).
Defined.




(** The integer chosen by [round] is a nearest one. *)
Lemma round_half_even_div_nearest (a b : Z) :
  0 < b -> 2 * Z.abs (a - b * round_half_even_div a b) <= b.
Proof.
  intros Hb. unfold round_half_even_div.
  pose proof (Z.div_mod a b ltac:(lia)) as Hdm.
  pose proof (Z.mod_pos_bound a b Hb) as Hr.
  destruct (Z.compare_spec (2 * (a mod b)) b) as [He|Hl|Hg];
    [destruct (Z.even (a / b))| |]; nia.
Qed.



(** Beyond the range of a double the integer division itself raises, in the
    resolver as in [pixels_to_inches]. *)
Lemma int_truediv_overflow :
  calculate_new_dimensions (2 ^ 1024) 1 None None true
  = Raise (Exn OverflowError "integer division result too large for a float")
  /\ pixels_to_inches (2 ^ 1024) 1
  = Raise (Exn OverflowError "integer division result too large for a float").
Proof. split; vm_compute; reflexivity. Qed.

End ResolverClaims.

(** ** Running the effectful models *)

Ltac run_eff :=
  cbv [Eff.run Eff.try_except Eff.bind Eff.ret Eff.emit Eff.lift Eff.raise
       imwrite getStructuringElement cv2_resize model_enhance pil_save].

Ltac split_branches :=
  repeat (cbn [fst snd app];
          match goal with
          | |- context [match ?x with _ => _ end] =>
              lazymatch x with
              | context [match _ with _ => _ end] => fail
              | _ => destruct x eqn:?
              end
          end).

Ltac kernels_ok :=
  cbn [fst snd app];
  repeat (apply Forall_cons || apply Forall_nil);
  cbn [kernel_within]; try exact I; lia.

(** ** Outline extraction *)

Section OutlineClaims.

Import OutlineExtractor.

Lemma invert_and_binarize_map (edges : gray) :
  invert_and_binarize edges
  = map (map (fun p => if Z.lxor p 255 >? 127 then 255 else 0)) edges.
Proof.
  unfold invert_and_binarize, threshold, bitwise_not.
  rewrite map_map. apply map_ext. intros row. apply map_map.
Qed.

(** C5, as stated, fails: on the edge mask [[0; 255]] the step gives
    [[255; 0]], and applied to that output it gives [[0; 255]] back. *)
Lemma invert_and_binarize_not_idempotent :
  invert_and_binarize [[0; 255]] = [[255; 0]]
  /\ invert_and_binarize (invert_and_binarize [[0; 255]]) = [[0; 255]]
  /\ invert_and_binarize (invert_and_binarize [[0; 255]])
     <> invert_and_binarize [[0; 255]].
Proof. repeat split; vm_compute; discriminate. Qed.

(** C5, amended: the output of the invert-then-threshold step is a pure
    two-valued image (every sample is 0 or 255), so thresholding it again at
    127 reproduces it; applying the whole step again, inversion included,
    yields the inverted image, and a third application reproduces the first
    output. *)
Theorem invert_and_binarize_two_valued (edges : gray) :
  Forall (Forall (fun p => p = 0 \/ p = 255)) (invert_and_binarize edges)
  /\ threshold (invert_and_binarize edges) 127 255 = invert_and_binarize edges
  /\ invert_and_binarize (invert_and_binarize edges)
     = bitwise_not (invert_and_binarize edges)
  /\ invert_and_binarize (invert_and_binarize (invert_and_binarize edges))
     = invert_and_binarize edges.
Proof.
  split; [|split; [|split]].
  - rewrite invert_and_binarize_map.
    apply Forall_map, Forall_forall. intros row _.
    apply Forall_map, Forall_forall. intros p _.
    destruct (Z.lxor p 255 >? 127); [right|left]; reflexivity.
  - rewrite invert_and_binarize_map. unfold threshold.
    rewrite map_map. apply map_ext. intros row.
    rewrite map_map. apply map_ext. intros p.
    destruct (Z.lxor p 255 >? 127); reflexivity.
  - rewrite !invert_and_binarize_map. unfold bitwise_not.
    rewrite !map_map. apply map_ext. intros row.
    rewrite !map_map. apply map_ext. intros p.
    destruct (Z.lxor p 255 >? 127); reflexivity.
  - rewrite !invert_and_binarize_map.
    rewrite !map_map. apply map_ext. intros row.
    rewrite !map_map. apply map_ext. intros p.
    destruct (Z.lxor p 255 >? 127); reflexivity.
Qed.

Lemma clamp_idempotent (t : Z) :
  Z.max 1 (Z.min 5 (Z.max 1 (Z.min 5 t))) = Z.max 1 (Z.min 5 t).
Proof. lia. Qed.

(** C4: in each of the three extraction variants the requested thickness is
    clamped to [1, 5] before anything else happens. A request of 7 runs
    exactly as a request of 5 and a request of -3 exactly as a request of 1
    (same result, same calls and same file written), any request runs as its
    clamped value, and every structuring element that is built has both sides
    between 1 and 5. *)
Theorem thickness_always_clamped {ops : Ops} (self : OutlineExtractor.t)
    (input_path output_path : string) :
  (extract_outline self input_path output_path (Some 7)
     = extract_outline self input_path output_path (Some 5)
   /\ extract_outline self input_path output_path (Some (-3))
     = extract_outline self input_path output_path (Some 1)
   /\ (forall t,
        extract_outline self input_path output_path (Some t)
        = extract_outline self input_path output_path
            (Some (Z.max 1 (Z.min 5 t))))
   /\ (forall t,
        Forall (kernel_within 1 5)
          (snd (Eff.run (extract_outline self input_path output_path t)))))
  /\ (forall auto,
       extract_outline_advanced self input_path output_path (Some 7) auto
         = extract_outline_advanced self input_path output_path (Some 5) auto
       /\ extract_outline_advanced self input_path output_path (Some (-3)) auto
         = extract_outline_advanced self input_path output_path (Some 1) auto
       /\ (forall t,
            extract_outline_advanced self input_path output_path (Some t) auto
            = extract_outline_advanced self input_path output_path
                (Some (Z.max 1 (Z.min 5 t))) auto)
       /\ (forall t,
            Forall (kernel_within 1 5)
              (snd (Eff.run (extract_outline_advanced self input_path
                               output_path t auto)))))
  /\ (forall level,
       extract_outline_with_detail self input_path output_path (Some 7) level
         = extract_outline_with_detail self input_path output_path (Some 5) level
       /\ extract_outline_with_detail self input_path output_path (Some (-3)) level
         = extract_outline_with_detail self input_path output_path (Some 1) level
       /\ (forall t,
            extract_outline_with_detail self input_path output_path (Some t) level
            = extract_outline_with_detail self input_path output_path
                (Some (Z.max 1 (Z.min 5 t))) level)
       /\ (forall t,
            Forall (kernel_within 1 5)
              (snd (Eff.run (extract_outline_with_detail self input_path
                               output_path t level))))).
Proof.
  split; [|split].
  - split; [reflexivity|]. split; [reflexivity|]. split.
    + intros t. unfold extract_outline. cbn zeta.
      rewrite clamp_idempotent. reflexivity.
    + intros t. unfold extract_outline. cbn zeta.
      set (c := Z.max 1 (Z.min 5 _)).
      assert (Hc : 1 <= c <= 5) by (unfold c; lia). clearbody c.
      run_eff. split_branches; kernels_ok.
  - intros auto. split; [reflexivity|]. split; [reflexivity|]. split.
    + intros t. unfold extract_outline_advanced. cbn zeta.
      rewrite clamp_idempotent. reflexivity.
    + intros t. unfold extract_outline_advanced. cbn zeta.
      set (c := Z.max 1 (Z.min 5 _)).
      assert (Hc : 1 <= c <= 5) by (unfold c; lia). clearbody c.
      run_eff. split_branches; kernels_ok.
  - intros level. split; [reflexivity|]. split; [reflexivity|]. split.
    + intros t. unfold extract_outline_with_detail. cbn zeta.
      rewrite clamp_idempotent. reflexivity.
    + intros t. unfold extract_outline_with_detail. cbn zeta.
      set (c := Z.max 1 (Z.min 5 _)).
      assert (Hc : 1 <= c <= 5) by (unfold c; lia). clearbody c.
      run_eff. split_branches; kernels_ok.
Qed.

Lemma shape_map_map (f : Z -> Z) (g : gray) : shape (map (map f) g) = shape g.
Proof.
  unfold shape. rewrite length_map. destruct g as [|row g]; cbn [map hd].
  - reflexivity.
  - rewrite length_map. reflexivity.
Qed.


Lemma stub_ops_spec (files : string -> option gray) : OpsSpec (stub_ops files).
Proof. constructor; reflexivity. Qed.



End OutlineClaims.

(** ** Enhancement *)

Section EnhanceClaims.

Import ImageProcessor RealESRGANModel.

(** C7: whenever the target is larger than the upscaled image in either
    axis the resize is done with [INTER_CUBIC], and when it is strictly
    smaller in both axes with [INTER_AREA]; in both cases exactly one resize
    to the target size is performed. *)
Theorem resize_to_target_interpolation {ops : Ops} (upscaled_img : bgr)
    (target_width target_height : Z) :
  (target_width > snd (bgr_shape upscaled_img)
   \/ target_height > fst (bgr_shape upscaled_img) ->
   Eff.run (resize_to_target upscaled_img target_width target_height)
     = (Ok (resize upscaled_img (target_width, target_height) INTER_CUBIC),
        [Resized upscaled_img (target_width, target_height) INTER_CUBIC]))
  /\ (target_width < snd (bgr_shape upscaled_img)
      /\ target_height < fst (bgr_shape upscaled_img) ->
      Eff.run (resize_to_target upscaled_img target_width target_height)
        = (Ok (resize upscaled_img (target_width, target_height) INTER_AREA),
           [Resized upscaled_img (target_width, target_height) INTER_AREA])).
Proof.
  unfold resize_to_target.
  destruct (bgr_shape upscaled_img) as [uh uw]. cbn [fst snd].
  split; intros H.
  - assert (Hup : (target_width >? uw) || (target_height >? uh) = true).
    { apply orb_true_iff. destruct H as [H|H]; [left|right];
        apply Z.gtb_lt; lia. }
    assert (Hne : negb (target_width =? uw) || negb (target_height =? uh)
                  = true).
    { apply orb_true_iff. destruct H as [H|H]; [left|right];
        apply negb_true_iff, Z.eqb_neq; lia. }
    rewrite Hne, Hup. reflexivity.
  - assert (Hup : (target_width >? uw) || (target_height >? uh) = false).
    { apply orb_false_iff. split;
        (destruct (_ >? _) eqn:E; [apply Z.gtb_lt in E; lia|reflexivity]). }
    assert (Hne : negb (target_width =? uw) || negb (target_height =? uh)
                  = true).
    { apply orb_true_iff. left. apply negb_true_iff, Z.eqb_neq. lia. }
    rewrite Hne, Hup. reflexivity.
Qed.

Lemma resize_to_target_interpolation_witness :
  ((3 > snd (@bgr_shape (stub_ops one_file) sample_image)
    \/ 1 > fst (@bgr_shape (stub_ops one_file) sample_image))
   /\ Eff.run (@resize_to_target (stub_ops one_file) sample_image 3 1)
      = (Ok sample_image,
         [@Resized (stub_ops one_file) sample_image (3, 1) INTER_CUBIC]))
  /\ ((1 < snd (@bgr_shape (stub_ops one_file) sample_image)
       /\ 1 < fst (@bgr_shape (stub_ops one_file) sample_image))
      /\ Eff.run (@resize_to_target (stub_ops one_file) sample_image 1 1)
         = (Ok sample_image,
            [@Resized (stub_ops one_file) sample_image (1, 1) INTER_AREA])).
Proof.
  assert (H : 3 > snd (@bgr_shape (stub_ops one_file) sample_image)
              \/ 1 > fst (@bgr_shape (stub_ops one_file) sample_image))
    by (left; reflexivity).
  assert (H' : 1 < snd (@bgr_shape (stub_ops one_file) sample_image)
               /\ 1 < fst (@bgr_shape (stub_ops one_file) sample_image))
    by (split; reflexivity).
  split; (split; [assumption|]).
  - exact (proj1 (@resize_to_target_interpolation (stub_ops one_file)
                    sample_image 3 1) H).
  - exact (proj2 (@resize_to_target_interpolation (stub_ops one_file)
                    sample_image 1 1) H').
Defined.

Lemma maintain_aspect_ratio_total (ow oh tw th : Z) (maintain_aspect : bool) :
  in_range ow -> in_range oh -> in_range tw -> in_range th ->
  exists w h,
    maintain_aspect_ratio ow oh tw th maintain_aspect = Ok (w, h).
Proof.
  intros How Hoh Htw Hth. unfold maintain_aspect_ratio.
  destruct (maintain_aspect && negb (tw =? 0) && negb (th =? 0));
    [|eexists; eexists; reflexivity].
  destruct (aspect_ratio_normal ow oh How Hoh) as (a & Ha & Hna).
  destruct (aspect_ratio_normal tw th Htw Hth) as (ta & Hta & _).
  destruct (aspect_ratio_normal tw ow Htw How) as (rw & Hrw & _).
  destruct (aspect_ratio_normal th oh Hth Hoh) as (rh & Hrh & _).
  rewrite Ha. cbn [bind]. rewrite Hta. cbn [bind].
  destruct (float_gt (float_abs (float_sub a ta)) lit_0_01);
    [|eexists; eexists; reflexivity].
  rewrite Hrw. cbn [bind]. rewrite Hrh. cbn [bind].
  destruct (float_gt rw rh).
  - destruct (int_mul_float_total th a Hth Hna) as (p & w & Hp & Hw).
    rewrite Hp. cbn [bind]. rewrite Hw. eexists; eexists; reflexivity.
  - destruct (int_div_float_total tw a Htw Hna) as (q & h & Hq & Hh).
    rewrite Hq. cbn [bind]. rewrite Hh. eexists; eexists; reflexivity.
Qed.

(** C6, as stated, fails: once the processor has been cleaned up its model
    reports not loaded, and a request whose input cannot be decoded then
    fails with the read error, not with the model error. *)
Lemma unreadable_input_reported_first :
  model_unavailable (cleanup loaded_processor)
  /\ Eff.run (@enhance_image (stub_ops one_file) (cleanup loaded_processor)
                "missing.png" "out.png" (Some 400) None 72 72 true)
     = (Ok (Failure "Failed to read image from missing.png"), []).
Proof. split; reflexivity. Qed.

(** C6, amended: while the processor has no model or its model reports not
    loaded, every enhancement request returns a failure result and performs
    no inference, no resize and no write (so no output file and no fallback
    to plain resizing). The error is the model one when the processor has no
    model at all, and also when the model is present but not loaded and the
    input decodes (with sizes between 1 and 2^500); if the input does not
    decode, the read error is what a present but unloaded model reports. *)
Theorem enhance_image_model_unavailable {ops : Ops} (self : ImageProcessor.t)
    (input_path output_path : string) (target_width target_height : option Z)
    (ppi_horizontal ppi_vertical : Z) (maintain_aspect : bool) :
  (model_unavailable self ->
   exists err,
     Eff.run (enhance_image self input_path output_path target_width
                target_height ppi_horizontal ppi_vertical maintain_aspect)
       = (Ok (Failure err), []))
  /\ (esrgan_model self = None ->
      Eff.run (enhance_image self input_path output_path target_width
                 target_height ppi_horizontal ppi_vertical maintain_aspect)
        = (Ok (Failure "ESRGAN model not initialized"), []))
  /\ (forall m img,
        esrgan_model self = Some m -> model_loaded m = false ->
        imread input_path = Some img ->
        in_range (fst (bgr_shape img)) -> in_range (snd (bgr_shape img)) ->
        target_in_range target_width -> target_in_range target_height ->
        Eff.run (enhance_image self input_path output_path target_width
                   target_height ppi_horizontal ppi_vertical maintain_aspect)
          = (Ok (Failure "Model not loaded. Cannot perform upscaling."), []))
  /\ (forall m,
        esrgan_model self = Some m -> model_loaded m = false ->
        imread input_path = None ->
        Eff.run (enhance_image self input_path output_path target_width
                   target_height ppi_horizontal ppi_vertical maintain_aspect)
          = (Ok (Failure ("Failed to read image from " ++ input_path)), [])).
Proof.
  split; [|split; [|split]].
  - unfold model_unavailable, enhance_image.
    destruct (esrgan_model self) as [m|]; intros Hm;
      [|eexists; reflexivity].
    destruct (imread input_path) as [img|]; [|eexists; reflexivity].
    destruct (bgr_shape img) as [oh ow].
    unfold upscale_image. rewrite Hm. cbn [negb].
    run_eff.
    destruct (maintain_aspect_ratio _ _ _ _ _) as [[w h]|e];
      eexists; reflexivity.
  - intros Hnone. unfold enhance_image. rewrite Hnone. reflexivity.
  - intros m img Hsome Hm Him Hoh How Htw Hth.
    unfold enhance_image. rewrite Hsome, Him.
    destruct (bgr_shape img) as [oh ow]. cbn [fst snd] in Hoh, How.
    unfold upscale_image. rewrite Hm. cbn [negb].
    destruct (maintain_aspect_ratio_total ow oh
                (match target_width with None => ow | Some w => w end)
                (match target_height with None => oh | Some h => h end)
                maintain_aspect How Hoh) as (w & h & Hwh).
    { destruct target_width; [exact Htw|exact How]. }
    { destruct target_height; [exact Hth|exact Hoh]. }
    run_eff. rewrite Hwh. reflexivity.
  - intros m Hsome Hm Him.
    unfold enhance_image. rewrite Hsome, Him. reflexivity.
Qed.

Lemma enhance_image_model_unavailable_witness :
  model_unavailable (cleanup loaded_processor)
  /\ @imread (stub_ops one_file) "in.png" = Some sample_image
  /\ in_range (fst (@bgr_shape (stub_ops one_file) sample_image))
  /\ in_range (snd (@bgr_shape (stub_ops one_file) sample_image))
  /\ target_in_range (Some 400) /\ target_in_range None
  /\ Eff.run (@enhance_image (stub_ops one_file) (cleanup loaded_processor)
                "in.png" "out.png" (Some 400) None 72 72 true)
     = (Ok (Failure "Model not loaded. Cannot perform upscaling."), []).
Proof.
  assert (H1 : in_range (fst (@bgr_shape (stub_ops one_file) sample_image)))
    by (split; reflexivity).
  assert (H2 : in_range (snd (@bgr_shape (stub_ops one_file) sample_image)))
    by (split; reflexivity).
  assert (H3 : target_in_range (Some 400)) by (split; reflexivity).
  assert (H4 : target_in_range None) by exact I.
  split; [reflexivity|]. split; [reflexivity|].
  repeat (split; [assumption|]).
  exact (proj1 (proj2 (proj2
           (@enhance_image_model_unavailable (stub_ops one_file)
              (cleanup loaded_processor) "in.png" "out.png" (Some 400) None
              72 72 true)))
           _ sample_image eq_refl eq_refl eq_refl H1 H2 H3 H4).
Defined.

End EnhanceClaims.

(** ** Further properties of the dimension arithmetic *)

Section ResolverProperties.

Lemma quotient_or_below_bounds (n d r : Z) :
  0 < n -> 0 < d -> quotient_or_below n d r -> 0 <= r /\ r * d <= n.
Proof.
  intros Hn Hd Hq.
  pose proof (Z.div_mod n d ltac:(lia)) as Hdm.
  pose proof (Z.mod_pos_bound n d Hd) as Hr.
  assert (H0 : 0 <= n / d) by (apply Z.div_pos; lia).
  assert (Hm : n / d * d <= n) by (rewrite Z.mul_comm; lia).
  destruct Hq as [->|[Hz ->]].
  - split; assumption.
  - assert (Hpos : 1 <= n / d).
    { destruct (Z.eq_dec (n / d) 0) as [E|E]; [|lia].
      rewrite E, Hz in Hdm. lia. }
    split; [lia|].
    replace ((n / d - 1) * d) with (n / d * d - d) by ring. lia.
Qed.

Lemma pixel_size_product (a b : Z) : pixel_size a -> pixel_size b -> 0 < a * b.
Proof. intros [Ha _] [Hb _]. apply Z.mul_pos_pos; assumption. Qed.

(** A target of 0 is the same as no target: the resolver tests its targets
    for truth, so [0] and [None] take the same branch and give the same
    result (or the same error), with or without the aspect lock. *)
Theorem zero_target_is_no_target (ow oh : Z) (t : option Z) (m : bool) :
  calculate_new_dimensions ow oh (Some 0) t m
    = calculate_new_dimensions ow oh None t m
  /\ calculate_new_dimensions ow oh t (Some 0) m
    = calculate_new_dimensions ow oh t None m.
Proof.
  split; unfold calculate_new_dimensions;
    destruct m, t as [z|]; cbn [negb truthy py_or the_int andb];
    try reflexivity;
    destruct (z =? 0); reflexivity.
Qed.

(** With the aspect lock and both targets given (sizes between 1 and
    2^25 - 1) the resolver always succeeds and its result fits inside the
    requested box: neither side is negative or exceeds its target, and at
    least one side is the target itself. *)
Theorem calculate_new_dimensions_fits_box (ow oh tw th : Z) :
  pixel_size ow -> pixel_size oh -> pixel_size tw -> pixel_size th ->
  exists w h,
    calculate_new_dimensions ow oh (Some tw) (Some th) true
      = Ok {| width := w; height := h |}
    /\ 0 <= w <= tw /\ 0 <= h <= th /\ (w = tw \/ h = th).
Proof.
  intros How Hoh Htw Hth.
  pose proof (pixel_size_in_range _ Htw) as Htw'.
  pose proof (pixel_size_in_range _ Hth) as Hth'.
  destruct (aspect_ratio_normal tw th Htw' Hth') as (ta & Hta & _).
  destruct (ratio_comparison ow oh tw th How Hoh Htw Hth)
    as (rw & rh & Hrw & Hrh & Hgt & Hle).
  destruct (width_only_height ow oh tw How Hoh Htw)
    as (a & q & h & Ha & Hq & Hh & Hhv).
  destruct (height_only_width ow oh th How Hoh Hth)
    as (a' & p & w & Ha' & Hp & Hw & Hwv).
  rewrite Ha in Ha'. injection Ha' as <-.
  destruct (quotient_or_below_bounds _ _ _
              (pixel_size_product _ _ Htw Hoh) (proj1 How) Hhv) as [Hh0 Hhb].
  destruct (quotient_or_below_bounds _ _ _
              (pixel_size_product _ _ Hth How) (proj1 Hoh) Hwv) as [Hw0 Hwb].
  assert (Hcalc : calculate_new_dimensions ow oh (Some tw) (Some th) true
                  = if float_lt (float_abs (float_sub a ta)) lit_0_01
                    then Ok {| width := tw; height := th |}
                    else if float_gt rw rh
                         then Ok {| width := w; height := th |}
                         else Ok {| width := tw; height := h |}).
  { unfold calculate_new_dimensions. cbn [negb].
    rewrite Ha. cbn [bind].
    rewrite (truthy_in_range tw Htw'), (truthy_in_range th Hth').
    cbn [negb andb the_int]. rewrite Hta. cbn [bind].
    destruct (float_lt _ lit_0_01); [reflexivity|].
    rewrite Hrw. cbn [bind]. rewrite Hrh. cbn [bind].
    rewrite Hp, Hq. cbn [bind]. rewrite Hw, Hh. reflexivity. }
  rewrite Hcalc. destruct How as [How0 _], Hoh as [Hoh0 _],
    Htw as [Htw0 _], Hth as [Hth0 _].
  destruct (float_lt _ lit_0_01).
  - exists tw, th. split; [reflexivity|]. lia.
  - destruct (float_gt rw rh) eqn:Hcmp.
    + exists w, th. split; [reflexivity|].
      assert (Hc : th * ow <= tw * oh).
      { destruct (Z_le_gt_dec (th * ow) (tw * oh)) as [Hc|Hc]; [exact Hc|].
        apply Z.gt_lt in Hc. apply Hle in Hc. discriminate Hc. }
      assert (w <= tw).
      { apply Z.mul_le_mono_pos_r with (p := oh); [exact Hoh0|]. lia. }
      lia.
    + exists tw, h. split; [reflexivity|].
      assert (Hc : tw * oh <= th * ow).
      { destruct (Z_le_gt_dec (tw * oh) (th * ow)) as [Hc|Hc]; [exact Hc|].
        apply Z.gt_lt in Hc. apply Hgt in Hc. discriminate Hc. }
      assert (h <= th).
      { apply Z.mul_le_mono_pos_r with (p := ow); [exact How0|]. lia. }
      lia.
Qed.

Lemma calculate_new_dimensions_fits_box_witness :
  pixel_size 1000 /\ pixel_size 500 /\ pixel_size 400 /\ pixel_size 300
  /\ exists w h,
       calculate_new_dimensions 1000 500 (Some 400) (Some 300) true
         = Ok {| width := w; height := h |}
       /\ 0 <= w <= 400 /\ 0 <= h <= 300 /\ (w = 400 \/ h = 300).
Proof.
  assert (H10 : pixel_size 1000) by (split; reflexivity).
  assert (H5 : pixel_size 500) by (split; reflexivity).
  assert (H4 : pixel_size 400) by (split; reflexivity).
  assert (H3 : pixel_size 300) by (split; reflexivity).
  repeat (split; [assumption|]).
  exact (calculate_new_dimensions_fits_box 1000 500 400 300 H10 H5 H4 H3).
Defined.

Lemma SFltb_antisym (x y : float) : SFltb x y = true -> SFltb y x = false.
Proof.
  unfold SFltb.
  destruct x as [sx|sx| |sx mx ex], y as [sy|sy| |sy my ey];
    cbn [SFcompare]; try discriminate; try reflexivity;
    try (destruct sx; discriminate || reflexivity);
    try (destruct sy; discriminate || reflexivity);
    try (destruct sx, sy; discriminate || reflexivity).
  destruct sx, sy; try discriminate; try reflexivity;
    rewrite (Z.compare_antisym ex ey);
    destruct (ex ?= ey) eqn:E; cbn [CompOpp]; try discriminate;
      try reflexivity;
    change (Pos.compare_cont Eq my mx) with (Pos.compare my mx);
    change (Pos.compare_cont Eq mx my) with (Pos.compare mx my);
    rewrite (Pos.compare_antisym mx my);
    destruct (Pos.compare mx my); cbn [CompOpp];
      discriminate || reflexivity.
Qed.

(** The aspect-ratio block of [enhance_image] is a second copy of the
    both-targets branch of [calculate_new_dimensions]; it tests
    [abs(...) > 0.01] where the resolver tests [abs(...) < 0.01]. Whenever
    the difference of the two aspect ratios is strictly below or strictly
    above 0.01 the two copies return the same size or raise the same error.
    They part when the difference is exactly 0.01: for a 1x50 original and a
    (1, 100) target the block keeps (1, 100) and the resolver returns
    (1, 50). *)
Theorem maintain_aspect_ratio_matches_resolver :
  (forall ow oh tw th,
     tw <> 0 -> th <> 0 ->
     (forall a ta,
        int_truediv ow oh = Ok a -> int_truediv tw th = Ok ta ->
        float_lt (float_abs (float_sub a ta)) lit_0_01 = true
        \/ float_gt (float_abs (float_sub a ta)) lit_0_01 = true) ->
     ImageProcessor.maintain_aspect_ratio ow oh tw th true
     = (d <- calculate_new_dimensions ow oh (Some tw) (Some th) true ;;
        Ok (width d, height d)))
  /\ ImageProcessor.maintain_aspect_ratio 1 50 1 100 true = Ok (1, 100)
  /\ calculate_new_dimensions 1 50 (Some 1) (Some 100) true
     = Ok {| width := 1; height := 50 |}.
Proof.
  split; [|split; vm_compute; reflexivity].
  intros ow oh tw th Htw Hth Hne.
  unfold ImageProcessor.maintain_aspect_ratio, calculate_new_dimensions.
  cbn [negb andb truthy the_int].
  replace (tw =? 0) with false by (symmetry; apply Z.eqb_neq; exact Htw).
  replace (th =? 0) with false by (symmetry; apply Z.eqb_neq; exact Hth).
  cbn [negb andb].
  destruct (int_truediv ow oh) as [a|e] eqn:Ha; cbn [bind]; [|reflexivity].
  destruct (int_truediv tw th) as [ta|e] eqn:Hta; cbn [bind]; [|reflexivity].
  destruct (Hne a ta eq_refl eq_refl) as [Hlt|Hgt].
  - rewrite Hlt. unfold float_lt in Hlt. apply SFltb_antisym in Hlt.
    unfold float_gt at 1. rewrite Hlt. reflexivity.
  - rewrite Hgt. unfold float_gt in Hgt. apply SFltb_antisym in Hgt.
    unfold float_lt. rewrite Hgt.
    destruct (int_truediv tw ow) as [rw|e]; cbn [bind]; [|reflexivity].
    destruct (int_truediv th oh) as [rh|e]; cbn [bind]; [|reflexivity].
    destruct (float_gt rw rh).
    + destruct (int_mul_float th a) as [p|e]; cbn [bind]; [|reflexivity].
      destruct (py_int p); reflexivity.
    + destruct (int_div_float tw a) as [q|e]; cbn [bind]; [|reflexivity].
      destruct (py_int q); reflexivity.
Qed.

Lemma maintain_aspect_ratio_matches_resolver_witness :
  1000 <> 0 /\ 500 <> 0
  /\ ImageProcessor.maintain_aspect_ratio 1000 500 400 300 true
     = (d <- calculate_new_dimensions 1000 500 (Some 400) (Some 300) true ;;
        Ok (width d, height d)).
Proof.
  split; [discriminate|]. split; [discriminate|].
  apply (proj1 maintain_aspect_ratio_matches_resolver 1000 500 400 300).
  - discriminate.
  - discriminate.
  - intros a ta Ha Hta. vm_compute in Ha, Hta.
    injection Ha as <-. injection Hta as <-. right. reflexivity.
Defined.

(** The route [/api/calculate-dimensions] computes the other side as
    [int(new * (oh / ow))], where the resolver computes [int(new / (ow / oh))].
    For sizes between 1 and 2^25 - 1 each of the two is the floor of the
    exact quotient, or one less when the division is exact; so the route and
    the resolver differ by at most one pixel and agree whenever the division
    is inexact; for a 900x700 original and a new width of 1080 the route
    answers 840 and the resolver 839. Any [changed_dimension] other than
    ["width"] is taken as the height. An original width of 0 gives status
    500 and the message of the division. *)
Theorem calculate_dimensions_accuracy :
  (forall ow oh nv, pixel_size ow -> pixel_size oh -> pixel_size nv ->
     exists h h',
       App.calculate_dimensions ow oh "width" nv
         = ([("width", PyInt nv); ("height", PyInt h)], 200)
       /\ quotient_or_below (nv * oh) ow h
       /\ calculate_new_dimensions ow oh (Some nv) None true
          = Ok {| width := nv; height := h' |}
       /\ Z.abs (h - h') <= 1
       /\ ((nv * oh) mod ow <> 0 -> h = h'))
  /\ (forall ow oh nv changed,
        pixel_size ow -> pixel_size oh -> pixel_size nv ->
        changed <> "width" ->
        exists w w',
          App.calculate_dimensions ow oh changed nv
            = ([("width", PyInt w); ("height", PyInt nv)], 200)
          /\ quotient_or_below (nv * ow) oh w
          /\ calculate_new_dimensions ow oh None (Some nv) true
             = Ok {| width := w'; height := nv |}
          /\ w = w')
  /\ (forall oh nv,
        App.calculate_dimensions 0 oh "width" nv
        = ([("error", PyStr "division by zero")], 500))
  /\ App.calculate_dimensions 900 700 "width" 1080
     = ([("width", PyInt 1080); ("height", PyInt 840)], 200)
  /\ calculate_new_dimensions 900 700 (Some 1080) None true
     = Ok {| width := 1080; height := 839 |}.
Proof.
  split; [|split; [|split; [|split; vm_compute; reflexivity]]].
  - intros ow oh nv How Hoh Hnv.
    destruct (height_only_width oh ow nv Hoh How Hnv)
      as (a & p & h & Ha & Hp & Hh & Hhv).
    destruct (width_only_height ow oh nv How Hoh Hnv)
      as (a' & q & h' & Ha' & Hq & Hh' & Hhv').
    exists h, h'. split; [|split; [exact Hhv|split; [|split]]].
    + unfold App.calculate_dimensions. cbn [String.eqb Ascii.eqb Bool.eqb].
      rewrite Ha. cbn [bind]. rewrite Hp. cbn [bind]. rewrite Hh.
      reflexivity.
    + unfold calculate_new_dimensions. cbn [negb].
      rewrite Ha'. cbn [bind].
      rewrite (truthy_in_range nv (pixel_size_in_range nv Hnv)).
      cbn [truthy negb andb the_int].
      rewrite Hq. cbn [bind]. rewrite Hh'. reflexivity.
    + unfold quotient_or_below in Hhv, Hhv'.
      destruct Hhv as [->|[_ ->]], Hhv' as [->|[_ ->]]; lia.
    + intros Hne. unfold quotient_or_below in Hhv, Hhv'.
      destruct Hhv as [->|[Hz _]], Hhv' as [->|[Hz' _]];
        try reflexivity; contradiction.
  - intros ow oh nv changed How Hoh Hnv Hch.
    destruct (height_only_width ow oh nv How Hoh Hnv)
      as (a & p & w & Ha & Hp & Hw & Hwv).
    exists w, w. split; [|split; [exact Hwv|split; [|reflexivity]]].
    + unfold App.calculate_dimensions.
      replace (String.eqb changed "width") with false
        by (symmetry; apply String.eqb_neq; exact Hch).
      rewrite Ha. cbn [bind]. rewrite Hp. cbn [bind]. rewrite Hw.
      reflexivity.
    + unfold calculate_new_dimensions. cbn [negb].
      rewrite Ha. cbn [bind].
      rewrite (truthy_in_range nv (pixel_size_in_range nv Hnv)).
      cbn [truthy negb andb the_int].
      rewrite Hp. cbn [bind]. rewrite Hw. reflexivity.
  - intros oh nv. reflexivity.
Qed.

Lemma calculate_dimensions_accuracy_witness :
  pixel_size 900 /\ pixel_size 700 /\ pixel_size 1080
  /\ exists h h',
       App.calculate_dimensions 900 700 "width" 1080
         = ([("width", PyInt 1080); ("height", PyInt h)], 200)
       /\ quotient_or_below (1080 * 700) 900 h
       /\ calculate_new_dimensions 900 700 (Some 1080) None true
          = Ok {| width := 1080; height := h' |}
       /\ Z.abs (h - h') <= 1
       /\ ((1080 * 700) mod 900 <> 0 -> h = h').
Proof.
  assert (H9 : pixel_size 900) by (split; reflexivity).
  assert (H7 : pixel_size 700) by (split; reflexivity).
  assert (H1 : pixel_size 1080) by (split; reflexivity).
  repeat (split; [assumption|]).
  exact (proj1 calculate_dimensions_accuracy 900 700 1080 H9 H7 H1).
Defined.

End ResolverProperties.

(** ** Further properties of the outline extraction *)

Section OutlineProperties.

Import OutlineExtractor.









(** The detail level ["medium"], and any level that is neither ["low"] nor
    ["high"], produces exactly the outline of [extract_outline]: the same
    image is written to the same path (only the encoder flags differ). *)
Theorem detail_medium_is_extract_outline {ops : Ops}
    (self : OutlineExtractor.t) (input_path output_path : string)
    (thickness : option Z) (level : string) :
  level <> "low" -> level <> "high" ->
  saved_images (snd (Eff.run (extract_outline_with_detail self input_path
                                output_path thickness level)))
  = saved_images (snd (Eff.run (extract_outline self input_path output_path
                                  thickness))).
Proof.
  intros Hlow Hhigh.
  unfold extract_outline_with_detail, extract_outline. cbn zeta.
  replace (String.eqb level "low") with false
    by (symmetry; apply String.eqb_neq; exact Hlow).
  replace (String.eqb level "high") with false
    by (symmetry; apply String.eqb_neq; exact Hhigh).
  run_eff. split_branches; reflexivity.
Qed.

Lemma detail_medium_is_extract_outline_witness :
  "medium" <> "low" /\ "medium" <> "high"
  /\ saved_images (snd (Eff.run (@extract_outline_with_detail
                                   (stub_ops one_file) default_extractor
                                   "in.png" "out.jpg" (Some 2) "medium")))
     = saved_images (snd (Eff.run (@extract_outline (stub_ops one_file)
                                     default_extractor "in.png" "out.jpg"
                                     (Some 2)))).
Proof.
  split; [discriminate|]. split; [discriminate|].
  apply (@detail_medium_is_extract_outline (stub_ops one_file));
    discriminate.
Defined.

(** [preview_outline] returns an image exactly when the input can be
    decoded, and that image has the height and width of the input (for
    filters that keep the size of their source). *)
Theorem preview_outline_shape {ops : Ops} (spec : OpsSpec ops)
    (self : OutlineExtractor.t) (input_path : string) :
  match preview_outline self input_path with
  | Some outline =>
      exists img, imread input_path = Some img
                  /\ shape outline = bgr_shape img
  | None => imread input_path = None
  end.
Proof.
  unfold preview_outline.
  destruct (imread input_path) as [img|]; [|reflexivity].
  exists img. split; [reflexivity|].
  unfold bitwise_not. rewrite shape_map_map.
  rewrite Canny_shape, GaussianBlur_shape. apply cvtColor_shape.
Qed.

End OutlineProperties.

Lemma preview_outline_shape_witness :
  match @OutlineExtractor.preview_outline (stub_ops one_file)
          default_extractor "in.png" with
  | Some outline =>
      exists img, @imread (stub_ops one_file) "in.png" = Some img
                  /\ shape outline = @bgr_shape (stub_ops one_file) img
  | None => @imread (stub_ops one_file) "in.png" = None
  end.
Proof.
  exact (@preview_outline_shape (stub_ops one_file) (stub_ops_spec one_file)
           default_extractor "in.png").
Defined.

(** ** Further properties of the enhancement *)

Section EnhanceProperties.

Import ImageProcessor RealESRGANModel.




Lemma saved_images_app {ops : Ops} (a b : list event) :
  saved_images (a ++ b) = (saved_images a ++ saved_images b)%list.
Proof. apply flat_map_app. Qed.








(** [cleanup] is idempotent. For a processor whose model object is present
    whenever it reports loaded (as [__init__] leaves it), [cleanup] leaves
    the model unavailable, and [upscale_only] then fails without running or
    writing anything. *)
Theorem cleanup_makes_model_unavailable {ops : Ops} (self : ImageProcessor.t)
    (input_path output_path : string) (scale_factor : option Z) :
  cleanup (cleanup self) = cleanup self
  /\ ((forall m, esrgan_model self = Some m ->
                 model_loaded m = true -> model m = true) ->
      model_unavailable (cleanup self)
      /\ exists err,
           Eff.run (upscale_only (cleanup self) input_path output_path
                      scale_factor)
             = (Ok (Failure err), [])).
Proof.
  split.
  - unfold cleanup, unload_model.
    destruct (esrgan_model self) as [m|] eqn:Hsome; cbn [esrgan_model].
    + destruct (model m) eqn:Hmod; cbn [esrgan_model model];
        [reflexivity|]. rewrite Hmod. reflexivity.
    + rewrite Hsome. reflexivity.
  - intros Hinv.
    assert (Hun : model_unavailable (cleanup self)).
    { unfold model_unavailable, cleanup, unload_model.
      destruct (esrgan_model self) as [m|] eqn:Hsome; cbn [esrgan_model].
      - destruct (model m) eqn:Hmod; cbn [model_loaded]; [reflexivity|].
        destruct (model_loaded m) eqn:Hl; [|reflexivity].
        rewrite (Hinv m eq_refl Hl) in Hmod. discriminate Hmod.
      - rewrite Hsome. exact I. }
    split; [exact Hun|].
    unfold model_unavailable in Hun. unfold upscale_only.
    destruct (esrgan_model (cleanup self)) as [m|]; [|eexists; reflexivity].
    unfold upscale_image. rewrite Hun. eexists; reflexivity.
Qed.





Lemma cleanup_makes_model_unavailable_witness :
  (forall m, esrgan_model loaded_processor = Some m ->
             model_loaded m = true -> model m = true)
  /\ model_unavailable (cleanup loaded_processor)
  /\ exists err,
       Eff.run (@upscale_only (stub_ops one_file) (cleanup loaded_processor)
                  "in.png" "out.png" None)
         = (Ok (Failure err), []).
Proof.
  assert (H : forall m, esrgan_model loaded_processor = Some m ->
                        model_loaded m = true -> model m = true).
  { intros m Hm _. injection Hm as <-. reflexivity. }
  split; [exact H|].
  exact (proj2 (@cleanup_makes_model_unavailable (stub_ops one_file)
                  loaded_processor "in.png" "out.png" None) H).
Defined.

End EnhanceProperties.

(** ** Upload checks and file housekeeping *)

Section AppProperties.

Import App.

Lemma cut_last_dot_no_dot (s : string) :
  has_dot s = false -> cut_last_dot s = None.
Proof.
  induction s as [|c r IH]; cbn [has_dot cut_last_dot]; [reflexivity|].
  intros H. apply orb_false_iff in H. destruct H as [Hc Hr].
  rewrite (IH Hr), Hc. reflexivity.
Qed.

Lemma cut_last_dot_append (stem ext : string) :
  has_dot ext = false ->
  cut_last_dot (stem ++ "." ++ ext) = Some (stem, ext).
Proof.
  intros Hext. induction stem as [|c r IH].
  - cbn [String.append cut_last_dot]. rewrite (cut_last_dot_no_dot ext Hext).
    reflexivity.
  - cbn [String.append cut_last_dot]. cbn [String.append] in IH.
    rewrite IH. reflexivity.
Qed.

Lemma has_dot_append (stem ext : string) :
  has_dot (stem ++ "." ++ ext) = true.
Proof.
  induction stem as [|c r IH]; cbn [String.append has_dot].
  - reflexivity.
  - cbn [String.append] in IH. rewrite IH. apply orb_true_r.
Qed.

Lemma cut_last_dot_sound (s a b : string) :
  cut_last_dot s = Some (a, b) -> s = a ++ "." ++ b /\ has_dot b = false.
Proof.
  revert a b. induction s as [|c r IH]; intros a b; cbn [cut_last_dot];
    [discriminate|].
  destruct (cut_last_dot r) as [[a' b']|] eqn:E.
  - intros H. injection H as <- <-. destruct (IH a' b' eq_refl) as [-> Hb].
    split; [reflexivity|exact Hb].
  - destruct (Ascii.eqb c ".") eqn:Ec; [|discriminate].
    intros H. injection H as <- <-. apply Ascii.eqb_eq in Ec. subst c.
    split; [reflexivity|].
    clear IH. induction r as [|c r IH]; [reflexivity|].
    cbn [cut_last_dot] in E. cbn [has_dot].
    destruct (cut_last_dot r) as [[a' b']|]; [discriminate|].
    destruct (Ascii.eqb c "."); [discriminate|].
    cbn [orb]. apply IH. reflexivity.
Qed.

(** [allowed_file] looks at what follows the LAST dot only, without regard
    to case: a name [stem.ext] whose [ext] has no dot is allowed exactly when
    the lower-cased [ext] is in the allowed set, whatever [stem] contains; a
    name without a dot is refused; and every allowed name has that form. *)
Theorem allowed_file_last_extension (allowed : list string) :
  (forall stem ext,
     has_dot ext = false ->
     allowed_file allowed (stem ++ "." ++ ext) = str_in (lower ext) allowed)
  /\ (forall name, has_dot name = false -> allowed_file allowed name = false)
  /\ (forall name,
        allowed_file allowed name = true ->
        exists stem ext,
          name = stem ++ "." ++ ext /\ has_dot ext = false
          /\ str_in (lower ext) allowed = true).
Proof.
  split; [|split].
  - intros stem ext Hext. unfold allowed_file, rsplit_dot_1.
    rewrite has_dot_append, (cut_last_dot_append stem ext Hext).
    reflexivity.
  - intros name Hname. unfold allowed_file. rewrite Hname. reflexivity.
  - intros name H. unfold allowed_file, rsplit_dot_1 in H.
    apply andb_true_iff in H. destruct H as [_ H].
    destruct (cut_last_dot name) as [[a b]|] eqn:E; [|discriminate H].
    destruct (cut_last_dot_sound name a b E) as [-> Hb].
    exists a, b. repeat split; assumption.
Qed.

Lemma allowed_file_last_extension_witness :
  has_dot "PNG" = false
  /\ allowed_file ALLOWED_EXTENSIONS ("photo.final" ++ "." ++ "PNG")
     = str_in (lower "PNG") ALLOWED_EXTENSIONS
  /\ has_dot "exe" = false
  /\ allowed_file ALLOWED_EXTENSIONS ("photo.png" ++ "." ++ "exe")
     = str_in (lower "exe") ALLOWED_EXTENSIONS.
Proof.
  split; [reflexivity|]. split.
  - exact (proj1 (allowed_file_last_extension ALLOWED_EXTENSIONS)
             "photo.final" "PNG" eq_refl).
  - split; [reflexivity|].
    exact (proj1 (allowed_file_last_extension ALLOWED_EXTENSIONS)
             "photo.png" "exe" eq_refl).
Defined.

End AppProperties.

Section FileProperties.

Import ImageFiles.

(** [validate_image] never raises and answers [{'valid': True}] exactly when
    all four checks pass: the file exists, its suffix without the dot is an
    allowed extension, PIL verifies it, and its size can be read and does
    not exceed the configured maximum. In every other case the answer is
    [{'valid': False, 'error': ...}]; a missing file is reported as such
    before anything else is looked at. *)
Theorem validate_image_accepts_iff {ops : Ops} {fs : Fs}
    (self : ImageFiles.t) (image_path : string) :
  (validate_image self image_path = [("valid", PyBool true)]
   <-> path_exists image_path = true
       /\ str_in (remove_dots (path_suffix_lower image_path))
                 (allowed_extensions self) = true
       /\ (exists u, pil_verify image_path = Ok u)
       /\ exists size, getsize image_path = Ok size /\ size <= max_size self)
  /\ (validate_image self image_path = [("valid", PyBool true)]
      \/ exists msg,
           validate_image self image_path
           = [("valid", PyBool false); ("error", PyStr msg)])
  /\ (path_exists image_path = false ->
      validate_image self image_path
      = [("valid", PyBool false); ("error", PyStr "File does not exist")]).
Proof.
  unfold validate_image, max_size.
  destruct (path_exists image_path) eqn:Hex; cbn [negb].
  2:{ split; [|split].
      - split; [discriminate|]. intros (H & _). discriminate H.
      - right. eexists. reflexivity.
      - reflexivity. }
  destruct (str_in _ (allowed_extensions self)) eqn:Hext; cbn [negb].
  2:{ split; [|split].
      - split; [discriminate|]. intros (_ & H & _). discriminate H.
      - right. eexists. reflexivity.
      - discriminate. }
  destruct (pil_verify image_path) as [u|e] eqn:Hv.
  2:{ split; [|split].
      - split; [discriminate|]. intros (_ & _ & (u & H) & _). discriminate H.
      - right. eexists. reflexivity.
      - discriminate. }
  destruct (getsize image_path) as [size|e] eqn:Hsz; cbn [bind].
  2:{ split; [|split].
      - split; [discriminate|].
        intros (_ & _ & _ & (size & H & _)). discriminate H.
      - right. eexists. reflexivity.
      - discriminate. }
  set (mx := match max_content_length self with
             | Some m => m
             | None => 50 * 1024 * 1024
             end).
  destruct (size >? mx) eqn:Hgt.
  - apply Z.gtb_lt in Hgt.
    split; [|split].
    + split.
      * destruct (int_truediv mx (1024 * 1024)); cbn [bind]; discriminate.
      * intros (_ & _ & _ & (size' & H & Hle)). injection H as <-. lia.
    + right. destruct (int_truediv mx (1024 * 1024)); cbn [bind];
        eexists; reflexivity.
    + discriminate.
  - assert (Hle : size <= mx).
    { destruct (Z_le_gt_dec size mx) as [H|H]; [exact H|].
      apply Z.gt_lt, Z.gtb_lt in H. rewrite H in Hgt. discriminate Hgt. }
    split; [|split].
    + split; [|reflexivity]. intros _.
      split; [reflexivity|]. split; [reflexivity|].
      split; [exists u; reflexivity|]. exists size. split; [reflexivity|exact Hle].
    + left. reflexivity.
    + discriminate.
Qed.

Lemma cleanup_loop_step (cutoff_time : float) (f : dir_entry)
    (rest : list dir_entry) (removed_count : Z) (tr : list fs_event) :
  stat_ok f ->
  cleanup_loop cutoff_time (f :: rest) removed_count tr
  = if deletable cutoff_time f
    then cleanup_loop cutoff_time rest (removed_count + 1)
           (tr ++ [Unlinked (entry_path f)])%list
    else cleanup_loop cutoff_time rest removed_count tr.
Proof.
  intros Hf. unfold stat_ok in Hf. unfold deletable.
  cbn [cleanup_loop].
  cbv [Eff.try_except Eff.bind Eff.lift Eff.emit Eff.ret].
  destruct (is_file f); cbn [andb]; [|reflexivity].
  destruct (Hf eq_refl) as (mtime & Hm). rewrite Hm.
  destruct (float_lt mtime cutoff_time); cbn [andb]; [|reflexivity].
  destruct (unlink f); reflexivity.
Qed.

Lemma cleanup_loop_ok (cutoff_time : float) (entries : list dir_entry) :
  Forall stat_ok entries ->
  forall removed_count tr,
    cleanup_loop cutoff_time entries removed_count tr
    = (Ok (removed_count
           + Z.of_nat (List.length (filter (deletable cutoff_time) entries))),
       (tr ++ map (fun f => Unlinked (entry_path f))
                  (filter (deletable cutoff_time) entries))%list).
Proof.
  induction 1 as [|f rest Hf _ IH]; intros n tr.
  - cbn. rewrite Z.add_0_r, app_nil_r. reflexivity.
  - rewrite (cleanup_loop_step _ _ _ _ _ Hf). cbn [filter].
    destruct (deletable cutoff_time f); rewrite IH; [|reflexivity].
    cbn [List.length map]. rewrite <- app_assoc. cbn [app].
    f_equal. f_equal. lia.
Qed.

Lemma cleanup_loop_stat_error (cutoff_time : float)
    (before : list dir_entry) (f : dir_entry) (after : list dir_entry)
    (e : exn) :
  Forall stat_ok before -> is_file f = true -> st_mtime f = Raise e ->
  forall removed_count tr,
    cleanup_loop cutoff_time (before ++ f :: after) removed_count tr
    = (Raise e,
       (tr ++ map (fun f => Unlinked (entry_path f))
                  (filter (deletable cutoff_time) before))%list).
Proof.
  intros Hbefore Hfile Hstat.
  induction Hbefore as [|g rest Hg _ IH]; intros n tr.
  - cbn [app cleanup_loop filter map]. rewrite app_nil_r.
    unfold Eff.bind at 1. rewrite Hfile, Hstat. reflexivity.
  - cbn [app]. rewrite (cleanup_loop_step _ _ _ _ _ Hg). cbn [filter].
    destruct (deletable cutoff_time g); rewrite IH; [|reflexivity].
    cbn [map]. rewrite <- app_assoc. reflexivity.
Qed.

(** [cleanup_old_files] removes exactly the regular files whose modification
    time is strictly below the cutoff [now - max_age_hours * 3600] and whose
    [unlink] succeeds, in directory order, and returns their number; other
    entries are left alone and a failed [unlink] does not stop the loop. A
    directory that does not exist gives 0. If [stat] raises on a file the
    loop stops there and the answer is [{'removed': 0, 'error': ...}], even
    though the files before it have been removed. *)
Theorem cleanup_old_files_removes_old_files (now : float)
    (max_age_hours : Z) :
  (Eff.run (cleanup_old_files now None max_age_hours)
   = (Ok [("removed", PyInt 0)], []))
  /\ (forall cutoff_time entries,
        float_sub_int now (max_age_hours * 3600) = Ok cutoff_time ->
        Forall stat_ok entries ->
        Eff.run (cleanup_old_files now (Some entries) max_age_hours)
        = (Ok [("removed",
                PyInt (Z.of_nat (List.length
                                   (filter (deletable cutoff_time) entries))))],
           map (fun f => Unlinked (entry_path f))
               (filter (deletable cutoff_time) entries)))
  /\ (forall cutoff_time before f after e,
        float_sub_int now (max_age_hours * 3600) = Ok cutoff_time ->
        Forall stat_ok before -> is_file f = true -> st_mtime f = Raise e ->
        Eff.run (cleanup_old_files now (Some (before ++ f :: after)%list)
                   max_age_hours)
        = (Ok [("removed", PyInt 0); ("error", PyStr (exn_msg e))],
           map (fun f => Unlinked (entry_path f))
               (filter (deletable cutoff_time) before))).
Proof.
  split; [reflexivity|]. split.
  - intros cutoff_time entries Hcut Hok.
    unfold cleanup_old_files, Eff.run, Eff.try_except.
    unfold Eff.bind at 1, Eff.lift at 1. rewrite Hcut.
    unfold Eff.bind at 1. rewrite (cleanup_loop_ok _ _ Hok). reflexivity.
  - intros cutoff_time before f after e Hcut Hok Hfile Hstat.
    unfold cleanup_old_files, Eff.run, Eff.try_except.
    unfold Eff.bind at 1, Eff.lift at 1. rewrite Hcut.
    unfold Eff.bind at 1.
    rewrite (cleanup_loop_stat_error _ _ _ _ _ Hok Hfile Hstat).
    reflexivity.
Qed.

Lemma cleanup_old_files_removes_old_files_witness :
  Forall stat_ok sample_directory
  /\ Eff.run (cleanup_old_files sample_now (Some sample_directory) 24)
     = (Ok [("removed", PyInt 1)], [Unlinked "old.png"]).
Proof.
  assert (Hok : Forall stat_ok sample_directory).
  { repeat constructor; intros _; eexists; reflexivity. }
  split; [exact Hok|].
  destruct (float_sub_int sample_now (24 * 3600)) as [cutoff_time|e] eqn:Hcut;
    [|discriminate Hcut].
  rewrite (proj1 (proj2 (cleanup_old_files_removes_old_files sample_now 24))
             cutoff_time sample_directory Hcut Hok).
  vm_compute in Hcut. injection Hcut as <-. reflexivity.
Defined.

End FileProperties.

(** ** Pixels and inches *)

Section InchProperties.

Lemma round_half_even_div_strict (a b : Z) :
  0 < b -> 2 * (a mod b) <> b ->
  2 * Z.abs (a - b * round_half_even_div a b) < b.
Proof.
  intros Hb Hne. unfold round_half_even_div.
  pose proof (Z.div_mod a b ltac:(lia)) as Hdm.
  pose proof (Z.mod_pos_bound a b Hb) as Hr.
  set (q := a / b) in *. set (r := a mod b) in *.
  destruct (Z.compare_spec (2 * r) b) as [He|Hl|Hg]; [contradiction| |].
  - replace (a - b * q) with r by lia. rewrite Z.abs_eq by lia. exact Hl.
  - replace (a - b * (q + 1)) with (r - b) by lia.
    rewrite Z.abs_neq by lia. lia.
Qed.

Lemma nearest_unique (a b k k' : Z) :
  0 < b -> 2 * Z.abs (a - b * k) < b -> 2 * Z.abs (a - b * k') <= b ->
  k' = k.
Proof.
  intros Hb H1 H2.
  assert (Hd : Z.abs (b * (k' - k)) < b).
  { replace (b * (k' - k)) with ((a - b * k) - (a - b * k')) by ring.
    pose proof (Z.abs_triangle (a - b * k) (- (a - b * k'))) as Ht.
    rewrite Z.abs_opp in Ht.
    replace (a - b * k + - (a - b * k')) with (a - b * k - (a - b * k'))
      in Ht by ring.
    lia. }
  rewrite Z.abs_mul, (Z.abs_eq b) in Hd by lia.
  destruct (Z.eq_dec k' k) as [E|E]; [exact E|exfalso].
  assert (1 <= Z.abs (k' - k)) by lia.
  assert (b * 1 <= b * Z.abs (k' - k)) by (apply Z.mul_le_mono_nonneg_l; lia).
  lia.
Qed.

(** Rounding the double nearest to [p / ppi] to two decimals: the integer
    number of hundredths obtained is within half a hundredth of the exact
    quotient. *)
Lemma hundredths_error (p ppi U c m B K : Z) :
  0 < p -> 0 < ppi -> 0 < c -> 0 < B -> U = B * c ->
  2 ^ 52 <= m -> 200 * p < 2 ^ 53 - 1 ->
  2 * Z.abs (p * U - m * c * ppi) <= c * ppi ->
  (100 * c * ppi < U)
  /\ (2 * Z.abs (100 * m - B * K) <= B ->
      2 * Z.abs (K * ppi - 100 * p) <= ppi)
  /\ (forall K', 2 * Z.abs (100 * p - ppi * K') < ppi ->
      2 * Z.abs (100 * m - B * K') < B).
Proof.
  intros Hp Hppi Hc HB HU Hm Hsz Henc.
  set (M := 2 ^ 53 - 1) in *.
  assert (HM : M = 2 * 2 ^ 52 - 1) by reflexivity.
  clearbody M.
  assert (HU0 : 0 < U) by (subst U; apply Z.mul_pos_pos; lia).
  assert (Hcp : 0 < c * ppi) by (apply Z.mul_pos_pos; lia).
  set (d := p * U - m * c * ppi) in *.
  (* c * ppi * M <= 2 * p * U *)
  assert (H1 : c * ppi * M <= 2 * (p * U)).
  { assert (Hmc : 2 ^ 52 * (c * ppi) <= m * (c * ppi))
      by (apply Z.mul_le_mono_nonneg_r; lia).
    assert (Hid : 2 * (p * U) = 2 * d + 2 * (m * (c * ppi)))
      by (unfold d; ring).
    rewrite HM. clear - Hmc Hid Henc Hcp.
    set (z := Z.abs d) in *. assert (- z <= d) by (unfold z; lia).
    clearbody z. lia. }
  assert (Hgap : 100 * c * ppi < U).
  { apply Z.mul_lt_mono_pos_r with (p := M); [lia|].
    assert (H2 : 100 * (c * ppi * M) <= 200 * p * U).
    { replace (200 * p * U) with (100 * (2 * (p * U))) by ring.
      apply Z.mul_le_mono_nonneg_l; [lia|exact H1]. }
    assert (H3 : 200 * p * U < M * U)
      by (apply Z.mul_lt_mono_pos_r; lia).
    replace (100 * c * ppi * M) with (100 * (c * ppi * M)) by ring.
    replace (U * M) with (M * U) by ring. lia. }
  split; [exact Hgap|]. split.
  - intros HK.
    assert (Hid : U * (K * ppi - 100 * p)
                  = c * ppi * (- (100 * m - B * K)) + 100 * (- d))
      by (unfold d; subst U; ring).
    assert (Ha : 2 * Z.abs (U * (K * ppi - 100 * p))
                 <= c * ppi * B + 100 * (c * ppi)).
    { rewrite Hid. apply abs_combination; try lia;
        rewrite Z.abs_opp; assumption. }
    rewrite Z.abs_mul, (Z.abs_eq U) in Ha by lia.
    replace (c * ppi * B) with (ppi * U) in Ha by (subst U; ring).
    set (D := Z.abs (K * ppi - 100 * p)) in *.
    destruct (Z_le_gt_dec (2 * D) ppi) as [Hle|Hgt]; [exact Hle|exfalso].
    assert (Hx : U * (ppi + 1) <= U * (2 * D))
      by (apply Z.mul_le_mono_nonneg_l; lia).
    clear - Hx Ha Hgap. clearbody D. lia.
  - intros K' HK'.
    assert (Hid : c * ppi * (100 * m - B * K')
                  = 100 * (- d) + U * (100 * p - ppi * K'))
      by (unfold d; subst U; ring).
    assert (HK'' : 2 * Z.abs (100 * p - ppi * K') <= ppi - 1) by lia.
    assert (Ha : 2 * Z.abs (c * ppi * (100 * m - B * K'))
                 <= 100 * (c * ppi) + U * (ppi - 1)).
    { rewrite Hid. apply abs_combination; try lia;
        rewrite Z.abs_opp; assumption. }
    rewrite Z.abs_mul, (Z.abs_eq (c * ppi)) in Ha by lia.
    set (D := Z.abs (100 * m - B * K')) in *.
    destruct (Z_lt_ge_dec (2 * D) B) as [Hlt|Hge]; [exact Hlt|exfalso].
    assert (Hx : c * ppi * B <= c * ppi * (2 * D))
      by (apply Z.mul_le_mono_nonneg_l; lia).
    replace (c * ppi * B) with (ppi * U) in Hx by (subst U; ring).
    clear - Hx Ha Hgap. clearbody D. lia.
Qed.


Lemma SFmul_comm (x y : float) : float_mul x y = float_mul y x.
Proof.
  unfold float_mul, SFmul.
  destruct x as [sx|sx| |sx mx ex], y as [sy|sy| |sy my ey];
    try reflexivity; rewrite ?(xorb_comm sx sy); try reflexivity.
  rewrite (Pos.mul_comm mx my), (Z.add_comm ex ey). reflexivity.
Qed.

Lemma py_round_hundredths (m : positive) (k : positive) :
  py_round (S754_finite false m (Zneg k)) 2
  = match round_half_even_div (Zpos m * 100) (2 ^ Zpos k) with
    | 0 => S754_zero false
    | Zpos n => SFdiv prec emax (of_Z_exact (Zpos n)) (of_Z_exact 100)
    | Zneg n => SFdiv prec emax (of_Z_exact (Zneg n)) (of_Z_exact 100)
    end.
Proof.
  unfold py_round. cbv zeta. change (10 ^ 2) with 100.
  destruct (round_half_even_div (Zpos m * 100) (2 ^ Zpos k)); reflexivity.
Qed.

Lemma int_truediv_hundredths (K : Z) :
  0 <= K < 2 ^ 1023 ->
  int_truediv K 100
  = Ok match K with
       | 0 => S754_zero false
       | Zpos n => SFdiv prec emax (of_Z_exact (Zpos n)) (of_Z_exact 100)
       | Zneg n => SFdiv prec emax (of_Z_exact (Zneg n)) (of_Z_exact 100)
       end.
Proof.
  intros HK.
  destruct (int_truediv_ok K 100 ltac:(discriminate)) as (f & Hf & Hfin).
  { rewrite Z.abs_eq by lia. lia. }
  rewrite Hf. unfold int_truediv in Hf.
  change (100 =? 0) with false in Hf. cbv iota in Hf.
  destruct K as [|p|p]; [| |lia].
  - cbn in Hf. symmetry. exact Hf.
  - destruct (SFdiv prec emax (of_Z_exact (Z.pos p)) (of_Z_exact 100));
      try (symmetry; exact Hf); discriminate Hf.
Qed.

Lemma pixels_to_inches_hundredths (pixels ppi : Z) :
  0 <= pixels < 2 ^ 25 -> pixel_size ppi ->
  exists K inches,
    pixels_to_inches pixels ppi = Ok (PyFloat inches)
    /\ int_truediv K 100 = Ok inches
    /\ 0 <= K
    /\ 2 * Z.abs (K * ppi - 100 * pixels) <= ppi
    /\ (forall K', 2 * Z.abs (100 * pixels - ppi * K') < ppi -> K = K').
Proof.
  intros Hp Hppi.
  assert (Hppi0 : 0 < ppi) by exact (proj1 Hppi).
  unfold pixels_to_inches.
  replace (ppi >? 0) with true by (symmetry; apply Z.gtb_lt; lia).
  destruct (Z.eq_dec pixels 0) as [->|Hp0].
  - exists 0, (S754_zero false).
    assert (Hz : int_truediv 0 ppi = Ok (S754_zero false)).
    { unfold int_truediv.
      replace (ppi =? 0) with false by (symmetry; apply Z.eqb_neq; lia).
      destruct ppi as [|q|q]; try lia. reflexivity. }
    rewrite Hz. split; [reflexivity|]. split; [reflexivity|].
    split; [lia|]. split; [rewrite Z.abs_eq; lia|].
    intros K' HK'. destruct (Z.eq_dec K' 0) as [E|E]; [symmetry; exact E|].
    exfalso. assert (ppi * 1 <= ppi * Z.abs K')
      by (apply Z.mul_le_mono_nonneg_l; lia).
    rewrite Z.mul_0_r, Z.sub_0_l, Z.abs_opp, Z.abs_mul, (Z.abs_eq ppi) in HK'
      by lia.
    lia.
  - assert (Hpp : 0 < pixels < 2 ^ 25) by lia.
    pose proof (small_digits pixels Hpp) as Hdp.
    pose proof (small_digits ppi Hppi) as Hdq.
    destruct (int_truediv_enclosure pixels ppi Hpp Hppi)
      as (m & n & Hq & Hdm & Hn & Henc).
    set (S := 53 - (Zdigits2 pixels - Zdigits2 ppi)) in *.
    rewrite Hq. cbn [bind].
    assert (Hneg : n - S < 0) by (unfold S; lia).
    destruct (n - S) as [|k|k] eqn:Ek; try lia.
    rewrite py_round_hundredths.
    set (B := 2 ^ Z.pos k). set (c := 2 ^ n) in *. set (U := 2 ^ S) in *.
    assert (HB : 0 < B) by (apply Z.pow_pos_nonneg; lia).
    assert (Hc : 0 < c) by (apply Z.pow_pos_nonneg; lia).
    assert (HU : U = B * c).
    { unfold U, B, c. rewrite <- Z.pow_add_r by lia. f_equal. lia. }
    pose proof (digits53_lower m Hdm) as Hm.
    assert (Hsz : 200 * pixels < 2 ^ 53 - 1).
    { assert (200 * pixels < 200 * 2 ^ 25) by lia.
      assert (200 * 2 ^ 25 < 2 ^ 53 - 1) by (cbn; lia). lia. }
    destruct (hundredths_error pixels ppi U c (Zpos m) B
                (round_half_even_div (Zpos m * 100) B)
                ltac:(lia) Hppi0 Hc HB HU Hm Hsz)
      as (Hgap & Hnear & Huniq).
    { replace (Zpos m * c * ppi) with (Zpos m * 2 ^ n * ppi) by reflexivity.
      replace (c * ppi) with (2 ^ n * ppi) by reflexivity. exact Henc. }
    pose proof (round_half_even_div_nearest (Zpos m * 100) B HB) as Hr.
    set (K := round_half_even_div (Zpos m * 100) B) in *.
    replace (Zpos m * 100) with (100 * Zpos m) in Hr by ring.
    specialize (Hnear Hr).
    assert (HK0 : 0 <= K).
    { destruct (Z_le_gt_dec 0 K) as [H|H]; [exact H|exfalso].
      assert (K * ppi <= (-1) * ppi)
        by (apply Z.mul_le_mono_nonneg_r; lia).
      lia. }
    assert (HKhi : K < 2 ^ 1023).
    { assert (K * 1 <= K * ppi) by (apply Z.mul_le_mono_nonneg_l; lia).
      assert (K <= 100 * pixels + ppi) by lia.
      assert (100 * pixels + ppi < 101 * 2 ^ 25) by (destruct Hppi; lia).
      assert (101 * 2 ^ 25 < 2 ^ 1023) by reflexivity. lia. }
    exists K. eexists. split; [reflexivity|].
    split; [apply int_truediv_hundredths; lia|].
    split; [exact HK0|]. split; [exact Hnear|].
    intros K' HK'.
    apply (nearest_unique (100 * Zpos m) B); [exact HB| |exact Hr].
    apply Huniq. exact HK'.
Qed.


(** What [pixels_to_inches] returns, for a pixel count from 0 to 2^25 - 1
    and a ppi from 1 to 2^25 - 1: the double nearest to [K / 100], where the
    integer [K] is a number of hundredths nearest to [pixels / ppi]. Unless
    [100 * pixels / ppi] lies exactly half-way between two integers, [K] is
    the one nearest integer, so that the result is [pixels / ppi] correctly
    rounded to two decimals in spite of the two roundings of the source. *)
Theorem pixels_to_inches_value (pixels ppi : Z) :
  0 <= pixels < 2 ^ 25 -> pixel_size ppi ->
  exists K inches,
    pixels_to_inches pixels ppi = Ok (PyFloat inches)
    /\ int_truediv K 100 = Ok inches
    /\ 0 <= K
    /\ 2 * Z.abs (K * ppi - 100 * pixels) <= ppi
    /\ (2 * ((100 * pixels) mod ppi) <> ppi ->
        K = round_half_even_div (100 * pixels) ppi).
Proof.
  intros Hp Hppi.
  destruct (pixels_to_inches_hundredths pixels ppi Hp Hppi)
    as (K & inches & Hval & Hdiv & HK0 & Hnear & Huniq).
  exists K, inches. repeat (split; [assumption|]).
  intros Hne. apply Huniq.
  apply round_half_even_div_strict; [exact (proj1 Hppi)|exact Hne].
Qed.

Lemma pixels_to_inches_value_witness :
  0 <= 300 < 2 ^ 25 /\ pixel_size 72
  /\ exists K inches,
       pixels_to_inches 300 72 = Ok (PyFloat inches)
       /\ int_truediv K 100 = Ok inches
       /\ 0 <= K
       /\ 2 * Z.abs (K * 72 - 100 * 300) <= 72
       /\ (2 * ((100 * 300) mod 72) <> 72 ->
           K = round_half_even_div (100 * 300) 72).
Proof.
  assert (H3 : 0 <= 300 < 2 ^ 25) by (split; [discriminate|reflexivity]).
  assert (H7 : pixel_size 72) by (split; reflexivity).
  split; [exact H3|]. split; [exact H7|].
  exact (pixels_to_inches_value 300 72 H3 H7).
Defined.


Lemma quotient_or_below_lower (n d r : Z) :
  0 < d -> quotient_or_below n d r -> n - d <= d * r.
Proof.
  intros Hd Hq.
  pose proof (Z.div_mod n d ltac:(lia)) as Hdm.
  pose proof (Z.mod_pos_bound n d Hd) as Hr.
  destruct Hq as [->|[Hz ->]]; [lia|].
  replace (d * (n / d - 1)) with (d * (n / d) - d) by ring. lia.
Qed.

(** Converting a pixel count to inches and back loses at most
    [ppi / 200 + 1] pixels and gains at most [ppi / 200]: the rounding to
    two decimals moves the length by up to half a hundredth of an inch, and
    [int()] truncates. (Pixel counts from 0 to 2^18 - 1, ppi from 1 to
    2^25 - 1.) The round trip is not exact even when the inches have two
    decimals: 29 pixels at 100 ppi come back as 28. *)
Theorem pixels_inches_round_trip :
  (forall pixels ppi,
     0 <= pixels < 2 ^ 18 -> pixel_size ppi ->
     exists inches back,
       pixels_to_inches pixels ppi = Ok (PyFloat inches)
       /\ inches_to_pixels inches ppi = Ok back
       /\ 200 * pixels - ppi - 200 <= 200 * back <= 200 * pixels + ppi)
  /\ (q <- pixels_to_inches 29 100 ;;
      match q with
      | PyFloat inches => inches_to_pixels inches 100
      | _ => Ok 29
      end) = Ok 28.
Proof.
  split; [|vm_compute; reflexivity].
  intros pixels ppi Hp Hppi.
  assert (Hp' : 0 <= pixels < 2 ^ 25).
  { assert (2 ^ 18 < 2 ^ 25) by reflexivity. lia. }
  destruct (pixels_to_inches_hundredths pixels ppi Hp' Hppi)
    as (K & inches & Hval & Hdiv & HK0 & Hnear & _).
  exists inches.
  destruct (of_int_exact ppi (proj1 Hppi)) as (mp & Hof & Hdmp & _).
  { pose proof (small_digits ppi Hppi). lia. }
  assert (Hppi0 : 0 < ppi) by exact (proj1 Hppi).
  destruct (Z.eq_dec K 0) as [->|HKn].
  - exists 0. split; [exact Hval|].
    assert (Hin : inches = S754_zero false).
    { cbv in Hdiv. injection Hdiv as <-. reflexivity. }
    subst inches. split.
    + unfold inches_to_pixels, float_mul_int. rewrite Hof. reflexivity.
    + rewrite Z.mul_0_l, Z.sub_0_l, Z.abs_opp, Z.abs_eq in Hnear by lia. lia.
  - assert (HK : pixel_size K).
    { split; [lia|].
      assert (H1 : (K - 1) * 1 <= (K - 1) * ppi)
        by (apply Z.mul_le_mono_nonneg_l; lia).
      assert (H2 : K * ppi <= 100 * pixels + ppi) by lia.
      assert (H3 : 100 * 2 ^ 18 + 1 < 2 ^ 25) by reflexivity.
      replace ((K - 1) * ppi) with (K * ppi - ppi) in H1 by ring. lia. }
    assert (H100 : pixel_size 100) by (split; reflexivity).
    destruct (height_only_width K 100 ppi HK H100 Hppi)
      as (a & p & w & Ha & Hmul & Hw & Hq).
    rewrite Hdiv in Ha. injection Ha as <-.
    exists w. split; [exact Hval|]. split.
    + unfold inches_to_pixels, float_mul_int. rewrite Hof. cbn [bind].
      unfold int_mul_float in Hmul. rewrite Hof in Hmul. cbn [bind] in Hmul.
      injection Hmul as <-. rewrite SFmul_comm. exact Hw.
    + fold (quotient_or_below (ppi * K) 100 w) in Hq.
      pose proof (quotient_or_below_lower (ppi * K) 100 w ltac:(lia) Hq) as Hlo.
      destruct (quotient_or_below_bounds (ppi * K) 100 w) as [_ Hhi];
        [apply Z.mul_pos_pos; lia|lia|exact Hq|].
      replace (ppi * K) with (K * ppi) in Hlo, Hhi by ring.
      clear - Hlo Hhi Hnear. set (z := K * ppi) in *. clearbody z. lia.
Qed.

Lemma pixels_inches_round_trip_witness :
  0 <= 29 < 2 ^ 18 /\ pixel_size 100
  /\ exists inches back,
       pixels_to_inches 29 100 = Ok (PyFloat inches)
       /\ inches_to_pixels inches 100 = Ok back
       /\ 200 * 29 - 100 - 200 <= 200 * back <= 200 * 29 + 100.
Proof.
  assert (H2 : 0 <= 29 < 2 ^ 18) by (split; [discriminate|reflexivity]).
  assert (H1 : pixel_size 100) by (split; reflexivity).
  split; [exact H2|]. split; [exact H1|].
  exact (proj1 pixels_inches_round_trip 29 100 H2 H1).
Defined.

End InchProperties.

(** ** Enhancement to a requested size *)

Section EnhanceSize.

Import ImageProcessor RealESRGANModel.



End EnhanceSize.
